(** * The SUMO TraCI bridge service

    A shallow embedding of [backend/python-bridge/sumo_bridge.py] and
    [backend/python-bridge/sumo_bridge_fixed.py]: the bridge object, the
    TraCI session it drives, the background update loop, the data cache it
    republishes and the HTTP routes in front of it.

    Conventions of the embedding.
    - Python floats are idealised as rationals ([Q]); Python ints are [Z].
    - Everything outside the bridge (the TraCI module and the engine behind
      it, the process table, the wall clock, the file system) is reached
      through the interface [External]; a call that can raise returns a
      [result].
    - Methods of [SUMOBridge] that have effects are actions of the monad [M]
      over the [Runtime] (world, bridge object, threads, working directory,
      log); an API request and one iteration of the update loop are atomic
      steps of the runtime. *)

From Stdlib Require Import List String Ascii ZArith QArith Qminmax Qabs Bool Lia
  Lqa Arith.
From Stdlib Require Import DecimalString.
Import ListNotations.

Set Implicit Arguments.
Set Warnings "-register-all".
Open Scope string_scope.

(** ** Python strings *)

Module Py.

(** [str.lower()] on ASCII letters. *)
Definition lower_ascii (c : ascii) : ascii :=
  let n := nat_of_ascii c in
  if (65 <=? n)%nat && (n <=? 90)%nat then ascii_of_nat (n + 32) else c.

Fixpoint lower (s : string) : string :=
  match s with
  | EmptyString => EmptyString
  | String c s' => String (lower_ascii c) (lower s')
  end.

(** [needle in hay] for two strings. *)
Fixpoint str_in (needle hay : string) : bool :=
  String.prefix needle hay
  || match hay with
     | EmptyString => false
     | String _ hay' => str_in needle hay'
     end.

(** [s.startswith(p)]. *)
Definition startswith (s p : string) : bool := String.prefix p s.

(** [s * n]. *)
Fixpoint repeat_str (s : string) (n : nat) : string :=
  match n with
  | O => EmptyString
  | S n' => s ++ repeat_str s n'
  end.

(** [str(n)] for a natural number. *)
Definition str_of_nat (n : nat) : string :=
  NilEmpty.string_of_uint (Nat.to_uint n).

(** [' '.join(l)]. *)
Fixpoint join (sep : string) (l : list string) : string :=
  match l with
  | [] => EmptyString
  | [x] => x
  | x :: rest => x ++ sep ++ join sep rest
  end.

(** [range(n)] for an int [n]. *)
Definition range (n : Z) : list nat := seq 0 (Z.to_nat n).

(** [x < y] and [x > y] on floats. *)
Definition Qlt_bool (x y : Q) : bool := negb (Qle_bool y x).
Definition Qgt_bool (x y : Q) : bool := Qlt_bool y x.

End Py.

(** ** Exceptions and results *)

(** A raised exception (one that [except Exception] catches): its class
    name and [str(e)]. *)
Record exn := mk_exn { exn_class : string; exn_msg : string }.

Inductive result (A : Type) : Type :=
| Ok (a : A)
| Raise (e : exn).
Arguments Ok {A} a.
Arguments Raise {A} e.

Definition is_ok {A} (r : result A) : bool :=
  match r with Ok _ => true | Raise _ => false end.

(** Sequencing of calls that may raise, inside one [try] block. *)
Definition rbind {A B} (r : result A) (k : A -> result B) : result B :=
  match r with
  | Ok a => k a
  | Raise e => Raise e
  end.

Declare Scope result_scope.
Delimit Scope result_scope with result.
Notation "x <-? r ;; k" := (rbind r (fun x => k))
  (at level 100, r at next level, right associativity) : result_scope.

(** ** Values returned by TraCI *)

(** What a TraCI getter may hand back where the bridge guards the value with
    [safe_float] / [safe_int]: a number, a tuple or list, or [None]. *)
Inductive traci_value : Type :=
| TInt (n : Z)
| TFloat (x : Q)
| TSeq (xs : list traci_value)
| TNone.

(** [float(v)]: defined on numbers, a [TypeError] otherwise. *)
Definition py_float (v : traci_value) : option Q :=
  match v with
  | TInt n => Some (inject_Z n)
  | TFloat x => Some x
  | TSeq _ | TNone => None
  end.

(** [int(v)]: truncation towards zero on floats. *)
Definition py_int (v : traci_value) : option Z :=
  match v with
  | TInt n => Some n
  | TFloat x => Some (Z.quot (Qnum x) (Zpos (Qden x)))
  | TSeq _ | TNone => None
  end.

(** ** Values decoded from JSON *)

(** What [request.json] and [data.get] hand to the code: a decoded JSON
    value. *)
Inductive json : Type :=
| JNull
| JBool (b : bool)
| JInt (n : Z)
| JFloat (x : Q)
| JStr (s : string)
| JList (xs : list json)
| JObject (fields : list (string * json)).

(** [type(v).__name__]. *)
Definition py_type_name (v : json) : string :=
  match v with
  | JNull => "NoneType"
  | JBool _ => "bool"
  | JInt _ => "int"
  | JFloat _ => "float"
  | JStr _ => "str"
  | JList _ => "list"
  | JObject _ => "dict"
  end.

(** The integer [range] takes its argument for: an int as it is, a bool as
    0 or 1, and a [TypeError] for anything else. *)
Definition py_index (v : json) : result Z :=
  match v with
  | JInt n => Ok n
  | JBool b => Ok (if b then 1 else 0)%Z
  | _ => Raise (mk_exn "TypeError"
                  ("'" ++ py_type_name v
                   ++ "' object cannot be interpreted as an integer"))
  end.

(** [range(v)]. *)
Definition py_range (v : json) : result (list nat) :=
  match py_index v with
  | Ok n => Ok (Py.range n)
  | Raise e => Raise e
  end.

(** ** Log records *)

Inductive level := INFO | WARNING | ERROR.

Record LogEvent := Log { log_level : level; log_msg : string }.

(** ** The cached data *)

Record Position := mkPosition {
  pos_lat : Q;
  pos_lng : Q;
  pos_roadId : string;
  pos_laneId : string
}.

Record VehicleData := mkVehicleData {
  v_id : string;
  v_type : string;
  v_position : Position;
  v_speed : Q;
  v_angle : Q;
  v_route : list string;
  v_timestamp : Q;
  v_waitingTime : Q;
  v_distance : Q
}.

(** [vehicle_data.copy()] updated with the three emergency keys. *)
Record EmergencyData := mkEmergencyData {
  em_vehicle : VehicleData;
  em_emergencyType : string;
  em_priority : string;
  em_status : string
}.

Record TrafficLight := mkTrafficLight {
  tl_phase : string;
  tl_direction : string;
  tl_remainingTime : Q;
  tl_nextPhase : string
}.

Record IntersectionData := mkIntersectionData {
  i_id : string;
  i_lat : Q;
  i_lng : Q;
  i_trafficLights : list TrafficLight;
  i_queueLengths : list (string * Z);
  i_waitingTimes : list (string * Q);
  i_congestionLevel : string;
  i_timestamp : Q
}.

Record LaneData := mkLaneData {
  l_id : string;
  l_vehicleCount : Z;
  l_averageSpeed : Q;
  l_density : Q;
  l_flow : Q
}.

Record RoadData := mkRoadData {
  r_id : string;
  r_coordinates : list (Q * Q);
  r_lanes : list LaneData;
  r_congestionLevel : string;
  r_incidents : list string;
  r_timestamp : Q
}.

Record SimulationStats := mkSimulationStats {
  st_currentTime : traci_value;
  st_loadedVehicles : Z;
  st_departedVehicles : Z;
  st_arrivedVehicles : Z;
  st_activeVehicles : nat;
  st_timestamp : Q
}.

(** [d[k] = v] on a dict kept as an insertion-ordered association list. *)
Fixpoint dict_set {V} (d : list (string * V)) (k : string) (v : V)
  : list (string * V) :=
  match d with
  | [] => [(k, v)]
  | (k', v') :: d' =>
      if String.eqb k' k then (k', v) :: d' else (k', v') :: dict_set d' k v
  end.

(** ** The world outside the bridge *)

(** The TraCI module (and the engine behind it), [subprocess], [time] and the
    read-only parts of [os], as the bridge uses them.  [W] is the state of
    that world.  Getters read it; the calls that act on the engine or on a
    process return the next world as well. *)
Class External (W : Type) := {
  (* time *)
  time_time : W -> Q;
  time_sleep : Q -> W -> W;
  (* traci.simulation *)
  simulation_getTime : W -> result traci_value;
  simulation_getLoadedNumber : W -> result Z;
  simulation_getDepartedNumber : W -> result Z;
  simulation_getArrivedNumber : W -> result Z;
  simulation_getMinExpectedNumber : W -> result Z;
  simulation_getWaitingVehicleNumber : W -> result Z;
  simulation_getStartingTeleportNumber : W -> result Z;
  (* traci.vehicle *)
  vehicle_getIDList : W -> result (list string);
  vehicle_getPosition : W -> string -> result (Q * Q);
  vehicle_getSpeed : W -> string -> result traci_value;
  vehicle_getAngle : W -> string -> result traci_value;
  vehicle_getTypeID : W -> string -> result string;
  vehicle_getRoadID : W -> string -> result string;
  vehicle_getLaneID : W -> string -> result string;
  vehicle_getRoute : W -> string -> result (list string);
  vehicle_getWaitingTime : W -> string -> result traci_value;
  vehicle_getDistance : W -> string -> result traci_value;
  (* traci.trafficlight *)
  trafficlight_getIDList : W -> result (list string);
  trafficlight_getRedYellowGreenState : W -> string -> result string;
  trafficlight_getPhase : W -> string -> result traci_value;
  trafficlight_getNextSwitch : W -> string -> result traci_value;
  trafficlight_getProgram : W -> string -> result string;
  trafficlight_getControlledLanes : W -> string -> result (list string);
  trafficlight_setRedYellowGreenState :
    string -> string -> W -> result unit * W;
  (* traci.lane *)
  lane_getLastStepHaltingNumber : W -> string -> result Z;
  lane_getWaitingTime : W -> string -> result Q;
  lane_getLastStepVehicleNumber : W -> string -> result traci_value;
  lane_getLastStepMeanSpeed : W -> string -> result traci_value;
  lane_getLength : W -> string -> result traci_value;
  (* traci.edge *)
  edge_getIDList : W -> result (list string);
  edge_getLastStepVehicleNumber : W -> string -> result traci_value;
  edge_getLastStepMeanSpeed : W -> string -> result traci_value;
  edge_getLastStepVehicleIDs : W -> string -> result (list string);
  edge_getLaneNumber : W -> string -> result traci_value;
  (* the session *)
  traci_start : list string -> string -> W -> result unit * W;
  traci_close : W -> result unit * W;
  traci_simulationStep : W -> result unit * W;
  (* subprocess.Popen: spawn with a working directory; the handle is a pid *)
  Popen : list string -> string -> W -> result nat * W;
  Popen_poll : nat -> W -> option Z;
  Popen_communicate : nat -> W -> result string * W;
  Popen_terminate : nat -> W -> result unit * W;
  Popen_wait : nat -> option Q -> W -> result unit * W;
  Popen_kill : nat -> W -> result unit * W;
  subprocess_run : list string -> W -> result (Z * string);
  (* os, os.path: the file system is not written by the bridge *)
  script_file : string;
  environ_get : string -> option string;
  os_name : string;
  path_exists : string -> bool;
  path_isdir : string -> bool;
  path_isabs : string -> bool;
  path_abspath : string -> string -> string;
  path_dirname : string -> string;
  path_basename : string -> string;
  path_join : string -> string -> string;
  (* hash() of a str, fixed for the life of the interpreter *)
  py_hash : string -> Z
}.

(** [subprocess.TimeoutExpired], the one class [stop_sumo_process] tells
    apart. *)
Definition TimeoutExpired : string := "TimeoutExpired".

(** ** The bridge object *)

(** The attributes set by [SUMOBridge.__init__].  [update_thread] refers to
    a thread of the runtime by its index; [sumo_process] to a process by pid. *)
Record Bridge := mkBridge {
  sumo_host : string;
  sumo_port : Z;
  api_port : Z;
  connected : bool;
  simulation_running : bool;
  sumo_process : option nat;
  vehicles_data : list VehicleData;
  intersections_data : list IntersectionData;
  roads_data : list RoadData;
  emergency_vehicles_data : list EmergencyData;
  simulation_stats : option SimulationStats;
  update_thread : option nat;
  stop_updates : bool
}.

(** [SUMOBridge.__init__]: [simulation_stats = {}] is the empty dict. *)
Definition init (host : string) (port api : Z) : Bridge :=
  {| sumo_host := host; sumo_port := port; api_port := api;
     connected := false; simulation_running := false;
     sumo_process := None;
     vehicles_data := []; intersections_data := []; roads_data := [];
     emergency_vehicles_data := []; simulation_stats := None;
     update_thread := None; stop_updates := false |}.

Definition set_connected (v : bool) (b : Bridge) : Bridge :=
  {| sumo_host := sumo_host b; sumo_port := sumo_port b; api_port := api_port b;
     connected := v; simulation_running := simulation_running b;
     sumo_process := sumo_process b;
     vehicles_data := vehicles_data b;
     intersections_data := intersections_data b; roads_data := roads_data b;
     emergency_vehicles_data := emergency_vehicles_data b;
     simulation_stats := simulation_stats b;
     update_thread := update_thread b; stop_updates := stop_updates b |}.

Definition set_simulation_running (v : bool) (b : Bridge) : Bridge :=
  {| sumo_host := sumo_host b; sumo_port := sumo_port b; api_port := api_port b;
     connected := connected b; simulation_running := v;
     sumo_process := sumo_process b;
     vehicles_data := vehicles_data b;
     intersections_data := intersections_data b; roads_data := roads_data b;
     emergency_vehicles_data := emergency_vehicles_data b;
     simulation_stats := simulation_stats b;
     update_thread := update_thread b; stop_updates := stop_updates b |}.

Definition set_sumo_process (v : option nat) (b : Bridge) : Bridge :=
  {| sumo_host := sumo_host b; sumo_port := sumo_port b; api_port := api_port b;
     connected := connected b; simulation_running := simulation_running b;
     sumo_process := v;
     vehicles_data := vehicles_data b;
     intersections_data := intersections_data b; roads_data := roads_data b;
     emergency_vehicles_data := emergency_vehicles_data b;
     simulation_stats := simulation_stats b;
     update_thread := update_thread b; stop_updates := stop_updates b |}.

Definition set_vehicles (vs : list VehicleData) (es : list EmergencyData)
  (b : Bridge) : Bridge :=
  {| sumo_host := sumo_host b; sumo_port := sumo_port b; api_port := api_port b;
     connected := connected b; simulation_running := simulation_running b;
     sumo_process := sumo_process b;
     vehicles_data := vs;
     intersections_data := intersections_data b; roads_data := roads_data b;
     emergency_vehicles_data := es;
     simulation_stats := simulation_stats b;
     update_thread := update_thread b; stop_updates := stop_updates b |}.

Definition set_intersections (v : list IntersectionData) (b : Bridge) : Bridge :=
  {| sumo_host := sumo_host b; sumo_port := sumo_port b; api_port := api_port b;
     connected := connected b; simulation_running := simulation_running b;
     sumo_process := sumo_process b;
     vehicles_data := vehicles_data b;
     intersections_data := v; roads_data := roads_data b;
     emergency_vehicles_data := emergency_vehicles_data b;
     simulation_stats := simulation_stats b;
     update_thread := update_thread b; stop_updates := stop_updates b |}.

Definition set_roads (v : list RoadData) (b : Bridge) : Bridge :=
  {| sumo_host := sumo_host b; sumo_port := sumo_port b; api_port := api_port b;
     connected := connected b; simulation_running := simulation_running b;
     sumo_process := sumo_process b;
     vehicles_data := vehicles_data b;
     intersections_data := intersections_data b; roads_data := v;
     emergency_vehicles_data := emergency_vehicles_data b;
     simulation_stats := simulation_stats b;
     update_thread := update_thread b; stop_updates := stop_updates b |}.

Definition set_stats (v : option SimulationStats) (b : Bridge) : Bridge :=
  {| sumo_host := sumo_host b; sumo_port := sumo_port b; api_port := api_port b;
     connected := connected b; simulation_running := simulation_running b;
     sumo_process := sumo_process b;
     vehicles_data := vehicles_data b;
     intersections_data := intersections_data b; roads_data := roads_data b;
     emergency_vehicles_data := emergency_vehicles_data b;
     simulation_stats := v;
     update_thread := update_thread b; stop_updates := stop_updates b |}.

Definition set_update_thread (v : option nat) (b : Bridge) : Bridge :=
  {| sumo_host := sumo_host b; sumo_port := sumo_port b; api_port := api_port b;
     connected := connected b; simulation_running := simulation_running b;
     sumo_process := sumo_process b;
     vehicles_data := vehicles_data b;
     intersections_data := intersections_data b; roads_data := roads_data b;
     emergency_vehicles_data := emergency_vehicles_data b;
     simulation_stats := simulation_stats b;
     update_thread := v; stop_updates := stop_updates b |}.

Definition set_stop_updates (v : bool) (b : Bridge) : Bridge :=
  {| sumo_host := sumo_host b; sumo_port := sumo_port b; api_port := api_port b;
     connected := connected b; simulation_running := simulation_running b;
     sumo_process := sumo_process b;
     vehicles_data := vehicles_data b;
     intersections_data := intersections_data b; roads_data := roads_data b;
     emergency_vehicles_data := emergency_vehicles_data b;
     simulation_stats := simulation_stats b;
     update_thread := update_thread b; stop_updates := v |}.

(** ** Pure helpers of [SUMOBridge] *)

(** [safe_float]: a tuple or list yields the float of its first element, or
    the default when empty; [None] yields the default; a [TypeError] from
    [float] is caught and yields the default. *)
Definition safe_float (value : traci_value) (default : Q) : Q :=
  match value with
  | TSeq [] => default
  | TSeq (v0 :: _) =>
      match py_float v0 with Some x => x | None => default end
  | TNone => default
  | _ => match py_float value with Some x => x | None => default end
  end.

(** [safe_int], the same with [int]. *)
Definition safe_int (value : traci_value) (default : Z) : Z :=
  match value with
  | TSeq [] => default
  | TSeq (v0 :: _) =>
      match py_int v0 with Some n => n | None => default end
  | TNone => default
  | _ => match py_int value with Some n => n | None => default end
  end.

(** [type_mapping.get(sumo_type, 'car')]. *)
Definition map_vehicle_type (sumo_type : string) : string :=
  if String.eqb sumo_type "passenger" then "car"
  else if String.eqb sumo_type "bus" then "bus"
  else if String.eqb sumo_type "truck" then "truck"
  else if String.eqb sumo_type "motorcycle" then "motorcycle"
  else if String.eqb sumo_type "bicycle" then "bicycle"
  else if String.eqb sumo_type "emergency" then "emergency"
  else "car".

(** [state_mapping.get(state, 'red')]. *)
Definition map_tls_state (state : string) : string :=
  if String.eqb state "r" then "red"
  else if String.eqb state "y" then "yellow"
  else if String.eqb state "g" then "green"
  else if String.eqb state "G" then "green"
  else "red".

Definition emergency_keywords : list string :=
  ["ambulance"; "police"; "fire"; "emergency"; "rescue"].

(** [any(keyword in vehicle_id_lower or keyword in vehicle_type_lower
         for keyword in emergency_keywords)]. *)
Definition is_emergency_vehicle (vehicle_id vehicle_type : string) : bool :=
  let vehicle_id_lower := Py.lower vehicle_id in
  let vehicle_type_lower := Py.lower vehicle_type in
  existsb (fun keyword =>
             Py.str_in keyword vehicle_id_lower
             || Py.str_in keyword vehicle_type_lower)
          emergency_keywords.

Definition get_emergency_type (vehicle_id vehicle_type : string) : string :=
  let vehicle_str := Py.lower (vehicle_id ++ vehicle_type) in
  if Py.str_in "ambulance" vehicle_str then "ambulance"
  else if Py.str_in "police" vehicle_str then "police"
  else if Py.str_in "fire" vehicle_str then "fire"
  else "rescue".

(** [state[0] if state else 'r'], a one-character string. *)
Definition first_char_or (state : string) (default : string) : string :=
  match state with
  | EmptyString => default
  | String c _ => String c EmptyString
  end.

(** ** Sampling the engine *)

Section Sampling.
Context {W : Type} `{External W}.
Local Open Scope result_scope.
Local Open Scope Q_scope.

(** The body of the per-vehicle [try] of [update_vehicles_data], up to the
    finished [vehicle_data] dict; the raw SUMO type is returned with it
    because the classification below reads it. *)
Definition sample_vehicle (w : W) (vehicle_id : string)
  : result (VehicleData * string) :=
  position <-? vehicle_getPosition w vehicle_id ;;
  speed0 <-? vehicle_getSpeed w vehicle_id ;;
  let speed := safe_float speed0 0.0 in
  angle0 <-? vehicle_getAngle w vehicle_id ;;
  let angle := safe_float angle0 0.0 in
  vehicle_type <-? vehicle_getTypeID w vehicle_id ;;
  road_id <-? vehicle_getRoadID w vehicle_id ;;
  lane_id <-? vehicle_getLaneID w vehicle_id ;;
  route <-? vehicle_getRoute w vehicle_id ;;
  let lat := 9.0320 + (snd position / 111320.0) in
  let lng := 38.7469 + (fst position / (111320.0 * 0.9)) in
  waiting <-? vehicle_getWaitingTime w vehicle_id ;;
  distance <-? vehicle_getDistance w vehicle_id ;;
  Ok ({| v_id := vehicle_id;
         v_type := map_vehicle_type vehicle_type;
         v_position := {| pos_lat := lat; pos_lng := lng;
                          pos_roadId := road_id; pos_laneId := lane_id |};
         v_speed := speed * 3.6;
         v_angle := angle;
         v_route := route;
         v_timestamp := time_time w * 1000;
         v_waitingTime := safe_float waiting 0.0;
         v_distance := safe_float distance 0.0 |},
      vehicle_type).

(** [emergency_data = vehicle_data.copy(); emergency_data.update(...)]. *)
Definition emergency_of (vehicle_data : VehicleData)
  (vehicle_id vehicle_type : string) : EmergencyData :=
  {| em_vehicle := vehicle_data;
     em_emergencyType := get_emergency_type vehicle_id vehicle_type;
     em_priority := "high";
     em_status := "responding" |}.

(** The three loop variables of [update_vehicles_data] (the two lists being
    built and what was logged). *)
Definition vehicles_acc : Type :=
  (list VehicleData * list EmergencyData * list LogEvent)%type.

(** One iteration of [for vehicle_id in vehicle_ids]. *)
Definition vehicles_step (w : W) (acc : vehicles_acc) (vehicle_id : string)
  : vehicles_acc :=
  let '(vehicles, emergency_vehicles, logs) := acc in
  match sample_vehicle w vehicle_id with
  | Ok (vehicle_data, vehicle_type) =>
      if is_emergency_vehicle vehicle_id vehicle_type
      then (vehicles,
            (emergency_vehicles
               ++ [emergency_of vehicle_data vehicle_id vehicle_type])%list,
            logs)
      else ((vehicles ++ [vehicle_data])%list, emergency_vehicles, logs)
  | Raise e =>
      (vehicles, emergency_vehicles,
       (logs ++ [Log WARNING ("Error getting data for vehicle "
                              ++ vehicle_id ++ ": " ++ exn_msg e)])%list)
  end.

(** [update_vehicles_data]: both lists are assigned at the end of the outer
    [try]; if [getIDList] raises nothing is assigned. *)
Definition update_vehicles_data (w : W) (b : Bridge)
  : Bridge * list LogEvent :=
  match vehicle_getIDList w with
  | Ok vehicle_ids =>
      let '(vehicles, emergency_vehicles, logs) :=
        fold_left (vehicles_step w) vehicle_ids ([], [], []) in
      (set_vehicles vehicles emergency_vehicles b, logs)
  | Raise e =>
      (b, [Log ERROR ("Error updating vehicles data: " ++ exn_msg e)])
  end.

(** One iteration of [for lane_id in controlled_lanes[:5]]: both getters
    run before either dict is written; a bare [except] skips the lane. *)
Definition queue_step (w : W) (acc : list (string * Z) * list (string * Q))
  (lane_id : string) : list (string * Z) * list (string * Q) :=
  let '(queueLengths, waitingTimes) := acc in
  match lane_getLastStepHaltingNumber w lane_id,
        lane_getWaitingTime w lane_id with
  | Ok queue_length, Ok waiting_time =>
      (dict_set queueLengths lane_id queue_length,
       dict_set waitingTimes lane_id waiting_time)
  | _, _ => acc
  end.

(** The body of the per-intersection [try]. *)
Definition sample_intersection (w : W) (tls_id : string)
  : result IntersectionData :=
  state <-? trafficlight_getRedYellowGreenState w tls_id ;;
  phase0 <-? trafficlight_getPhase w tls_id ;;
  let phase := safe_int phase0 0 in
  next_switch0 <-? trafficlight_getNextSwitch w tls_id ;;
  let next_switch := safe_float next_switch0 0.0 in
  program <-? trafficlight_getProgram w tls_id ;;
  controlled_lanes <-? trafficlight_getControlledLanes w tls_id ;;
  let lat := 9.0320 + inject_Z (py_hash tls_id mod 1000) / 100000.0 in
  let lng := 38.7469 + inject_Z (py_hash tls_id mod 1000) / 100000.0 in
  now <-? simulation_getTime w ;;
  let '(queueLengths, waitingTimes) :=
    fold_left (queue_step w) (firstn 5 controlled_lanes) ([], []) in
  Ok {| i_id := tls_id;
        i_lat := lat;
        i_lng := lng;
        i_trafficLights :=
          [{| tl_phase := map_tls_state (first_char_or state "r");
              tl_direction := "all";
              tl_remainingTime :=
                Qmax 0.0 (next_switch - safe_float now 0.0);
              tl_nextPhase :=
                if String.eqb (first_char_or state "") "r"
                then "green" else "red" |}];
        i_queueLengths := queueLengths;
        i_waitingTimes := waitingTimes;
        i_congestionLevel := "low";
        i_timestamp := time_time w * 1000 |}.

Definition intersections_step (w : W)
  (acc : list IntersectionData * list LogEvent) (tls_id : string)
  : list IntersectionData * list LogEvent :=
  let '(intersections, logs) := acc in
  match sample_intersection w tls_id with
  | Ok intersection_data =>
      ((intersections ++ [intersection_data])%list, logs)
  | Raise e =>
      (intersections,
       (logs ++ [Log WARNING ("Error getting data for intersection "
                              ++ tls_id ++ ": " ++ exn_msg e)])%list)
  end.

Definition update_intersections_data (w : W) (b : Bridge)
  : Bridge * list LogEvent :=
  match trafficlight_getIDList w with
  | Ok tls_ids =>
      let '(intersections, logs) :=
        fold_left (intersections_step w) tls_ids ([], []) in
      (set_intersections intersections b, logs)
  | Raise e =>
      (b, [Log ERROR ("Error updating intersections data: " ++ exn_msg e)])
  end.

(** One iteration of [for lane_index in range(lane_count)]; a bare
    [except] skips the lane. *)
Definition lanes_step (w : W) (edge_id : string) (lanes : list LaneData)
  (lane_index : nat) : list LaneData :=
  let lane_id := (edge_id ++ "_" ++ Py.str_of_nat lane_index)%string in
  match (n0 <-? lane_getLastStepVehicleNumber w lane_id ;;
         s0 <-? lane_getLastStepMeanSpeed w lane_id ;;
         l0 <-? lane_getLength w lane_id ;;
         Ok (safe_int n0 0, safe_float s0 0.0, safe_float l0 0.0)) with
  | Ok (lane_vehicle_count, lane_mean_speed, lane_length) =>
      (lanes ++
       [{| l_id := lane_id;
           l_vehicleCount := lane_vehicle_count;
           l_averageSpeed := lane_mean_speed * 3.6;
           l_density :=
             if Py.Qgt_bool lane_length 0
             then inject_Z lane_vehicle_count / (lane_length / 1000)
             else 0;
           l_flow :=
             if Py.Qgt_bool lane_mean_speed 0
             then inject_Z lane_vehicle_count * 3600
                  / Qmax 1.0 lane_mean_speed
             else 0 |}])%list
  | Raise _ => lanes
  end.

(** The body of the per-edge [try] after the internal-edge test. *)
Definition sample_road (w : W) (edge_id : string) : result RoadData :=
  vehicle_count0 <-? edge_getLastStepVehicleNumber w edge_id ;;
  mean_speed0 <-? edge_getLastStepMeanSpeed w edge_id ;;
  let mean_speed := safe_float mean_speed0 0.0 in
  vehicle_ids <-? edge_getLastStepVehicleIDs w edge_id ;;
  lane_count0 <-? edge_getLaneNumber w edge_id ;;
  let lane_count := safe_int lane_count0 0 in
  let lanes := fold_left (lanes_step w edge_id) (Py.range lane_count) [] in
  let congestion_level :=
    if Py.Qlt_bool mean_speed 5.0 then "high"
    else if Py.Qlt_bool mean_speed 15.0 then "medium"
    else "low" in
  let coord (s : string) :=
    (9.0320 + inject_Z (py_hash s mod 100) / 10000.0,
     38.7469 + inject_Z (py_hash s mod 100) / 10000.0) in
  Ok {| r_id := edge_id;
        r_coordinates := [coord edge_id; coord (edge_id ++ "_end")%string];
        r_lanes := lanes;
        r_congestionLevel := congestion_level;
        r_incidents := [];
        r_timestamp := time_time w * 1000 |}.

(** One iteration of [for edge_id in edge_ids[:50]]. *)
Definition roads_step (w : W) (acc : list RoadData * list LogEvent)
  (edge_id : string) : list RoadData * list LogEvent :=
  let '(roads, logs) := acc in
  if Py.startswith edge_id ":" then acc
  else
    match sample_road w edge_id with
    | Ok road_data => ((roads ++ [road_data])%list, logs)
    | Raise e =>
        (roads,
         (logs ++ [Log WARNING ("Error getting data for edge "
                                ++ edge_id ++ ": " ++ exn_msg e)])%list)
    end.

Definition update_roads_data (w : W) (b : Bridge)
  : Bridge * list LogEvent :=
  match edge_getIDList w with
  | Ok edge_ids =>
      let '(roads, logs) :=
        fold_left (roads_step w) (firstn 50 edge_ids) ([], []) in
      (set_roads roads b, logs)
  | Raise e =>
      (b, [Log ERROR ("Error updating roads data: " ++ exn_msg e)])
  end.

(** [update_simulation_stats]: the dict is built from four getters and
    from the two vehicle lists the bridge holds at that moment. *)
Definition update_simulation_stats (w : W) (b : Bridge)
  : Bridge * list LogEvent :=
  match (current_time <-? simulation_getTime w ;;
         loaded_vehicles <-? simulation_getLoadedNumber w ;;
         departed_vehicles <-? simulation_getDepartedNumber w ;;
         arrived_vehicles <-? simulation_getArrivedNumber w ;;
         Ok {| st_currentTime := current_time;
               st_loadedVehicles := loaded_vehicles;
               st_departedVehicles := departed_vehicles;
               st_arrivedVehicles := arrived_vehicles;
               st_activeVehicles :=
                 (List.length (vehicles_data b)
                  + List.length (emergency_vehicles_data b))%nat;
               st_timestamp := time_time w * 1000 |}) with
  | Ok stats => (set_stats (Some stats) b, [])
  | Raise e =>
      (b, [Log ERROR ("Error updating simulation stats: " ++ exn_msg e)])
  end.

End Sampling.

(** ** The runtime: world, bridge object, threads, working directory *)

(** The local variables of one run of [update_data_loop] and whether the
    thread running it [is_alive()]. *)
Record LoopThread := mkLoopThread {
  alive : bool;
  update_count : nat;
  last_time : Q
}.

(** The state-changing TraCI calls, recorded as they are sent. *)
Inductive Command :=
| CmdStart (cmd : list string) (label : string)
| CmdClose
| CmdStep
| CmdSetState (tls_id : string) (state : string).

(** [B] is the bridge object: [Bridge] for [sumo_bridge.py], [Fixed.Bridge]
    for [sumo_bridge_fixed.py].  [cwd] is the working directory of the
    process, [threads] the update threads created so far (a thread is named
    by its index), [issued] the TraCI commands sent so far (oldest first) and
    [log] what was logged. *)
Record Runtime (W B : Type) := mkRuntime {
  world : W;
  cwd : string;
  bridge : B;
  threads : list LoopThread;
  issued : list Command;
  log : list LogEvent
}.
Arguments mkRuntime {W B}.

(** An action: it may raise, and changes the runtime either way. *)
Definition M (W B A : Type) : Type := Runtime W B -> result A * Runtime W B.

Section Monad.
Context {W B : Type}.
Let Rt := Runtime W B.
Let Act := M W B.

Definition ret {A} (a : A) : Act A := fun r => (Ok a, r).

Definition bind {A C} (m : Act A) (k : A -> Act C) : Act C :=
  fun r =>
    match m r with
    | (Ok a, r') => k a r'
    | (Raise e, r') => (Raise e, r')
    end.

(** [raise e]. *)
Definition raise {A} (e : exn) : Act A := fun r => (Raise e, r).

(** [try: m  except Exception as e: h e]. *)
Definition try_except {A} (m : Act A) (h : exn -> Act A) : Act A :=
  fun r =>
    match m r with
    | (Ok a, r') => (Ok a, r')
    | (Raise e, r') => h e r'
    end.

(** [try: m  finally: f]: [f] runs on both exits; if [f] raises, that
    exception replaces the outcome of [m]. *)
Definition try_finally {A} (m : Act A) (f : Act unit) : Act A :=
  fun r =>
    let '(res, r') := m r in
    match f r' with
    | (Ok _, r'') => (res, r'')
    | (Raise e, r'') => (Raise e, r'')
    end.

Definition gets {A} (f : Rt -> A) : Act A := fun r => (Ok (f r), r).

Definition modify (f : Rt -> Rt) : Act unit := fun r => (Ok tt, f r).

Definition set_world (w : W) (r : Rt) : Rt :=
  mkRuntime w (cwd r) (bridge r) (threads r) (issued r) (log r).
Definition set_cwd (d : string) (r : Rt) : Rt :=
  mkRuntime (world r) d (bridge r) (threads r) (issued r) (log r).
Definition set_bridge (b : B) (r : Rt) : Rt :=
  mkRuntime (world r) (cwd r) b (threads r) (issued r) (log r).
Definition set_threads (ts : list LoopThread) (r : Rt) : Rt :=
  mkRuntime (world r) (cwd r) (bridge r) ts (issued r) (log r).
Definition set_issued (cs : list Command) (r : Rt) : Rt :=
  mkRuntime (world r) (cwd r) (bridge r) (threads r) cs (log r).
Definition set_log (l : list LogEvent) (r : Rt) : Rt :=
  mkRuntime (world r) (cwd r) (bridge r) (threads r) (issued r) l.

Definition get_bridge : Act B := gets (@bridge W B).
Definition modify_bridge (f : B -> B) : Act unit :=
  modify (fun r => set_bridge (f (bridge r)) r).

(** A TraCI getter (or any read of the world). *)
Definition query {A} (q : W -> result A) : Act A :=
  fun r => (q (world r), r).

(** A call that acts on the world but is not a TraCI command. *)
Definition act {A} (c : W -> result A * W) : Act A :=
  fun r => let '(res, w') := c (world r) in (res, set_world w' r).

(** A TraCI command: it acts on the world and is recorded. *)
Definition command {A} (tag : Command) (c : W -> result A * W) : Act A :=
  fun r =>
    let '(res, w') := c (world r) in
    (res, set_issued (issued r ++ [tag])%list (set_world w' r)).

Definition logger (lvl : level) (msg : string) : Act unit :=
  modify (fun r => set_log (log r ++ [Log lvl msg])%list r).
Definition logger_info := logger INFO.
Definition logger_warning := logger WARNING.
Definition logger_error := logger ERROR.

(** Log records produced by a sampling function. *)
Definition logger_all (evs : list LogEvent) : Act unit :=
  modify (fun r => set_log (log r ++ evs)%list r).

(** ** Threads *)

Definition dead_thread : LoopThread :=
  {| alive := false; update_count := 0; last_time := 0 |}.

Definition thread_of (r : Rt) (i : nat) : LoopThread :=
  nth i (threads r) dead_thread.

Fixpoint list_set {A} (l : list A) (i : nat) (x : A) : list A :=
  match l, i with
  | [], _ => []
  | _ :: l', O => x :: l'
  | y :: l', S i' => y :: list_set l' i' x
  end.

Definition get_thread (i : nat) : Act LoopThread :=
  gets (fun r => thread_of r i).

Definition modify_thread (i : nat) (f : LoopThread -> LoopThread)
  : Act unit :=
  modify (fun r => set_threads (list_set (threads r) i (f (thread_of r i))) r).

(** [t = threading.Thread(target=self.update_data_loop); t.start()]: the
    new thread is alive and its loop variables have their initial values
    ([update_count = 0], [last_time = -1]). *)
Definition thread_start : Act nat :=
  fun r =>
    (Ok (List.length (threads r)),
     set_threads
       (threads r
        ++ [{| alive := true; update_count := 0; last_time := -1 |}])%list
       r).

(** [t is not None and t.is_alive()]. *)
Definition thread_is_alive (t : option nat) : Act bool :=
  gets (fun r => match t with
                 | Some i => alive (thread_of r i)
                 | None => false
                 end).

(** [t.join(timeout=...)] only waits: whatever the awaited thread does in
    the meantime are steps of that thread. *)
Definition thread_join (i : nat) (timeout : Q) : Act unit := ret tt.

End Monad.

Declare Scope act_scope.
Delimit Scope act_scope with act.
Notation "x <- m ;; k" := (bind m (fun x => k))
  (at level 100, m at next level, right associativity) : act_scope.
Notation "m ;; k" := (bind m (fun _ => k))
  (at level 100, right associativity) : act_scope.

(** ** [os] and [time] as actions *)

Section Os.
Context {W B : Type} `{External W}.
Let Act := M W B.

Definition FileNotFoundError (path : string) : exn :=
  mk_exn "FileNotFoundError" ("No such file or directory: " ++ path).

(** [os.getcwd()]. *)
Definition os_getcwd : Act string :=
  fun r =>
    if path_isdir (cwd r) then (Ok (cwd r), r)
    else (Raise (FileNotFoundError (cwd r)), r).

(** [os.chdir(d)] for an absolute [d]: the working directory becomes [d] if
    it is a directory and is left alone if the call raises. *)
Definition os_chdir (d : string) : Act unit :=
  fun r =>
    if path_isdir d then (Ok tt, set_cwd d r)
    else (Raise (FileNotFoundError d), r).

(** [os.path.abspath(p)], which reads the working directory. *)
Definition os_path_abspath (p : string) : Act string :=
  gets (fun r => path_abspath (cwd r) p).

(** [time.sleep(s)]. *)
Definition sleep (s : Q) : Act unit :=
  act (fun w => (Ok tt, time_sleep s w)).

(** [except C: h] for one exception class; anything else propagates. *)
Definition try_except_class {A} (cls : string) (m : Act A) (h : Act A)
  : Act A :=
  try_except m (fun e => if String.eqb (exn_class e) cls then h else raise e).

End Os.

(** The test both handlers apply to an exception caught around engine calls:
    ["connection" in str(e).lower() or "socket" in str(e).lower()]. *)
Definition is_connection_error (e : exn) : bool :=
  Py.str_in "connection" (Py.lower (exn_msg e))
  || Py.str_in "socket" (Py.lower (exn_msg e)).

(** ** Methods of [SUMOBridge] ([sumo_bridge.py]) *)

Section Methods.
Context {W : Type} `{External W}.
Let Act := M W Bridge.
Local Open Scope act_scope.

(** A sampling function run on the current world and bridge. *)
Definition sample (f : W -> Bridge -> Bridge * list LogEvent) : Act unit :=
  fun r =>
    let '(b', evs) := f (world r) (bridge r) in
    (Ok tt, set_log (log r ++ evs)%list (set_bridge b' r)).

Definition start_data_updates : Act unit :=
  b <- get_bridge ;;
  is_alive <- thread_is_alive (update_thread b) ;;
  if negb is_alive then
    modify_bridge (set_stop_updates false) ;;
    t <- thread_start ;;
    modify_bridge (set_update_thread (Some t)) ;;
    logger_info "Started data update thread"
  else ret tt.

Definition stop_data_updates : Act unit :=
  modify_bridge (set_stop_updates true) ;;
  b <- get_bridge ;;
  is_alive <- thread_is_alive (update_thread b) ;;
  match update_thread b with
  | Some t =>
      if is_alive then
        thread_join t 2 ;;
        logger_info "Stopped data update thread"
      else ret tt
  | None => ret tt
  end.

(** What [update_simulation_data] does when its [try] block raised. *)
Definition mark_if_connection_lost (e : exn) : Act unit :=
  logger_error ("Error updating simulation data: " ++ exn_msg e) ;;
  logger_error ("Error type: " ++ exn_class e) ;;
  if is_connection_error e then
    logger_warning "Connection lost, marking as disconnected" ;;
    modify_bridge (set_connected false) ;;
    modify_bridge (set_simulation_running false)
  else ret tt.

(** The [try] block of [update_simulation_data]: the four updates, each of
    which catches its own exceptions, then the end-of-simulation check. *)
Definition sample_all : Act unit :=
  sample update_vehicles_data ;;
  sample update_intersections_data ;;
  sample update_roads_data ;;
  sample update_simulation_stats ;;
  expected <- query simulation_getMinExpectedNumber ;;
  if (expected =? 0)%Z
  then logger_info "Simulation completed - no more vehicles expected"
  else ret tt.

Definition update_simulation_data : Act unit :=
  b <- get_bridge ;;
  if negb (connected b) then ret tt
  else try_except sample_all mark_if_connection_lost.

(** *** The update loop, one iteration at a time *)

Definition incr_update_count (t : LoopThread) : LoopThread :=
  {| alive := alive t; update_count := S (update_count t);
     last_time := last_time t |}.

Definition set_last_time (x : Q) (t : LoopThread) : LoopThread :=
  {| alive := alive t; update_count := update_count t; last_time := x |}.

Definition set_alive (a : bool) (t : LoopThread) : LoopThread :=
  {| alive := a; update_count := update_count t; last_time := last_time t |}.

Definition stall_warning : string := "Simulation time not advancing".

(** The first half of the [try] block of the loop body, run by thread [i]:
    count the update, read the state, step the engine and compare the new
    simulation time with [last_time], log every tenth update. *)
Definition step_and_check (i : nat) : Act unit :=
  modify_thread i incr_update_count ;;
  t0 <- query simulation_getTime ;;
  let current_time := safe_float t0 0 in
  ids <- query vehicle_getIDList ;;
  let vehicle_count := List.length ids in
  b <- get_bridge ;;
  (if simulation_running b then
     command CmdStep traci_simulationStep ;;
     t1 <- query simulation_getTime ;;
     let new_time := safe_float t1 0 in
     th <- get_thread i ;;
     if Py.Qgt_bool new_time (last_time th)
     then modify_thread i (set_last_time new_time)
     else logger_warning stall_warning
   else ret tt) ;;
  th <- get_thread i ;;
  if (update_count th mod 10 =? 0)%nat then
    loaded <- query simulation_getLoadedNumber ;;
    departed <- query simulation_getDepartedNumber ;;
    logger_info ("Update " ++ Py.str_of_nat (update_count th))
  else ret tt.

(** The whole [try] block: after stepping, refresh the cache and sleep. *)
Definition loop_try_body (i : nat) : Act unit :=
  step_and_check i ;;
  update_simulation_data ;;
  sleep 0.1.

(** Leaving the [while] loop: the last log line, then the thread ends. *)
Definition loop_exit (i : nat) : Act unit :=
  th <- get_thread i ;;
  logger_info ("Data update loop stopped after "
               ++ Py.str_of_nat (update_count th) ++ " updates") ;;
  modify_thread i (set_alive false).

(** The [except Exception as e] clause of the loop body. *)
Definition loop_handler (i : nat) (e : exn) : Act unit :=
  th <- get_thread i ;;
  logger_error ("Error in data update loop (update "
                ++ Py.str_of_nat (update_count th) ++ "): " ++ exn_msg e) ;;
  logger_error ("Error type: " ++ exn_class e) ;;
  if is_connection_error e then
    logger_warning "TraCI connection lost in update loop" ;;
    modify_bridge (set_connected false) ;;
    modify_bridge (set_simulation_running false) ;;
    loop_exit i
  else sleep 5.

(** One turn of [while not self.stop_updates and self.connected] for the
    thread [i]: test the condition, then run the body or leave the loop.  A
    thread that has ended does nothing. *)
Definition update_data_loop_step (i : nat) : Act unit :=
  th <- get_thread i ;;
  if alive th then
    b <- get_bridge ;;
    if negb (stop_updates b) && connected b
    then try_except (loop_try_body i) (loop_handler i)
    else loop_exit i
  else ret tt.

(** [update_data_loop] run for at most [fuel] turns. *)
Fixpoint update_data_loop (fuel : nat) (i : nat) : Act unit :=
  match fuel with
  | O => ret tt
  | S fuel' => update_data_loop_step i ;; update_data_loop fuel' i
  end.

End Methods.

(** [str(n)] for an int. *)
Definition str_of_Z (n : Z) : string := NilEmpty.string_of_int (Z.to_int n).

Section Session.
Context {W : Type} `{External W}.
Let Act := M W Bridge.
Local Open Scope act_scope.

(** [os.path.join(sumo_home, 'bin', name)]. *)
Definition bin_path (sumo_home name : string) : string :=
  path_join (path_join sumo_home "bin") name.

(** The project root as both start-up paths compute it from [__file__]. *)
Definition project_root_of (script_path : string) : string :=
  let script_dir := path_dirname script_path in
  path_dirname (path_dirname script_dir).

(** The [for i in range(max_steps)] loop of [connect_to_sumo], over the
    indices still to run; finding an active vehicle at a checked step is the
    [break]. *)
Fixpoint advance_until_vehicles (indices : list nat) : Act unit :=
  match indices with
  | [] => ret tt
  | i :: rest =>
      command CmdStep traci_simulationStep ;;
      if (i mod 10 =? 0)%nat then
        loaded_vehicles <- query simulation_getLoadedNumber ;;
        departed_vehicles <- query simulation_getDepartedNumber ;;
        ids <- query vehicle_getIDList ;;
        logger_info ("Step " ++ Py.str_of_nat i) ;;
        if (0 <? List.length ids)%nat
        then logger_info "Vehicles detected"
        else advance_until_vehicles rest
      else advance_until_vehicles rest
  end.

(** The command line built by [connect_to_sumo]. *)
Definition connect_cmd (sumo_binary config_file : string) (use_gui : bool)
  : list string :=
  ([sumo_binary; "-c"; config_file; "--step-length"; "1.0"; "--no-warnings";
    "--no-step-log"; "--quit-on-end"; "--delay"; "0"; "--begin"; "0";
    "--end"; "10800"]
   ++ (if negb use_gui
       then ["--xml-validation"; "never"; "--ignore-route-errors";
             "--eager-insert"; "--max-depart-delay"; "7200";
             "--time-to-teleport"; "600"]
       else []))%list.

(** The SUMO binary chosen by [connect_to_sumo]; an empty [SUMO_HOME] is
    falsy. *)
Definition connect_binary (use_gui : bool) : string :=
  let on_path := if use_gui then "sumo-gui" else "sumo" in
  match environ_get "SUMO_HOME" with
  | Some sumo_home =>
      if String.eqb sumo_home "" then on_path
      else
        let sumo_binary :=
          if use_gui then bin_path sumo_home "sumo-gui.exe"
          else bin_path sumo_home "sumo.exe" in
        if negb (path_exists sumo_binary) then on_path else sumo_binary
  | None => on_path
  end.

(** The inner [try] block of [connect_to_sumo], between the two [chdir]s. *)
Definition connect_in_config_dir (config_dir : string)
  (sumo_cmd : list string) : Act bool :=
  os_chdir config_dir ;;
  command (CmdStart sumo_cmd "default") (traci_start sumo_cmd "default") ;;
  sleep 2 ;;
  t0 <- query simulation_getTime ;;
  let current_time := safe_float t0 0 in
  loaded_vehicles <- query simulation_getLoadedNumber ;;
  departed_vehicles <- query simulation_getDepartedNumber ;;
  logger_info "Connected to SUMO successfully!" ;;
  (if (loaded_vehicles =? 0)%Z || (departed_vehicles =? 0)%Z then
     logger_warning
       "No vehicles loaded/departed initially, advancing simulation to load routes..." ;;
     advance_until_vehicles (seq 0 100) ;;
     ids <- query vehicle_getIDList ;;
     if (List.length ids =? 0)%nat
     then logger_warning "No active vehicles after 100 steps. Check route file: routes.xml"
     else logger_info "Simulation ready"
   else ret tt) ;;
  modify_bridge (set_connected true) ;;
  modify_bridge (set_simulation_running true) ;;
  start_data_updates ;;
  ret true.

Definition connect_to_sumo (use_gui : bool) : Act bool :=
  try_except
    (logger_info
       "Connecting to SUMO via TraCI (using fixed method with traci.start())..." ;;
     try_except (command CmdClose traci_close) (fun _ => ret tt) ;;
     script_path <- os_path_abspath script_file ;;
     let project_root := project_root_of script_path in
     let regular_config :=
       path_join (path_join project_root "AddisAbabaSumo")
                 "AddisAbaba.sumocfg" in
     config_to_use <-
       (if path_exists regular_config
        then logger_info ("Using config: " ++ regular_config) ;;
             ret regular_config
        else raise (mk_exn "Exception"
                      ("SUMO config file not found: " ++ regular_config))) ;;
     config_path <- os_path_abspath config_to_use ;;
     let config_dir := path_dirname config_path in
     let config_file := path_basename config_path in
     let sumo_binary := connect_binary use_gui in
     let sumo_cmd := connect_cmd sumo_binary config_file use_gui in
     logger_info ("Starting SUMO with: " ++ Py.join " " sumo_cmd) ;;
     logger_info ("Working directory: " ++ config_dir) ;;
     original_cwd <- os_getcwd ;;
     try_finally
       (connect_in_config_dir config_dir sumo_cmd)
       (os_chdir original_cwd))
    (fun e =>
       logger_error ("Failed to connect to SUMO: " ++ exn_msg e) ;;
       logger_error ("Error details: " ++ exn_class e ++ ": " ++ exn_msg e) ;;
       modify_bridge (set_connected false) ;;
       ret false).

Definition disconnect_from_sumo : Act unit :=
  try_except
    (stop_data_updates ;;
     b <- get_bridge ;;
     if connected b then
       command CmdClose traci_close ;;
       modify_bridge (set_connected false) ;;
       modify_bridge (set_simulation_running false) ;;
       logger_info "Disconnected from SUMO"
     else ret tt)
    (fun e => logger_error ("Error during disconnection: " ++ exn_msg e)).

Definition stop_sumo_process : Act unit :=
  try_except
    (b <- get_bridge ;;
     (if connected b then disconnect_from_sumo else ret tt) ;;
     b <- get_bridge ;;
     match sumo_process b with
     | Some p =>
         logger_info "Stopping SUMO process..." ;;
         act (Popen_terminate p) ;;
         try_except_class TimeoutExpired
           (act (Popen_wait p (Some 10%Q)))
           (logger_warning
              "SUMO process didn't terminate gracefully, killing..." ;;
            act (Popen_kill p) ;;
            act (Popen_wait p None)) ;;
         modify_bridge (set_sumo_process None) ;;
         logger_info "SUMO process stopped"
     | None => ret tt
     end)
    (fun e => logger_error ("Error stopping SUMO process: " ++ exn_msg e)).

End Session.

Section Process.
Context {W : Type} `{External W}.
Let Act := M W Bridge.
Local Open Scope act_scope.

(** The command line built by [start_sumo_process]. *)
Definition process_cmd (actual_config_path : string) (port : Z)
  (use_gui : bool) : list string :=
  let binary :=
    match environ_get "SUMO_HOME" with
    | Some sumo_home =>
        if String.eqb sumo_home ""
        then (if use_gui then "sumo-gui" else "sumo")
        else (if use_gui then bin_path sumo_home "sumo-gui.exe"
              else bin_path sumo_home "sumo.exe")
    | None => if use_gui then "sumo-gui" else "sumo"
    end in
  [binary; "-c"; actual_config_path; "--remote-port"; str_of_Z port;
   "--step-length"; "1.0"; "--start"; "--xml-validation"; "never";
   "--no-internal-links"; "--threads"; "1"; "--step-method.ballistic";
   "--no-warnings"; "--no-step-log"; "--max-depart-delay"; "7200";
   "--ignore-route-errors"; "--eager-insert"; "--time-to-teleport"; "600";
   "--duration-log.statistics"].

Definition start_sumo_process (config_path : string) (use_gui : bool)
  : Act bool :=
  try_except
    (stop_sumo_process ;;
     script_path <- os_path_abspath script_file ;;
     let project_root := project_root_of script_path in
     let sumo_dir := path_join project_root "AddisAbabaSumo" in
     let actual_config_path :=
       if path_isabs config_path then config_path
       else path_basename config_path in
     logger_info ("Using SUMO config: " ++ actual_config_path
                  ++ " in directory: " ++ sumo_dir) ;;
     let full_config_path := path_join sumo_dir actual_config_path in
     (if negb (path_exists full_config_path)
      then raise (mk_exn "Exception"
                    ("SUMO config file not found: " ++ full_config_path))
      else ret tt) ;;
     b <- get_bridge ;;
     let sumo_cmd := process_cmd actual_config_path (sumo_port b) use_gui in
     logger_info ("Starting SUMO with command: " ++ Py.join " " sumo_cmd
                  ++ " in directory: " ++ sumo_dir) ;;
     pid <- act (Popen sumo_cmd sumo_dir) ;;
     modify_bridge (set_sumo_process (Some pid)) ;;
     logger_info ("SUMO process started with PID: " ++ Py.str_of_nat pid) ;;
     sleep 1 ;;
     code <- query (fun w => Ok (Popen_poll pid w)) ;;
     match code with
     | Some _ =>
         stdout <- act (Popen_communicate pid) ;;
         logger_error ("SUMO process terminated immediately. Output: "
                       ++ stdout) ;;
         ret false
     | None =>
         logger_info "SUMO process appears to be running successfully" ;;
         ret true
     end)
    (fun e =>
       logger_error ("Failed to start SUMO process: " ++ exn_msg e) ;;
       ret false).

(** [phase_mapping.get(phase, 'G')]. *)
Definition phase_mapping (phase : string) : string :=
  if String.eqb phase "red" then "r"
  else if String.eqb phase "yellow" then "y"
  else if String.eqb phase "green" then "G"
  else "G".

(** [override_traffic_light]: the only test made before the engine is
    called is [self.connected]. *)
Definition override_traffic_light (intersection_id phase : string)
  (duration : Z) : Act bool :=
  b <- get_bridge ;;
  if negb (connected b) then ret false
  else
    try_except
      (let sumo_phase := phase_mapping phase in
       current_program <- query (fun w => trafficlight_getProgram w
                                            intersection_id) ;;
       command (CmdSetState intersection_id (Py.repeat_str sumo_phase 4))
               (trafficlight_setRedYellowGreenState
                  intersection_id (Py.repeat_str sumo_phase 4)) ;;
       logger_info ("Traffic light " ++ intersection_id
                    ++ " overridden to " ++ phase) ;;
       ret true)
      (fun e =>
         logger_error ("Failed to override traffic light "
                       ++ intersection_id ++ ": " ++ exn_msg e) ;;
         ret false).

End Process.

(** ** The HTTP routes ([setup_routes]) *)

(** The JSON body of [POST /command/traffic-light]. *)
Record OverrideRequest := mkOverrideRequest {
  intersectionId : string;
  phase : option string;
  duration : option Z
}.

Inductive Request :=
| GET_health
| GET_system_info
| POST_connect
| POST_start_sumo (gui : option bool)
| POST_stop_sumo
| POST_start_sumo_full (gui : option bool)
| POST_disconnect
| GET_status
| GET_vehicles
| GET_intersections
| GET_roads
| GET_emergency_vehicles
| GET_simulation_stats
| GET_all_data
| POST_command_traffic_light (data : option OverrideRequest)
| POST_simulation_pause
| POST_simulation_resume.

(** What a response carries besides its status and message. *)
Inductive Payload :=
| NoData
| HealthData (is_connected is_running : bool) (timestamp : Q)
| SystemInfoData (is_connected is_running sumo_available : bool)
    (sumo_version : string) (vehicle_count : nat) (simulation_time : Q)
| ConnectData (is_connected : bool) (simulation_time : traci_value)
    (vehicle_count : nat)
| StartData (simulation_time : Q) (vehicle_count : nat)
    (loaded_count departed_count : Z)
| StartFullData (is_connected : bool) (simulation_time : Q)
    (vehicle_count : nat)
| StatusData (is_connected sumo_running : bool)
    (simulation_time : traci_value) (vehicle_count : nat) (last_update : Q)
| VehiclesData (data : list VehicleData) (timestamp : Q) (count : nat)
| IntersectionsData (data : list IntersectionData) (timestamp : Q)
    (count : nat)
| RoadsData (data : list RoadData) (timestamp : Q) (count : nat)
| EmergencyData_ (data : list EmergencyData) (timestamp : Q) (count : nat)
| StatsData (stats : option SimulationStats) (timestamp : Q)
| AllData (vehicles : list VehicleData)
    (intersections : list IntersectionData) (roads : list RoadData)
    (emergency_vehicles : list EmergencyData)
    (stats : option SimulationStats) (timestamp : Q).

Record Response := mkResponse {
  http_status : nat;
  success : bool;
  message : string;
  payload : Payload
}.

Section Routes.
Context {W : Type} `{External W}.
Let Act := M W Bridge.
Local Open Scope act_scope.

Definition now : Act Q := query (fun w => Ok (time_time w)).

Definition error_500 (e : exn) : Act Response :=
  ret (mkResponse 500 false (exn_msg e) NoData).

(** [for _ in range(10)] of [start_sumo_full]: step until a vehicle shows
    up, sleeping a second after each empty step. *)
Fixpoint step_until_vehicles (n : nat) (count : nat) : Act nat :=
  match n with
  | O => ret count
  | S n' =>
      command CmdStep traci_simulationStep ;;
      ids <- query vehicle_getIDList ;;
      if (0 <? List.length ids)%nat then ret (List.length ids)
      else sleep 1 ;; step_until_vehicles n' (List.length ids)
  end.

Definition default {A} (o : option A) (d : A) : A :=
  match o with Some a => a | None => d end.

Definition handle (q : Request) : Act Response :=
  match q with
  | GET_health =>
      b <- get_bridge ;; t <- now ;;
      ret (mkResponse 200 true "healthy"
             (HealthData (connected b) (simulation_running b) t))
  | GET_system_info =>
      try_except
        (b <- get_bridge ;;
         v <- try_except
                (res <- query (subprocess_run ["sumo"; "--version"]) ;;
                 ret (if (fst res =? 0)%Z then (true, snd res)
                      else (false, "Not available")))
                (fun _ => ret (false, "Not available")) ;;
         ids <- (if connected b then query vehicle_getIDList else ret []) ;;
         t <- (if connected b
               then t0 <- query simulation_getTime ;; ret (safe_float t0 0)
               else ret 0%Q) ;;
         ret (mkResponse 200 true ""
                (SystemInfoData (connected b) (simulation_running b)
                   (fst v) (snd v) (List.length ids) t)))
        error_500
  | POST_connect =>
      try_except
        (ok <- connect_to_sumo false ;;
         t <- (if ok then query simulation_getTime else ret (TInt 0)) ;;
         ids <- (if ok then query vehicle_getIDList else ret []) ;;
         ret (mkResponse 200 ok
                (if ok then "Connected to SUMO"
                 else "Failed to connect to SUMO")
                (ConnectData ok t (List.length ids))))
        (fun e => logger_error ("Connection error: " ++ exn_msg e) ;;
                  error_500 e)
  | POST_start_sumo gui =>
      try_except
        (ok <- connect_to_sumo (default gui true) ;;
         if ok then
           sleep 3 ;;
           t0 <- query simulation_getTime ;;
           ids <- query vehicle_getIDList ;;
           loaded_count <- query simulation_getLoadedNumber ;;
           departed_count <- query simulation_getDepartedNumber ;;
           logger_info "SUMO connected" ;;
           ret (mkResponse 200 true "SUMO connected successfully"
                  (StartData (safe_float t0 0) (List.length ids)
                     loaded_count departed_count))
         else ret (mkResponse 500 false "Failed to connect to SUMO" NoData))
        (fun e => logger_error ("SUMO start error: " ++ exn_msg e) ;;
                  error_500 e)
  | POST_stop_sumo =>
      try_except
        (stop_sumo_process ;;
         ret (mkResponse 200 true "SUMO stopped successfully" NoData))
        (fun e => logger_error ("SUMO stop error: " ++ exn_msg e) ;;
                  error_500 e)
  | POST_start_sumo_full gui =>
      try_except
        (started <- start_sumo_process "dashboard_config.sumocfg"
                      (default gui false) ;;
         if started then
           logger_info
             "Waiting for SUMO full configuration to initialize (10 seconds)..." ;;
           sleep 10 ;;
           ok <- connect_to_sumo false ;;
           count <-
             (if ok then
                sleep 5 ;;
                ids <- query vehicle_getIDList ;;
                if (List.length ids =? 0)%nat then
                  logger_info
                    "No vehicles found initially in full sim, advancing simulation..." ;;
                  step_until_vehicles 10 (List.length ids)
                else ret (List.length ids)
              else ret 0%nat) ;;
           t <- (if ok
                 then t0 <- query simulation_getTime ;; ret (safe_float t0 0)
                 else ret 0%Q) ;;
           ret (mkResponse 200 ok
                  (if ok then "SUMO Full (9,886 vehicles) connected"
                   else "SUMO started but connection failed")
                  (StartFullData ok t count))
         else ret (mkResponse 500 false
                     "Failed to start SUMO process with full configuration"
                     NoData))
        (fun e => logger_error ("SUMO full start error: " ++ exn_msg e) ;;
                  error_500 e)
  | POST_disconnect =>
      try_except
        (disconnect_from_sumo ;;
         ret (mkResponse 200 true "Disconnected from SUMO" NoData))
        (fun e => logger_error ("Disconnection error: " ++ exn_msg e) ;;
                  error_500 e)
  | GET_status =>
      try_except
        (b <- get_bridge ;;
         t <- (if connected b then query simulation_getTime
               else ret (TInt 0)) ;;
         ids <- (if connected b then query vehicle_getIDList else ret []) ;;
         b <- get_bridge ;; u <- now ;;
         ret (mkResponse 200 true ""
                (StatusData (connected b) (simulation_running b) t
                   (List.length ids) u)))
        (fun e => u <- now ;;
                  ret (mkResponse 200 false (exn_msg e)
                         (StatusData false false (TInt 0) 0 u)))
  | GET_vehicles =>
      b <- get_bridge ;; t <- now ;;
      ret (mkResponse 200 true ""
             (VehiclesData (vehicles_data b) t
                (List.length (vehicles_data b))))
  | GET_intersections =>
      b <- get_bridge ;; t <- now ;;
      ret (mkResponse 200 true ""
             (IntersectionsData (intersections_data b) t
                (List.length (intersections_data b))))
  | GET_roads =>
      b <- get_bridge ;; t <- now ;;
      ret (mkResponse 200 true ""
             (RoadsData (roads_data b) t (List.length (roads_data b))))
  | GET_emergency_vehicles =>
      b <- get_bridge ;; t <- now ;;
      ret (mkResponse 200 true ""
             (EmergencyData_ (emergency_vehicles_data b) t
                (List.length (emergency_vehicles_data b))))
  | GET_simulation_stats =>
      b <- get_bridge ;; t <- now ;;
      ret (mkResponse 200 true "" (StatsData (simulation_stats b) t))
  | GET_all_data =>
      b <- get_bridge ;; t <- now ;;
      ret (mkResponse 200 true ""
             (AllData (vehicles_data b) (intersections_data b)
                (roads_data b) (emergency_vehicles_data b)
                (simulation_stats b) t))
  | POST_command_traffic_light data =>
      try_except
        (match data with
         | None =>
             raise (mk_exn "AttributeError"
                      "'NoneType' object has no attribute 'get'")
         | Some d =>
             let phase := default (phase d) "green" in
             ok <- override_traffic_light (intersectionId d) phase
                     (default (duration d) 30%Z) ;;
             ret (mkResponse 200 ok
                    (if ok
                     then "Traffic light " ++ intersectionId d
                          ++ " set to " ++ phase
                     else "Command failed")
                    NoData)
         end)
        error_500
  | POST_simulation_pause =>
      try_except
        (b <- get_bridge ;;
         if connected b then
           stop_data_updates ;;
           ret (mkResponse 200 true "Simulation paused" NoData)
         else ret (mkResponse 400 false "Not connected to SUMO" NoData))
        (fun e => logger_error ("Pause error: " ++ exn_msg e) ;;
                  error_500 e)
  | POST_simulation_resume =>
      try_except
        (b <- get_bridge ;;
         if connected b then
           start_data_updates ;;
           ret (mkResponse 200 true "Simulation resumed" NoData)
         else ret (mkResponse 400 false "Not connected to SUMO" NoData))
        (fun e => logger_error ("Resume error: " ++ exn_msg e) ;;
                  error_500 e)
  end.

(** *** Steps of the running service *)

(** The service moves by API requests and by turns of the update threads. *)
Inductive Step :=
| Api (q : Request)
| Turn (i : nat).

Definition exec (s : Step) (r : Runtime W Bridge) : Runtime W Bridge :=
  match s with
  | Api q => snd (handle q r)
  | Turn i => snd (update_data_loop_step i r)
  end.

Definition run (steps : list Step) (r : Runtime W Bridge)
  : Runtime W Bridge :=
  fold_left (fun r s => exec s r) steps r.

(** The runtime of a freshly constructed bridge. *)
Definition boot (w : W) (dir : string) (host : string) (port api : Z)
  : Runtime W Bridge :=
  mkRuntime w dir (init host port api) [] [] [].

End Routes.

(** ** [sumo_bridge_fixed.py] *)

Module Fixed.

Record FVehicle := mkFVehicle {
  fv_id : string;
  fv_position : Q * Q;
  fv_speed : traci_value;
  fv_route : list string;
  fv_edge : string
}.

Record FLight := mkFLight {
  fl_id : string;
  fl_state : string;
  fl_phase : traci_value;
  fl_program : string
}.

Record FStatistics := mkFStatistics {
  fs_loaded : Z;
  fs_departed : Z;
  fs_arrived : Z;
  fs_active : nat;
  fs_waiting : Z;
  fs_teleports : Z
}.

Record CurrentData := mkCurrentData {
  cd_time : traci_value;
  cd_vehicles : list FVehicle;
  cd_traffic_lights : list FLight;
  cd_statistics : option FStatistics
}.

Record Bridge := mkBridge {
  connected : bool;
  simulation_running : bool;
  sumo_process : option nat;
  update_thread : option nat;
  stop_updates : bool;
  current_data : CurrentData
}.

Definition init : Bridge :=
  {| connected := false; simulation_running := false; sumo_process := None;
     update_thread := None; stop_updates := false;
     current_data := mkCurrentData (TInt 0) [] [] None |}.

Definition set_connected (v : bool) (b : Bridge) : Bridge :=
  mkBridge v (simulation_running b) (sumo_process b) (update_thread b)
           (stop_updates b) (current_data b).
Definition set_simulation_running (v : bool) (b : Bridge) : Bridge :=
  mkBridge (connected b) v (sumo_process b) (update_thread b)
           (stop_updates b) (current_data b).
Definition set_update_thread (v : option nat) (b : Bridge) : Bridge :=
  mkBridge (connected b) (simulation_running b) (sumo_process b) v
           (stop_updates b) (current_data b).
Definition set_stop_updates (v : bool) (b : Bridge) : Bridge :=
  mkBridge (connected b) (simulation_running b) (sumo_process b)
           (update_thread b) v (current_data b).
Definition set_current_data (v : CurrentData) (b : Bridge) : Bridge :=
  mkBridge (connected b) (simulation_running b) (sumo_process b)
           (update_thread b) (stop_updates b) v.

Section Methods.
Context {W : Type} `{External W}.
Let Act := M W Bridge.
Local Open Scope act_scope.

Definition start_data_updates : Act unit :=
  b <- get_bridge ;;
  is_alive <- thread_is_alive (update_thread b) ;;
  if negb is_alive then
    modify_bridge (set_stop_updates false) ;;
    t <- thread_start ;;
    modify_bridge (set_update_thread (Some t)) ;;
    logger_info "Started data update thread"
  else ret tt.

Definition stop_data_updates : Act unit :=
  modify_bridge (set_stop_updates true) ;;
  b <- get_bridge ;;
  is_alive <- thread_is_alive (update_thread b) ;;
  match update_thread b with
  | Some t =>
      if is_alive then
        thread_join t 2 ;;
        logger_info "Stopped data update thread"
      else ret tt
  | None => ret tt
  end.

Definition disconnect_from_sumo : Act unit :=
  try_except
    (stop_data_updates ;;
     b <- get_bridge ;;
     if connected b then
       command CmdClose traci_close ;;
       modify_bridge (set_connected false) ;;
       modify_bridge (set_simulation_running false) ;;
       logger_info "Disconnected from SUMO"
     else ret tt)
    (fun e => logger_error ("Error during disconnection: " ++ exn_msg e)).

(** The loop of [get_vehicle_data]: the first getter that raises ends it and
    the vehicles appended so far are kept. *)
Fixpoint collect_vehicles (w : W) (ids : list string) (vehicles : list FVehicle)
  : list FVehicle * option exn :=
  match ids with
  | [] => (vehicles, None)
  | veh_id :: rest =>
      match (p <-? vehicle_getPosition w veh_id ;;
             s <-? vehicle_getSpeed w veh_id ;;
             r <-? vehicle_getRoute w veh_id ;;
             e <-? vehicle_getRoadID w veh_id ;;
             Ok (mkFVehicle veh_id p s r e))%result with
      | Ok v => collect_vehicles w rest (vehicles ++ [v])%list
      | Raise e => (vehicles, Some e)
      end
  end.

Definition get_vehicle_data : Act (list FVehicle) :=
  try_except
    (ids <- query vehicle_getIDList ;;
     w <- gets (@world W Bridge) ;;
     match collect_vehicles w ids [] with
     | (vehicles, None) => ret vehicles
     | (vehicles, Some e) =>
         logger_error ("Error getting vehicle data: " ++ exn_msg e) ;;
         ret vehicles
     end)
    (fun e =>
       logger_error ("Error getting vehicle data: " ++ exn_msg e) ;;
       ret []).

Fixpoint collect_lights (w : W) (ids : list string) (lights : list FLight)
  : list FLight * option exn :=
  match ids with
  | [] => (lights, None)
  | tl_id :: rest =>
      match (s <-? trafficlight_getRedYellowGreenState w tl_id ;;
             p <-? trafficlight_getPhase w tl_id ;;
             g <-? trafficlight_getProgram w tl_id ;;
             Ok (mkFLight tl_id s p g))%result with
      | Ok l => collect_lights w rest (lights ++ [l])%list
      | Raise e => (lights, Some e)
      end
  end.

Definition get_traffic_light_data : Act (list FLight) :=
  try_except
    (ids <- query trafficlight_getIDList ;;
     w <- gets (@world W Bridge) ;;
     match collect_lights w ids [] with
     | (lights, None) => ret lights
     | (lights, Some e) =>
         logger_error ("Error getting traffic light data: " ++ exn_msg e) ;;
         ret lights
     end)
    (fun e =>
       logger_error ("Error getting traffic light data: " ++ exn_msg e) ;;
       ret []).

(** [get_statistics]: the dict, or [{}] when a getter raises. *)
Definition get_statistics : Act (option FStatistics) :=
  try_except
    (loaded <- query simulation_getLoadedNumber ;;
     departed <- query simulation_getDepartedNumber ;;
     arrived <- query simulation_getArrivedNumber ;;
     ids <- query vehicle_getIDList ;;
     waiting <- query simulation_getWaitingVehicleNumber ;;
     teleports <- query simulation_getStartingTeleportNumber ;;
     ret (Some (mkFStatistics loaded departed arrived (List.length ids)
                  waiting teleports)))
    (fun e =>
       logger_error ("Error getting statistics: " ++ exn_msg e) ;;
       ret None).

(** One turn of the [while] loop of [update_data_loop] for thread [i]; here
    any exception ends the loop. *)
Definition update_data_loop_step (i : nat) : Act unit :=
  th <- get_thread i ;;
  if alive th then
    b <- get_bridge ;;
    if negb (stop_updates b) && connected b then
      try_except
        ((if simulation_running b then
            command CmdStep traci_simulationStep ;;
            t <- query simulation_getTime ;;
            vehicles <- get_vehicle_data ;;
            lights <- get_traffic_light_data ;;
            statistics <- get_statistics ;;
            modify_bridge
              (set_current_data (mkCurrentData t vehicles lights statistics))
          else ret tt) ;;
         sleep 0.1)
        (fun e =>
           logger_error ("Error in update loop: " ++ exn_msg e) ;;
           modify_thread i (fun t => mkLoopThread false (update_count t)
                                                   (last_time t)))
    else modify_thread i (fun t => mkLoopThread false (update_count t)
                                                 (last_time t))
  else ret tt.

(** [for i in range(5)] of [connect_to_sumo_fixed]: step until a vehicle is
    loaded. *)
Fixpoint step_until_loaded (n : nat) : Act unit :=
  match n with
  | O => ret tt
  | S n' =>
      command CmdStep traci_simulationStep ;;
      loaded <- query simulation_getLoadedNumber ;;
      if (0 <? loaded)%Z
      then logger_info "Vehicles appeared"
      else step_until_loaded n'
  end.

Definition fixed_binary (use_gui : bool) : string :=
  let on_path := if use_gui then "sumo-gui" else "sumo" in
  match environ_get "SUMO_HOME" with
  | Some sumo_home =>
      let nt := String.eqb os_name "nt" in
      let sumo_binary :=
        if use_gui
        then bin_path sumo_home (if nt then "sumo-gui.exe" else "sumo-gui")
        else bin_path sumo_home (if nt then "sumo.exe" else "sumo") in
      if negb (path_exists sumo_binary) then on_path else sumo_binary
  | None => on_path
  end.

Definition fixed_cmd (sumo_binary config_file : string) (use_gui : bool)
  : list string :=
  ([sumo_binary; "-c"; config_file; "--step-length"; "1.0"; "--no-warnings";
    "--no-step-log"; "--duration-log.statistics"; "--quit-on-end"]
   ++ (if negb use_gui
       then ["--xml-validation"; "never"; "--ignore-route-errors";
             "--eager-insert"; "--max-depart-delay"; "3600";
             "--time-to-teleport"; "300"]
       else []))%list.

(** The inner [try] block of [connect_to_sumo_fixed]. *)
Definition connect_in_config_dir (config_dir : string)
  (sumo_cmd : list string) : Act bool :=
  os_chdir config_dir ;;
  command (CmdStart sumo_cmd "default") (traci_start sumo_cmd "default") ;;
  sleep 0.5 ;;
  sim_time <- query simulation_getTime ;;
  loaded <- query simulation_getLoadedNumber ;;
  departed <- query simulation_getDepartedNumber ;;
  logger_info "Connected to SUMO successfully!" ;;
  (if (loaded =? 0)%Z then
     logger_warning "No vehicles loaded initially. Checking route files..." ;;
     step_until_loaded 5
   else ret tt) ;;
  modify_bridge (set_connected true) ;;
  modify_bridge (set_simulation_running true) ;;
  start_data_updates ;;
  ret true.

Definition connect_to_sumo_fixed (config_path : string) (use_gui : bool)
  : Act bool :=
  try_except
    (b <- get_bridge ;;
     (if connected b then disconnect_from_sumo else ret tt) ;;
     config_path <- os_path_abspath config_path ;;
     let config_dir := path_dirname config_path in
     let config_file := path_basename config_path in
     (if negb (path_exists config_path)
      then raise (mk_exn "FileNotFoundError"
                    ("Config file not found: " ++ config_path))
      else ret tt) ;;
     logger_info ("Using SUMO config: " ++ config_path) ;;
     let sumo_cmd := fixed_cmd (fixed_binary use_gui) config_file use_gui in
     logger_info ("Starting SUMO with command: " ++ Py.join " " sumo_cmd) ;;
     logger_info ("Working directory: " ++ config_dir) ;;
     original_cwd <- os_getcwd ;;
     try_finally
       (connect_in_config_dir config_dir sumo_cmd)
       (os_chdir original_cwd))
    (fun e =>
       logger_error ("Failed to connect to SUMO: " ++ exn_msg e) ;;
       modify_bridge (set_connected false) ;;
       ret false).

Definition pause_simulation : Act unit :=
  modify_bridge (set_simulation_running false) ;;
  logger_info "Simulation paused".

Definition resume_simulation : Act unit :=
  b <- get_bridge ;;
  if connected b then
    modify_bridge (set_simulation_running true) ;;
    logger_info "Simulation resumed"
  else ret tt.

(** [for _ in range(steps): traci.simulationStep()], over the indices
    still to run. *)
Fixpoint step_times (indices : list nat) : Act unit :=
  match indices with
  | [] => ret tt
  | _ :: rest => command CmdStep traci_simulationStep ;; step_times rest
  end.

Definition step_simulation (steps : json) : Act bool :=
  b <- get_bridge ;;
  if negb (connected b) then ret false
  else
    try_except
      (match py_range steps with
       | Ok indices => step_times indices
       | Raise e => raise e
       end ;;
       ret true)
      (fun e =>
         logger_error ("Error stepping simulation: " ++ exn_msg e) ;;
         ret false).

Definition get_current_data : Act CurrentData :=
  b <- get_bridge ;; ret (current_data b).

End Methods.

(** *** The routes of [sumo_bridge_fixed.py] *)

(** The JSON bodies of [POST /connect] and [POST /step]. *)
Record ConnectRequest := mkConnectRequest {
  config : option string;
  gui : option bool
}.

Record StepRequest := mkStepRequest { steps : option json }.

Inductive Request :=
| POST_connect (data : option ConnectRequest)
| POST_disconnect
| GET_status
| POST_step (data : option StepRequest)
| POST_pause
| POST_resume
| GET_data.

(** What the routes hand to [jsonify]. *)
Inductive Answer :=
| ConnectAnswer (success is_connected : bool)
| SuccessAnswer (success : bool)
| StatusAnswer (is_connected running : bool) (data : CurrentData)
| DataAnswer (data : CurrentData).

Section Routes.
Context {W : Type} `{External W}.
Let Act := M W Bridge.
Local Open Scope act_scope.

(** [data.get(...)] on a request without a JSON object. *)
Definition no_body : exn :=
  mk_exn "AttributeError" "'NoneType' object has no attribute 'get'".

(** The routes have no [try]: an exception leaves the view function. *)
Definition handle (q : Request) : Act Answer :=
  match q with
  | POST_connect data =>
      match data with
      | None => raise no_body
      | Some d =>
          let config_path :=
            default (config d) "AddisAbabaSumo/AddisAbaba.sumocfg" in
          let use_gui := default (gui d) false in
          success <- connect_to_sumo_fixed config_path use_gui ;;
          b <- get_bridge ;;
          ret (ConnectAnswer success (connected b))
      end
  | POST_disconnect =>
      disconnect_from_sumo ;; ret (SuccessAnswer true)
  | GET_status =>
      b <- get_bridge ;;
      data <- get_current_data ;;
      ret (StatusAnswer (connected b) (simulation_running b) data)
  | POST_step data =>
      match data with
      | None => raise no_body
      | Some d =>
          success <- step_simulation (default (steps d) (JInt 1)) ;;
          ret (SuccessAnswer success)
      end
  | POST_pause => pause_simulation ;; ret (SuccessAnswer true)
  | POST_resume => resume_simulation ;; ret (SuccessAnswer true)
  | GET_data => data <- get_current_data ;; ret (DataAnswer data)
  end.

End Routes.
End Fixed.

(** ** A scripted engine

    A concrete world for the interface [External]: the engine is a list of
    frames, one per simulation state; a getter answers from the first frame
    and [simulationStep] drops it.  A frame can name calls that raise. *)

Module Sim.

Record Car := mkCar {
  car_id : string;
  car_type : string;
  car_x : Q;
  car_y : Q
}.

Record Frame := mkFrame {
  f_time : Q;
  f_cars : list Car;
  f_tls : list string;
  f_edges : list string;
  f_faults : list (string * exn)
}.

Record World := mkWorld {
  clock : Q;
  frames : list Frame;
  signals : list (string * string)
}.

Definition closed : exn :=
  mk_exn "FatalTraCIError" "connection closed by SUMO".

Definition unknown (kind id : string) : exn :=
  mk_exn "TraCIException" (kind ++ " '" ++ id ++ "' is not known").

Fixpoint fault_of (name : string) (faults : list (string * exn))
  : option exn :=
  match faults with
  | [] => None
  | (n, e) :: rest => if String.eqb n name then Some e else fault_of name rest
  end.

(** A getter [name] answering [v f] from the current frame [f]. *)
Definition getter {A} (name : string) (v : Frame -> result A) (w : World)
  : result A :=
  match frames w with
  | [] => Raise closed
  | f :: _ =>
      match fault_of name (f_faults f) with
      | Some e => Raise e
      | None => v f
      end
  end.

Definition find_car (id : string) (f : Frame) : option Car :=
  find (fun c => String.eqb (car_id c) id) (f_cars f).

Definition car_getter {A} (name : string) (v : Car -> A) (w : World)
  (id : string) : result A :=
  getter name (fun f => match find_car id f with
                        | Some c => Ok (v c)
                        | None => Raise (unknown "Vehicle" id)
                        end) w.

Definition tls_getter {A} (name : string) (v : A) (w : World) (id : string)
  : result A :=
  getter name (fun f => if existsb (String.eqb id) (f_tls f) then Ok v
                        else Raise (unknown "Traffic light" id)) w.

Definition edge_getter {A} (name : string) (v : A) (w : World) (id : string)
  : result A :=
  getter name (fun f => if existsb (String.eqb id) (f_edges f) then Ok v
                        else Raise (unknown "Edge" id)) w.

Definition count {A} (l : list A) : Z := Z.of_nat (List.length l).

Definition step (w : World) : result unit * World :=
  match frames w with
  | [] => (Raise closed, w)
  | f :: rest =>
      match fault_of "simulationStep" (f_faults f) with
      | Some e => (Raise e, w)
      | None =>
          (match rest with [] => Raise closed | _ => Ok tt end,
           mkWorld (clock w) rest (signals w))
      end
  end.

Definition session_call (name : string) (w : World) : result unit * World :=
  match frames w with
  | [] => (Raise closed, w)
  | f :: _ =>
      match fault_of name (f_faults f) with
      | Some e => (Raise e, w)
      | None => (Ok tt, w)
      end
  end.

Definition set_state (id state : string) (w : World) : result unit * World :=
  match tls_getter "setRedYellowGreenState" tt w id with
  | Ok _ => (Ok tt, mkWorld (clock w) (frames w) ((id, state) :: signals w))
  | Raise e => (Raise e, w)
  end.

Definition existing_files : list string :=
  ["/srv/dashboard/AddisAbabaSumo/AddisAbaba.sumocfg";
   "/srv/dashboard/AddisAbabaSumo/dashboard_config.sumocfg";
   "/srv/dashboard/backend/python-bridge/sumo_bridge.py"].

Definition existing_dirs : list string :=
  ["/srv/dashboard"; "/srv/dashboard/AddisAbabaSumo";
   "/srv/dashboard/backend"; "/srv/dashboard/backend/python-bridge";
   "/home/operator"].

Fixpoint has_slash (s : string) : bool :=
  match s with
  | EmptyString => false
  | String c s' => Ascii.eqb c "/" || has_slash s'
  end.

(** [os.path.split] for the paths used here. *)
Fixpoint path_split (s : string) : string * string :=
  match s with
  | EmptyString => (EmptyString, EmptyString)
  | String c rest =>
      let '(d, b) := path_split rest in
      if has_slash rest then (String c d, b)
      else if Ascii.eqb c "/" then (EmptyString, rest)
      else (EmptyString, String c rest)
  end.

#[global] Instance engine : External World := {|
  time_time := clock;
  time_sleep := fun s w => mkWorld (clock w + s) (frames w) (signals w);
  simulation_getTime :=
    getter "simulation.getTime" (fun f => Ok (TFloat (f_time f)));
  simulation_getLoadedNumber :=
    getter "simulation.getLoadedNumber" (fun f => Ok (count (f_cars f)));
  simulation_getDepartedNumber :=
    getter "simulation.getDepartedNumber" (fun f => Ok (count (f_cars f)));
  simulation_getArrivedNumber :=
    getter "simulation.getArrivedNumber" (fun _ => Ok 0%Z);
  simulation_getMinExpectedNumber :=
    getter "simulation.getMinExpectedNumber"
           (fun f => Ok (count (f_cars f) + 1)%Z);
  simulation_getWaitingVehicleNumber :=
    getter "simulation.getWaitingVehicleNumber" (fun _ => Ok 0%Z);
  simulation_getStartingTeleportNumber :=
    getter "simulation.getStartingTeleportNumber" (fun _ => Ok 0%Z);
  vehicle_getIDList :=
    getter "vehicle.getIDList" (fun f => Ok (map car_id (f_cars f)));
  vehicle_getPosition :=
    car_getter "vehicle.getPosition" (fun c => (car_x c, car_y c));
  vehicle_getSpeed := car_getter "vehicle.getSpeed" (fun _ => TFloat 10);
  vehicle_getAngle := car_getter "vehicle.getAngle" (fun _ => TFloat 90);
  vehicle_getTypeID := car_getter "vehicle.getTypeID" car_type;
  vehicle_getRoadID := car_getter "vehicle.getRoadID" (fun _ => "E1");
  vehicle_getLaneID := car_getter "vehicle.getLaneID" (fun _ => "E1_0");
  vehicle_getRoute := car_getter "vehicle.getRoute" (fun _ => ["E1"; "E2"]);
  vehicle_getWaitingTime :=
    car_getter "vehicle.getWaitingTime" (fun _ => TFloat 0);
  vehicle_getDistance :=
    car_getter "vehicle.getDistance" (fun _ => TFloat 25);
  trafficlight_getIDList :=
    getter "trafficlight.getIDList" (fun f => Ok (f_tls f));
  trafficlight_getRedYellowGreenState :=
    tls_getter "trafficlight.getRedYellowGreenState" "rrGG";
  trafficlight_getPhase := tls_getter "trafficlight.getPhase" (TInt 0);
  trafficlight_getNextSwitch :=
    tls_getter "trafficlight.getNextSwitch" (TFloat 30);
  trafficlight_getProgram := tls_getter "trafficlight.getProgram" "0";
  trafficlight_getControlledLanes :=
    tls_getter "trafficlight.getControlledLanes" ["E1_0"; "E2_0"];
  trafficlight_setRedYellowGreenState := set_state;
  lane_getLastStepHaltingNumber :=
    fun w _ => getter "lane.getLastStepHaltingNumber" (fun _ => Ok 0%Z) w;
  lane_getWaitingTime :=
    fun w _ => getter "lane.getWaitingTime" (fun _ => Ok 0%Q) w;
  lane_getLastStepVehicleNumber :=
    fun w _ => getter "lane.getLastStepVehicleNumber"
                      (fun _ => Ok (TInt 1)) w;
  lane_getLastStepMeanSpeed :=
    fun w _ => getter "lane.getLastStepMeanSpeed" (fun _ => Ok (TFloat 10)) w;
  lane_getLength :=
    fun w _ => getter "lane.getLength" (fun _ => Ok (TFloat 100)) w;
  edge_getIDList := getter "edge.getIDList" (fun f => Ok (f_edges f));
  edge_getLastStepVehicleNumber :=
    edge_getter "edge.getLastStepVehicleNumber" (TInt 1);
  edge_getLastStepMeanSpeed :=
    edge_getter "edge.getLastStepMeanSpeed" (TFloat 10);
  edge_getLastStepVehicleIDs := edge_getter "edge.getLastStepVehicleIDs" [];
  edge_getLaneNumber := edge_getter "edge.getLaneNumber" (TInt 1);
  traci_start := fun _ _ => session_call "start";
  traci_close := session_call "close";
  traci_simulationStep := step;
  Popen := fun _ _ w => (Ok 4242%nat, w);
  Popen_poll := fun _ _ => None;
  Popen_communicate := fun _ w => (Ok "", w);
  Popen_terminate := fun _ w => (Ok tt, w);
  Popen_wait := fun _ _ w => (Ok tt, w);
  Popen_kill := fun _ w => (Ok tt, w);
  subprocess_run := fun _ _ => Ok (0%Z, "Eclipse SUMO sumo Version 1.19.0");
  script_file := "/srv/dashboard/backend/python-bridge/sumo_bridge.py";
  environ_get := fun _ => None;
  os_name := "posix";
  path_exists :=
    fun p => existsb (String.eqb p) (existing_files ++ existing_dirs)%list;
  path_isdir := fun p => existsb (String.eqb p) existing_dirs;
  path_isabs := fun p => Py.startswith p "/";
  path_abspath :=
    fun dir p => if Py.startswith p "/" then p else dir ++ "/" ++ p;
  path_dirname := fun p => fst (path_split p);
  path_basename := fun p => snd (path_split p);
  path_join := fun a b => a ++ "/" ++ b;
  py_hash := fun s => Z.of_nat (String.length s)
|}.

(** A quiet frame at simulation time [t]. *)
Definition frame_at (t : Q) : Frame := mkFrame t [] [] [] [].

(** The engine that reports the simulation times [start], then [times]
    after each step. *)
Definition timeline (start : Q) (times : list Q) : World :=
  mkWorld 1700000000 (map frame_at (start :: times)) [].

(** A runtime whose bridge is connected and whose update thread 0 is at the
    top of its loop. *)
Definition connected_bridge : Bridge :=
  set_update_thread (Some 0%nat)
    (set_simulation_running true
       (set_connected true (init "localhost" 8813 8814))).

Definition polling (w : World) : Runtime World Bridge :=
  mkRuntime w "/home/operator" connected_bridge
            [{| alive := true; update_count := 0; last_time := -1 |}] [] [].

End Sim.

(** ** Concrete situations *)

Module Scenario.
Import Sim.

(** A network of sixty ordinary edges listed after two internal ones. *)
Definition big_network : list string :=
  ([":J1_0"; ":J1_1"]
   ++ map (fun n => ("E" ++ Py.str_of_nat n)%string) (seq 0 60))%list.

Definition big_world : World :=
  mkWorld 1700000000 [mkFrame 0 [] [] big_network []] [].

(** Three vehicles on the road: a car, an ambulance named by its id and a
    police car named by its type. *)
Definition traffic : list Car :=
  [mkCar "veh0" "passenger" 100 200;
   mkCar "AMBULANCE_7" "passenger" 120 210;
   mkCar "veh2" "police_car" 90 40].

Definition busy_world : World :=
  mkWorld 1700000000 [mkFrame 5 traffic ["J1"] ["E1"; "E2"] []] [].

(** An engine with one quiet state after another. *)
Definition calm_world : World := timeline 0 [1; 2; 3; 4; 5; 6; 7; 8].

(** The [sumo_bridge_fixed.py] bridge, connected, with its update thread
    running. *)
Definition fixed_polling : Runtime World Fixed.Bridge :=
  mkRuntime calm_world "/home/operator"
    (Fixed.mkBridge true true None (Some 0%nat) false
       (Fixed.mkCurrentData (TInt 0) [] [] None))
    [{| alive := true; update_count := 0; last_time := -1 |}] [] [].

(** A bridge that was constructed and never connected. *)
Definition fresh : Runtime World Bridge :=
  boot calm_world "/home/operator" "localhost" 8813 8814.

Definition fixed_fresh : Runtime World Fixed.Bridge :=
  mkRuntime calm_world "/home/operator" Fixed.init [] [] [].

(** A connected bridge with a spawned SUMO process. *)
Definition with_process : Runtime World Bridge :=
  mkRuntime busy_world "/home/operator"
    (set_sumo_process (Some 4242%nat) connected_bridge)
    [{| alive := true; update_count := 0; last_time := -1 |}] [] [].

(** The same, when the engine refuses the first [traci.close()]. *)
Definition close_refused : exn := mk_exn "TraCIException" "close refused".

(** Two ticks of an engine whose second tick cannot read the arrived
    count: a car at simulation time 1, two cars at simulation time 2. *)
Definition flaky_stats : World :=
  mkWorld 1700000000
    [mkFrame 0 [] [] [] [];
     mkFrame 1 [mkCar "veh0" "passenger" 100 200] [] [] [];
     mkFrame 2 [mkCar "veh0" "passenger" 110 200;
                mkCar "veh1" "passenger" 100 200] [] []
       [("simulation.getArrivedNumber",
         mk_exn "TraCIException" "arrived count unavailable")];
     mkFrame 3 [] [] [] []]
    [].

(** The polling bridge on [busy_world] with stats left from an earlier
    tick in its cache. *)
Definition stale : Runtime World Bridge :=
  mkRuntime busy_world "/home/operator"
    (set_stats (Some (mkSimulationStats (TFloat 4) 9 9 0 9 1699999999000))
       connected_bridge)
    [{| alive := true; update_count := 7; last_time := 4 |}] [] [].

(** An engine whose next step loses the connection. *)
Definition lost_socket : exn :=
  mk_exn "FatalTraCIError" "Socket timeout while waiting for SUMO".

Definition breaking_world : World :=
  mkWorld 1700000000
    [mkFrame 7 [mkCar "veh0" "passenger" 100 200] [] []
       [("simulationStep", lost_socket)]]
    [].

(** An engine whose next step is refused for another reason. *)
Definition refused_step : exn :=
  mk_exn "TraCIException" "Vehicle 'veh9' is not known".

Definition refusing_world : World :=
  mkWorld 1700000000
    [mkFrame 7 [mkCar "veh0" "passenger" 100 200] [] []
       [("simulationStep", refused_step)]]
    [].

(** An engine whose control socket is gone: every step fails as a write to
    a closed socket does. *)
Definition broken_pipe : exn :=
  mk_exn "BrokenPipeError" "[Errno 32] Broken pipe".

Definition pipe_world : World :=
  mkWorld 1700000000
    [mkFrame 7 [mkCar "veh0" "passenger" 100 200] [] []
       [("simulationStep", broken_pipe)]]
    [].

End Scenario.

(** ** Notions used in the statements *)

(** [s] occurs in [t] as a contiguous piece. *)
Definition occurs_in (s t : string) : Prop :=
  exists pre suf, t = pre ++ s ++ suf.

Section Notions.
Context {W : Type} `{External W}.

(** The vehicles of [ids] whose per-vehicle [try] block ran to the end, in
    order: the [vehicle_data] built and the raw SUMO type it was built from. *)
Definition sampled (w : W) (ids : list string) : list (VehicleData * string) :=
  flat_map (fun id => match sample_vehicle w id with
                      | Ok p => [p]
                      | Raise _ => []
                      end) ids.

(** The classification applied to a sampled vehicle. *)
Definition is_emergency_sample (p : VehicleData * string) : bool :=
  is_emergency_vehicle (v_id (fst p)) (snd p).

(** The edge ids [update_roads_data] turns into a road entry: not internal
    and sampled without an exception. *)
Definition road_kept (w : W) (edge_id : string) : bool :=
  negb (Py.startswith edge_id ":") && is_ok (sample_road w edge_id).

(** Whether the four getters of [update_simulation_stats] all answer. *)
Definition stats_available (w : W) : bool :=
  is_ok (simulation_getTime w) && is_ok (simulation_getLoadedNumber w)
  && is_ok (simulation_getDepartedNumber w)
  && is_ok (simulation_getArrivedNumber w).

End Notions.

(** ** Reasoning about actions *)

Section ActionNotions.
Context {W B : Type}.

(** [m] maintains the invariant [P] of the runtime, however it ends. *)
Definition preserves {A} (P : Runtime W B -> Prop) (m : M W B A) : Prop :=
  forall r, P r -> P (snd (m r)).

(** [m] leaves the bridge object and the threads as they are. *)
Definition keeps_state {A} (m : M W B A) : Prop :=
  forall r, bridge (snd (m r)) = bridge r /\ threads (snd (m r)) = threads r.

(** [P] reads nothing but the bridge object and the threads. *)
Definition state_only (P : Runtime W B -> Prop) : Prop :=
  forall r r', bridge r' = bridge r -> threads r' = threads r -> P r -> P r'.

(** [m] leaves the working directory as it is. *)
Definition keeps_cwd {A} (m : M W B A) : Prop :=
  forall r, cwd (snd (m r)) = cwd r.

(** [m] always returns normally. *)
Definition never_raises {A} (m : M W B A) : Prop :=
  forall r, exists a, fst (m r) = Ok a.

(** At most one update thread is alive, and the bridge refers to it
    ([ut] reads the [update_thread] attribute). *)
Definition single_loop (ut : B -> option nat) (r : Runtime W B) : Prop :=
  forall i, alive (thread_of r i) = true -> ut (bridge r) = Some i.

End ActionNotions.

(** The attributes of the bridge that steer it, as opposed to the cache. *)
Definition control (b : Bridge)
  : bool * bool * option nat * option nat * bool :=
  (connected b, simulation_running b, sumo_process b, update_thread b,
   stop_updates b).

(** The cache: what the read endpoints serve. *)
Definition cache (b : Bridge)
  : list VehicleData * list IntersectionData * list RoadData
    * list EmergencyData * option SimulationStats :=
  (vehicles_data b, intersections_data b, roads_data b,
   emergency_vehicles_data b, simulation_stats b).

(** [P] reads nothing but the steering attributes and the threads. *)
Definition control_only {W} (P : Runtime W Bridge -> Prop) : Prop :=
  forall r r',
    control (bridge r') = control (bridge r) -> threads r' = threads r ->
    P r -> P r'.

(** The process is working in directory [c]. *)
Definition in_dir {W B} (c : string) (r : Runtime W B) : Prop := cwd r = c.

(** Two runtimes that differ at most in what was logged. *)
Definition same_but_log {W B} (r r' : Runtime W B) : Prop :=
  world r' = world r /\ cwd r' = cwd r /\ bridge r' = bridge r
  /\ threads r' = threads r /\ issued r' = issued r.

Definition is_error (ev : LogEvent) : bool :=
  match log_level ev with ERROR => true | _ => false end.

(** The number of [logger.error] records. *)
Definition errors (l : list LogEvent) : nat := List.length (filter is_error l).

(** [targetId] names an intersection of the cached snapshot. *)
Definition target_cached (target : string) (b : Bridge) : bool :=
  existsb (fun i => String.eqb (i_id i) target) (intersections_data b).

(** What a client can observe of the bridge: the process handle, the two
    connection flags and the cache. *)
Definition observable (b : Bridge) :=
  (sumo_process b, connected b, simulation_running b, cache b).

(** The action [m] logs no error from [r]: none of the [except] clauses it
    goes through is entered. *)
Definition logs_no_error {W B A} (m : M W B A) (r : Runtime W B) : Prop :=
  errors (log (snd (m r))) = errors (log r).

(** The bound of the specification between a vehicle snapshot and the stats
    of the same response: the vehicle's [timestamp] and the stats'
    [currentTime] are at most [interval] apart. *)
Definition within_one_tick (interval : Q) (v : VehicleData)
  (stats : SimulationStats) : Prop :=
  (Qabs (v_timestamp v - safe_float (st_currentTime stats) 0) <= interval)%Q.

(** The error class of the specification, read as Python's: an exception is
    a [ConnectionError] when its class is [ConnectionError] or one of its
    built-in subclasses. *)
Definition spec_connection_error (e : exn) : bool :=
  existsb (String.eqb (exn_class e))
    ["ConnectionError"; "BrokenPipeError"; "ConnectionAbortedError";
     "ConnectionRefusedError"; "ConnectionResetError"].

(** Every list of ids and every stats getter of a cache refresh answers. *)
Definition tick_sampled {W} `{External W} (w : W) : bool :=
  is_ok (vehicle_getIDList w) && is_ok (trafficlight_getIDList w)
  && is_ok (edge_getIDList w) && stats_available w.

Section LoopNotions.
Context {W : Type} `{External W}.

(** Thread [i] is alive and the condition of its [while] loop holds. *)
Definition loop_running (r : Runtime W Bridge) (i : nat) : Prop :=
  alive (thread_of r i) = true
  /\ stop_updates (bridge r) = false
  /\ connected (bridge r) = true.

(** The turn of thread [i] from [r] fails with [e]: an engine call of the
    loop body raises [e], which the [except] clause of the loop catches, or
    the [try] block of [update_simulation_data] raises [e], which its own
    [except] clause catches. *)
Definition tick_fails (r : Runtime W Bridge) (i : nat) (e : exn) : Prop :=
  fst (step_and_check i r) = Raise e
  \/ (fst (step_and_check i r) = Ok tt
      /\ fst (sample_all (snd (step_and_check i r))) = Raise e).

(** The bridge is marked disconnected and no update thread is alive. *)
Definition halted (r : Runtime W Bridge) : Prop :=
  connected (bridge r) = false /\ forall i, alive (thread_of r i) = false.

(** The requests that connect or start: the three routes that call
    [connect_to_sumo]. *)
Definition connects (s : Step) : bool :=
  match s with
  | Api POST_connect | Api (POST_start_sumo _) | Api (POST_start_sumo_full _)
    => true
  | _ => false
  end.

(** One turn of thread [i]. *)
Definition turn (i : nat) (r : Runtime W Bridge) : Runtime W Bridge :=
  snd (update_data_loop_step i r).

End LoopNotions.

(** ** Stalls *)

Definition is_stall_warning (ev : LogEvent) : bool :=
  match log_level ev with
  | WARNING => String.eqb (log_msg ev) stall_warning
  | _ => false
  end.

(** The number of stall warnings in a log. *)
Definition stall_warnings (l : list LogEvent) : nat :=
  List.length (filter is_stall_warning l).

(** The stall counter as the specification words it, over the simulation
    times read after each step: a tick on which the time does not advance
    beyond the last observed time increments the counter, a tick on which
    it advances resets the counter to 0. *)
Fixpoint stall_counter_spec (last : Q) (count : nat) (new_times : list Q)
  : nat :=
  match new_times with
  | [] => count
  | t :: rest =>
      if Py.Qgt_bool t last then stall_counter_spec t 0 rest
      else stall_counter_spec last (S count) rest
  end.

(** [m] leaves the log as it is. *)
Definition keeps_log {W B A} (m : M W B A) : Prop :=
  forall r, log (snd (m r)) = log r.

(** The log holds [n] stall warnings. *)
Definition stalls_logged {W B} (n : nat) (r : Runtime W B) : Prop :=
  stall_warnings (log r) = n.

(** ** A machine without the configuration *)

(** The scripted engine on a machine where the project holds no SUMO
    configuration. *)
Module Bare.
Import Sim.

Definition engine : External World := {|
  time_time := @time_time _ Sim.engine;
  time_sleep := @time_sleep _ Sim.engine;
  simulation_getTime := @simulation_getTime _ Sim.engine;
  simulation_getLoadedNumber := @simulation_getLoadedNumber _ Sim.engine;
  simulation_getDepartedNumber := @simulation_getDepartedNumber _ Sim.engine;
  simulation_getArrivedNumber := @simulation_getArrivedNumber _ Sim.engine;
  simulation_getMinExpectedNumber :=
    @simulation_getMinExpectedNumber _ Sim.engine;
  simulation_getWaitingVehicleNumber :=
    @simulation_getWaitingVehicleNumber _ Sim.engine;
  simulation_getStartingTeleportNumber :=
    @simulation_getStartingTeleportNumber _ Sim.engine;
  vehicle_getIDList := @vehicle_getIDList _ Sim.engine;
  vehicle_getPosition := @vehicle_getPosition _ Sim.engine;
  vehicle_getSpeed := @vehicle_getSpeed _ Sim.engine;
  vehicle_getAngle := @vehicle_getAngle _ Sim.engine;
  vehicle_getTypeID := @vehicle_getTypeID _ Sim.engine;
  vehicle_getRoadID := @vehicle_getRoadID _ Sim.engine;
  vehicle_getLaneID := @vehicle_getLaneID _ Sim.engine;
  vehicle_getRoute := @vehicle_getRoute _ Sim.engine;
  vehicle_getWaitingTime := @vehicle_getWaitingTime _ Sim.engine;
  vehicle_getDistance := @vehicle_getDistance _ Sim.engine;
  trafficlight_getIDList := @trafficlight_getIDList _ Sim.engine;
  trafficlight_getRedYellowGreenState :=
    @trafficlight_getRedYellowGreenState _ Sim.engine;
  trafficlight_getPhase := @trafficlight_getPhase _ Sim.engine;
  trafficlight_getNextSwitch := @trafficlight_getNextSwitch _ Sim.engine;
  trafficlight_getProgram := @trafficlight_getProgram _ Sim.engine;
  trafficlight_getControlledLanes :=
    @trafficlight_getControlledLanes _ Sim.engine;
  trafficlight_setRedYellowGreenState :=
    @trafficlight_setRedYellowGreenState _ Sim.engine;
  lane_getLastStepHaltingNumber := @lane_getLastStepHaltingNumber _ Sim.engine;
  lane_getWaitingTime := @lane_getWaitingTime _ Sim.engine;
  lane_getLastStepVehicleNumber := @lane_getLastStepVehicleNumber _ Sim.engine;
  lane_getLastStepMeanSpeed := @lane_getLastStepMeanSpeed _ Sim.engine;
  lane_getLength := @lane_getLength _ Sim.engine;
  edge_getIDList := @edge_getIDList _ Sim.engine;
  edge_getLastStepVehicleNumber := @edge_getLastStepVehicleNumber _ Sim.engine;
  edge_getLastStepMeanSpeed := @edge_getLastStepMeanSpeed _ Sim.engine;
  edge_getLastStepVehicleIDs := @edge_getLastStepVehicleIDs _ Sim.engine;
  edge_getLaneNumber := @edge_getLaneNumber _ Sim.engine;
  traci_start := @traci_start _ Sim.engine;
  traci_close := @traci_close _ Sim.engine;
  traci_simulationStep := @traci_simulationStep _ Sim.engine;
  Popen := @Popen _ Sim.engine;
  Popen_poll := @Popen_poll _ Sim.engine;
  Popen_communicate := @Popen_communicate _ Sim.engine;
  Popen_terminate := @Popen_terminate _ Sim.engine;
  Popen_wait := @Popen_wait _ Sim.engine;
  Popen_kill := @Popen_kill _ Sim.engine;
  subprocess_run := @subprocess_run _ Sim.engine;
  script_file := @script_file _ Sim.engine;
  environ_get := @environ_get _ Sim.engine;
  os_name := @os_name _ Sim.engine;
  path_exists := fun p => existsb (String.eqb p) existing_dirs;
  path_isdir := @path_isdir _ Sim.engine;
  path_isabs := @path_isabs _ Sim.engine;
  path_abspath := @path_abspath _ Sim.engine;
  path_dirname := @path_dirname _ Sim.engine;
  path_basename := @path_basename _ Sim.engine;
  path_join := @path_join _ Sim.engine;
  py_hash := @py_hash _ Sim.engine
|}.

End Bare.

(** ** An engine that refuses to close once *)

(** The scripted engine with a [traci.close()] that can fail once and then
    succeed. *)
Module Flaky.
Import Sim.

(** [traci.close()] on a session that refuses it once: the frame that names
    the fault is used up by the refusal. *)
Definition close (w : World) : result unit * World :=
  match frames w with
  | [] => (Raise closed, w)
  | f :: rest =>
      match fault_of "close" (f_faults f) with
      | Some e => (Raise e, mkWorld (clock w) rest (signals w))
      | None => (Ok tt, w)
      end
  end.

Definition engine : External World := {|
  time_time := @time_time _ Sim.engine;
  time_sleep := @time_sleep _ Sim.engine;
  simulation_getTime := @simulation_getTime _ Sim.engine;
  simulation_getLoadedNumber := @simulation_getLoadedNumber _ Sim.engine;
  simulation_getDepartedNumber := @simulation_getDepartedNumber _ Sim.engine;
  simulation_getArrivedNumber := @simulation_getArrivedNumber _ Sim.engine;
  simulation_getMinExpectedNumber :=
    @simulation_getMinExpectedNumber _ Sim.engine;
  simulation_getWaitingVehicleNumber :=
    @simulation_getWaitingVehicleNumber _ Sim.engine;
  simulation_getStartingTeleportNumber :=
    @simulation_getStartingTeleportNumber _ Sim.engine;
  vehicle_getIDList := @vehicle_getIDList _ Sim.engine;
  vehicle_getPosition := @vehicle_getPosition _ Sim.engine;
  vehicle_getSpeed := @vehicle_getSpeed _ Sim.engine;
  vehicle_getAngle := @vehicle_getAngle _ Sim.engine;
  vehicle_getTypeID := @vehicle_getTypeID _ Sim.engine;
  vehicle_getRoadID := @vehicle_getRoadID _ Sim.engine;
  vehicle_getLaneID := @vehicle_getLaneID _ Sim.engine;
  vehicle_getRoute := @vehicle_getRoute _ Sim.engine;
  vehicle_getWaitingTime := @vehicle_getWaitingTime _ Sim.engine;
  vehicle_getDistance := @vehicle_getDistance _ Sim.engine;
  trafficlight_getIDList := @trafficlight_getIDList _ Sim.engine;
  trafficlight_getRedYellowGreenState :=
    @trafficlight_getRedYellowGreenState _ Sim.engine;
  trafficlight_getPhase := @trafficlight_getPhase _ Sim.engine;
  trafficlight_getNextSwitch := @trafficlight_getNextSwitch _ Sim.engine;
  trafficlight_getProgram := @trafficlight_getProgram _ Sim.engine;
  trafficlight_getControlledLanes :=
    @trafficlight_getControlledLanes _ Sim.engine;
  trafficlight_setRedYellowGreenState :=
    @trafficlight_setRedYellowGreenState _ Sim.engine;
  lane_getLastStepHaltingNumber := @lane_getLastStepHaltingNumber _ Sim.engine;
  lane_getWaitingTime := @lane_getWaitingTime _ Sim.engine;
  lane_getLastStepVehicleNumber := @lane_getLastStepVehicleNumber _ Sim.engine;
  lane_getLastStepMeanSpeed := @lane_getLastStepMeanSpeed _ Sim.engine;
  lane_getLength := @lane_getLength _ Sim.engine;
  edge_getIDList := @edge_getIDList _ Sim.engine;
  edge_getLastStepVehicleNumber := @edge_getLastStepVehicleNumber _ Sim.engine;
  edge_getLastStepMeanSpeed := @edge_getLastStepMeanSpeed _ Sim.engine;
  edge_getLastStepVehicleIDs := @edge_getLastStepVehicleIDs _ Sim.engine;
  edge_getLaneNumber := @edge_getLaneNumber _ Sim.engine;
  traci_start := @traci_start _ Sim.engine;
  traci_close := close;
  traci_simulationStep := @traci_simulationStep _ Sim.engine;
  Popen := @Popen _ Sim.engine;
  Popen_poll := @Popen_poll _ Sim.engine;
  Popen_communicate := @Popen_communicate _ Sim.engine;
  Popen_terminate := @Popen_terminate _ Sim.engine;
  Popen_wait := @Popen_wait _ Sim.engine;
  Popen_kill := @Popen_kill _ Sim.engine;
  subprocess_run := @subprocess_run _ Sim.engine;
  script_file := @script_file _ Sim.engine;
  environ_get := @environ_get _ Sim.engine;
  os_name := @os_name _ Sim.engine;
  path_exists := @path_exists _ Sim.engine;
  path_isdir := @path_isdir _ Sim.engine;
  path_isabs := @path_isabs _ Sim.engine;
  path_abspath := @path_abspath _ Sim.engine;
  path_dirname := @path_dirname _ Sim.engine;
  path_basename := @path_basename _ Sim.engine;
  path_join := @path_join _ Sim.engine;
  py_hash := @py_hash _ Sim.engine
|}.

(** A connected bridge with a spawned SUMO process, on an engine that
    refuses the first [traci.close()] and accepts the second. *)
Definition refusing_close : Runtime World Bridge :=
  mkRuntime
    (mkWorld 1700000000
       [mkFrame 5 Scenario.traffic ["J1"] ["E1"; "E2"]
          [("close", Scenario.close_refused)];
        mkFrame 5 Scenario.traffic ["J1"] ["E1"; "E2"] []]
       [])
    "/home/operator"
    (set_sumo_process (Some 4242%nat) connected_bridge)
    [{| alive := true; update_count := 0; last_time := -1 |}] [] [].

End Flaky.

(** ** Outcomes of actions *)

(** [m], run from a runtime where [P] holds, ends in one where [Q a] holds if
    it returns [a] and where [E e] holds if it raises [e]. *)
Definition hoare {W B A} (P : Runtime W B -> Prop) (m : M W B A)
  (Q : A -> Runtime W B -> Prop) (E : exn -> Runtime W B -> Prop) : Prop :=
  forall r, P r ->
    match m r with
    | (Ok a, r') => Q a r'
    | (Raise e, r') => E e r'
    end.

(** Nothing is known, or asked, of a runtime or of an outcome. *)
Definition any {W B} : Runtime W B -> Prop := fun _ => True.
Definition whatever {W B X} : X -> Runtime W B -> Prop := fun _ _ => True.

(** The outcome does not occur. *)
Definition never {W B X} : X -> Runtime W B -> Prop := fun _ _ => False.

(** What [connect_to_sumo] leaves behind when it returns [ok]. *)
Definition connect_outcome {W} (ok : bool) (r : Runtime W Bridge) : Prop :=
  connected (bridge r) = ok
  /\ (ok = true ->
      simulation_running (bridge r) = true
      /\ exists t, update_thread (bridge r) = Some t
                   /\ alive (thread_of r t) = true).

(** What [connect_to_sumo_fixed] leaves behind when it returns [ok]. *)
Definition fixed_connect_outcome {W} (ok : bool)
  (r : Runtime W Fixed.Bridge) : Prop :=
  Fixed.connected (bridge r) = ok
  /\ (ok = true ->
      Fixed.simulation_running (bridge r) = true
      /\ exists t, Fixed.update_thread (bridge r) = Some t
                   /\ alive (thread_of r t) = true).

(** What [start_sumo_process] leaves behind when it returns [ok]. *)
Definition spawn_outcome {W} `{External W} (ok : bool) (r : Runtime W Bridge)
  : Prop :=
  ok = true ->
  exists pid, sumo_process (bridge r) = Some pid
              /\ Popen_poll pid (world r) = None.

(** The answers a route can give: HTTP 200, 400 or 500, and success only
    with 200. *)
Definition well_formed (resp : Response) : Prop :=
  In (http_status resp) [200; 400; 500]%nat
  /\ (success resp = true -> http_status resp = 200%nat).

(** The routes that serve the flags and the cache. *)
Definition serves_cache (q : Request) : bool :=
  match q with
  | GET_health | GET_vehicles | GET_intersections | GET_roads
  | GET_emergency_vehicles | GET_simulation_stats | GET_all_data => true
  | _ => false
  end.

(** The requests of [sumo_bridge_fixed.py] that carry the JSON object their
    route reads. *)
Definition fixed_has_body (q : Fixed.Request) : bool :=
  match q with
  | Fixed.POST_connect None | Fixed.POST_step None => false
  | _ => true
  end.

(** Its routes that call [connect_to_sumo_fixed], [disconnect_from_sumo] or
    [step_simulation]. *)
Definition fixed_reaches_engine (q : Fixed.Request) : bool :=
  match q with
  | Fixed.POST_connect (Some _) | Fixed.POST_disconnect
  | Fixed.POST_step (Some _) => true
  | _ => false
  end.

(** The longest prefix of [l] whose elements all pass [f]. *)
Fixpoint take_while {A} (f : A -> bool) (l : list A) : list A :=
  match l with
  | [] => []
  | x :: rest => if f x then x :: take_while f rest else []
  end.

(** Only warnings. *)
Definition warnings_only (evs : list LogEvent) : Prop :=
  Forall (fun ev => log_level ev = WARNING) evs.

(** The id [update_roads_data] gives lane [lane_index] of an edge. *)
Definition lane_id_of (edge_id : string) (lane_index : nat) : string :=
  (edge_id ++ "_" ++ Py.str_of_nat lane_index)%string.

(** The figures published for a lane stay within what its count allows. *)
Definition lane_in_bounds (lane : LaneData) : Prop :=
  (0 <= l_vehicleCount lane)%Z ->
  (0 <= l_density lane /\ 0 <= l_flow lane
   /\ l_flow lane <= inject_Z (l_vehicleCount lane) * 3600)%Q.

Section EntryNotions.
Context {W : Type} `{External W}.

(** A controlled lane whose two getters both answer. *)
Definition lane_queue_read (w : W) (lane_id : string) : bool :=
  is_ok (lane_getLastStepHaltingNumber w lane_id)
  && is_ok (lane_getWaitingTime w lane_id).

(** What the two dicts of an intersection hold after the lanes [seen]. *)
Definition queues_of (w : W) (seen : list string)
  (acc : list (string * Z) * list (string * Q)) : Prop :=
  map fst (fst acc) = map fst (snd acc)
  /\ NoDup (map fst (fst acc))
  /\ (List.length (fst acc) <= List.length seen)%nat
  /\ (forall lane, In lane (map fst (fst acc))
                   <-> In lane seen /\ lane_queue_read w lane = true)
  /\ (forall lane n, In (lane, n) (fst acc) ->
                     lane_getLastStepHaltingNumber w lane = Ok n)
  /\ (forall lane t, In (lane, t) (snd acc) ->
                     lane_getWaitingTime w lane = Ok t).

(** A lane whose three getters all answer. *)
Definition lane_sampled (w : W) (lane_id : string) : bool :=
  is_ok (lane_getLastStepVehicleNumber w lane_id)
  && is_ok (lane_getLastStepMeanSpeed w lane_id)
  && is_ok (lane_getLength w lane_id).

(** A vehicle whose four getters of [get_vehicle_data] all answer. *)
Definition fixed_vehicle_read (w : W) (veh_id : string) : bool :=
  is_ok (vehicle_getPosition w veh_id) && is_ok (vehicle_getSpeed w veh_id)
  && is_ok (vehicle_getRoute w veh_id) && is_ok (vehicle_getRoadID w veh_id).

(** A traffic light whose three getters of [get_traffic_light_data] all
    answer. *)
Definition fixed_light_read (w : W) (tl_id : string) : bool :=
  is_ok (trafficlight_getRedYellowGreenState w tl_id)
  && is_ok (trafficlight_getPhase w tl_id)
  && is_ok (trafficlight_getProgram w tl_id).

(** An action that returns [a] from [r] having done nothing but log. *)
Definition reads_as {B A} (m : M W B A) (r : Runtime W B) (a : A) : Prop :=
  fst (m r) = Ok a /\ same_but_log r (snd (m r)).

(** The one configuration file [connect_to_sumo] looks for, as it works the
    path out from the location of the script. *)
Definition regular_config {B} (r : Runtime W B) : string :=
  path_join
    (path_join (project_root_of (path_abspath (cwd r) script_file))
               "AddisAbabaSumo")
    "AddisAbaba.sumocfg".

(** The configuration file [start_sumo_process] checks for. *)
Definition full_config_path {B} (config_path : string) (r : Runtime W B)
  : string :=
  path_join
    (path_join (project_root_of (path_abspath (cwd r) script_file))
               "AddisAbabaSumo")
    (if path_isabs config_path then config_path
     else path_basename config_path).

End EntryNotions.

(** * Verification *)

(** ** Strings *)

Lemma prefix_app (s suf : string) : String.prefix s (s ++ suf) = true.
Proof.
  induction s as [|c s IH]; simpl.
  - destruct suf; reflexivity.
  - destruct (Ascii.ascii_dec c c) as [_|n]; [exact IH | now elim n].
Qed.

Lemma prefix_inv (s t : string) :
  String.prefix s t = true -> exists suf, t = s ++ suf.
Proof.
  revert t; induction s as [|c s IH]; intros t Hp.
  - now exists t.
  - destruct t as [|d t]; simpl in Hp; [discriminate|].
    destruct (Ascii.ascii_dec c d) as [->|]; [|discriminate].
    destruct (IH t Hp) as [suf ->]. now exists suf.
Qed.

Lemma str_in_nil (s : string) :
  Py.str_in s EmptyString = String.prefix s EmptyString.
Proof. simpl. apply orb_false_r. Qed.

Lemma str_in_cons (s : string) (d : ascii) (t : string) :
  Py.str_in s (String d t) = String.prefix s (String d t) || Py.str_in s t.
Proof. reflexivity. Qed.

(** [Py.str_in] decides the substring relation. *)
Lemma str_in_spec (s t : string) : Py.str_in s t = true <-> occurs_in s t.
Proof.
  split.
  - induction t as [|d t IH]; intros Hin.
    + rewrite str_in_nil in Hin. apply prefix_inv in Hin as [suf Hs].
      exists EmptyString, suf. exact Hs.
    + rewrite str_in_cons in Hin.
      apply orb_true_iff in Hin as [Hp | Hrest].
      * apply prefix_inv in Hp as [suf Hs]. exists EmptyString, suf. exact Hs.
      * destruct (IH Hrest) as (pre & suf & ->).
        now exists (String d pre), suf.
  - intros (pre & suf & ->). induction pre as [|d pre IH].
    + change (EmptyString ++ s ++ suf) with (s ++ suf).
      destruct (s ++ suf) eqn:E.
      * rewrite str_in_nil, <- E. apply prefix_app.
      * rewrite str_in_cons, <- E, prefix_app. reflexivity.
    + change (String d pre ++ s ++ suf) with (String d (pre ++ s ++ suf)).
      rewrite str_in_cons, IH. apply orb_true_r.
Qed.

(** ** The sampled lists *)

Lemma filter_split_length {A} (f : A -> bool) (l : list A) :
  (List.length (filter (fun x => negb (f x)) l) + List.length (filter f l)
   = List.length l)%nat.
Proof.
  induction l as [|x l IH]; [reflexivity|]. simpl.
  destruct (f x); simpl; lia.
Qed.

Section SamplingFacts.
Context {W : Type} `{External W}.

Lemma sample_road_id (w : W) (edge_id : string) (road : RoadData) :
  sample_road w edge_id = Ok road -> r_id road = edge_id.
Proof.
  unfold sample_road, rbind. intros Hs.
  destruct (edge_getLastStepVehicleNumber w edge_id); [|discriminate].
  destruct (edge_getLastStepMeanSpeed w edge_id); [|discriminate].
  destruct (edge_getLastStepVehicleIDs w edge_id); [|discriminate].
  destruct (edge_getLaneNumber w edge_id); [|discriminate].
  injection Hs as <-. reflexivity.
Qed.

(** The road loop appends, in order, one entry per kept edge id. *)
Lemma roads_fold_ids (w : W) (edge_ids : list string) :
  forall roads logs,
    map r_id (fst (fold_left (roads_step w) edge_ids (roads, logs)))
    = (map r_id roads ++ filter (road_kept w) edge_ids)%list.
Proof.
  induction edge_ids as [|edge_id rest IH]; intros roads logs; simpl.
  - now rewrite app_nil_r.
  - unfold road_kept at 1.
    destruct (Py.startswith edge_id ":") eqn:Hint; simpl.
    + apply IH.
    + destruct (sample_road w edge_id) as [road|e] eqn:Hs; simpl.
      * rewrite IH, map_app; simpl.
        rewrite (sample_road_id _ _ Hs), <- app_assoc. reflexivity.
      * apply IH.
Qed.

Lemma published_road_ids (w : W) (b : Bridge) (edge_ids : list string) :
  edge_getIDList w = Ok edge_ids ->
  map r_id (roads_data (fst (update_roads_data w b)))
  = filter (road_kept w) (firstn 50 edge_ids).
Proof.
  intros Hids. unfold update_roads_data. rewrite Hids.
  pose proof (roads_fold_ids w (firstn 50 edge_ids) [] []) as Hfold.
  destruct (fold_left (roads_step w) (firstn 50 edge_ids) ([], []))
    as [roads logs].
  exact Hfold.
Qed.

Lemma sample_vehicle_id (w : W) (vehicle_id : string) (p : VehicleData * string) :
  sample_vehicle w vehicle_id = Ok p -> v_id (fst p) = vehicle_id.
Proof.
  unfold sample_vehicle, rbind. intros Hs.
  destruct (vehicle_getPosition w vehicle_id); [|discriminate].
  destruct (vehicle_getSpeed w vehicle_id); [|discriminate].
  destruct (vehicle_getAngle w vehicle_id); [|discriminate].
  destruct (vehicle_getTypeID w vehicle_id); [|discriminate].
  destruct (vehicle_getRoadID w vehicle_id); [|discriminate].
  destruct (vehicle_getLaneID w vehicle_id); [|discriminate].
  destruct (vehicle_getRoute w vehicle_id); [|discriminate].
  destruct (vehicle_getWaitingTime w vehicle_id); [|discriminate].
  destruct (vehicle_getDistance w vehicle_id); [|discriminate].
  injection Hs as <-. reflexivity.
Qed.

(** A sampled vehicle is what its own id samples to. *)
Lemma sampled_inv (w : W) (ids : list string) (p : VehicleData * string) :
  In p (sampled w ids) ->
  In (v_id (fst p)) ids /\ sample_vehicle w (v_id (fst p)) = Ok p.
Proof.
  unfold sampled. rewrite in_flat_map. intros (id & Hid & Hp).
  destruct (sample_vehicle w id) as [q|e] eqn:Hs; simpl in Hp;
    [destruct Hp as [->|[]] | destruct Hp].
  rewrite (sample_vehicle_id _ _ Hs). auto.
Qed.

(** The vehicle loop splits the sampled vehicles by the classification. *)
Lemma vehicles_fold (w : W) (ids : list string) :
  forall vehicles emergency_vehicles logs,
    let res := fold_left (vehicles_step w) ids
                 (vehicles, emergency_vehicles, logs) in
    fst (fst res)
    = (vehicles
       ++ map fst (filter (fun p => negb (is_emergency_sample p))
                          (sampled w ids)))%list
    /\ snd (fst res)
       = (emergency_vehicles
          ++ map (fun p => emergency_of (fst p) (v_id (fst p)) (snd p))
                 (filter is_emergency_sample (sampled w ids)))%list.
Proof.
  induction ids as [|id rest IH]; intros vehicles emergency_vehicles logs.
  - simpl. now rewrite !app_nil_r.
  - cbn [fold_left sampled flat_map]. fold (sampled w rest).
    destruct (sample_vehicle w id) as [[vehicle_data vehicle_type]|e] eqn:Hs.
    + pose proof (sample_vehicle_id _ _ Hs) as Hid. simpl in Hid.
      assert (Hcls : is_emergency_sample (vehicle_data, vehicle_type)
                     = is_emergency_vehicle id vehicle_type)
        by (unfold is_emergency_sample; simpl; now rewrite Hid).
      cbn [app filter]. rewrite Hcls.
      destruct (is_emergency_vehicle id vehicle_type) eqn:Hem;
        cbn [negb map fst snd].
      * assert (Hstep : vehicles_step w (vehicles, emergency_vehicles, logs) id
                        = (vehicles,
                           (emergency_vehicles
                              ++ [emergency_of vehicle_data id vehicle_type])%list,
                           logs))
          by (unfold vehicles_step; rewrite Hs, Hem; reflexivity).
        rewrite Hstep.
        destruct (IH vehicles
                    (emergency_vehicles
                       ++ [emergency_of vehicle_data id vehicle_type])%list
                    logs) as [Hv He].
        split; [exact Hv|]. rewrite He, <- app_assoc, Hid. reflexivity.
      * assert (Hstep : vehicles_step w (vehicles, emergency_vehicles, logs) id
                        = ((vehicles ++ [vehicle_data])%list,
                           emergency_vehicles, logs))
          by (unfold vehicles_step; rewrite Hs, Hem; reflexivity).
        rewrite Hstep.
        destruct (IH (vehicles ++ [vehicle_data])%list emergency_vehicles logs)
          as [Hv He].
        split; [|exact He]. rewrite Hv, <- app_assoc. reflexivity.
    + assert (Hstep : vehicles_step w (vehicles, emergency_vehicles, logs) id
                      = (vehicles, emergency_vehicles,
                         (logs ++ [Log WARNING
                                     ("Error getting data for vehicle "
                                      ++ id ++ ": " ++ exn_msg e)])%list))
        by (unfold vehicles_step; rewrite Hs; reflexivity).
      rewrite Hstep. rewrite app_nil_l. apply IH.
Qed.

Lemma published_vehicles (w : W) (b : Bridge) (ids : list string) :
  vehicle_getIDList w = Ok ids ->
  let b' := fst (update_vehicles_data w b) in
  vehicles_data b'
  = map fst (filter (fun p => negb (is_emergency_sample p)) (sampled w ids))
  /\ emergency_vehicles_data b'
     = map (fun p => emergency_of (fst p) (v_id (fst p)) (snd p))
           (filter is_emergency_sample (sampled w ids)).
Proof.
  intros Hids. unfold update_vehicles_data. rewrite Hids.
  pose proof (vehicles_fold w ids [] [] []) as Hfold.
  destruct (fold_left (vehicles_step w) ids ([], [], []))
    as [[vehicles emergency_vehicles] logs].
  exact Hfold.
Qed.

End SamplingFacts.

(** ** Roads (C10) *)

Section Roads.
Context {W : Type} `{External W}.

(** C10.  Whenever [update_roads_data] publishes a roads list (that is,
    whenever [traci.edge.getIDList] answers), every road in it comes from
    the first 50 edge ids the engine returned, none is an internal edge (an
    id beginning with [":"]), and so the list has at most 50 entries however
    many edges the network has. *)
Theorem roads_snapshot_bounded (w : W) (b : Bridge) (edge_ids : list string) :
  edge_getIDList w = Ok edge_ids ->
  let published := roads_data (fst (update_roads_data w b)) in
  (List.length published <= 50)%nat
  /\ (forall road, In road published ->
        In (r_id road) (firstn 50 edge_ids)
        /\ Py.startswith (r_id road) ":" = false).
Proof.
  intros Hids published.
  pose proof (published_road_ids w b Hids) as Hpub. fold published in Hpub.
  split.
  - rewrite <- (length_map r_id published), Hpub.
    etransitivity; [apply filter_length_le | apply firstn_le_length].
  - intros road Hin.
    assert (Hkept : In (r_id road) (filter (road_kept w) (firstn 50 edge_ids)))
      by (rewrite <- Hpub; now apply in_map).
    apply filter_In in Hkept as [Hfirst Hkept]. split; [exact Hfirst|].
    unfold road_kept in Hkept. apply andb_true_iff in Hkept as [Hint _].
    now apply negb_true_iff in Hint.
Qed.

End Roads.

Lemma roads_snapshot_bounded_witness :
  edge_getIDList Scenario.big_world = Ok Scenario.big_network
  /\ let published :=
       roads_data (fst (update_roads_data Scenario.big_world
                          (init "localhost" 8813 8814))) in
     (List.length published <= 50)%nat
     /\ (forall road, In road published ->
           In (r_id road) (firstn 50 Scenario.big_network)
           /\ Py.startswith (r_id road) ":" = false).
Proof.
  split; [reflexivity|].
  exact (roads_snapshot_bounded Scenario.big_world
           (init "localhost" 8813 8814) (edge_ids := Scenario.big_network)
           eq_refl).
Defined.

(** ** Vehicles and emergency vehicles (C9) *)

Section Vehicles.
Context {W : Type} `{External W}.

Lemma is_emergency_vehicle_spec (vehicle_id vehicle_type : string) :
  is_emergency_vehicle vehicle_id vehicle_type = true
  <-> exists keyword,
        In keyword emergency_keywords
        /\ (occurs_in keyword (Py.lower vehicle_id)
            \/ occurs_in keyword (Py.lower vehicle_type)).
Proof.
  unfold is_emergency_vehicle. rewrite existsb_exists.
  split; intros (keyword & Hk & Hin); exists keyword; split; try exact Hk.
  - apply orb_true_iff in Hin. now rewrite !str_in_spec in Hin.
  - apply orb_true_iff. now rewrite !str_in_spec.
Qed.

(** A published stats dict counts the two lists the bridge holds. *)
Lemma stats_count_both_lists (w : W) (b : Bridge) :
  stats_available w = true ->
  let b' := fst (update_simulation_stats w b) in
  vehicles_data b' = vehicles_data b
  /\ emergency_vehicles_data b' = emergency_vehicles_data b
  /\ exists stats,
       simulation_stats b' = Some stats
       /\ st_activeVehicles stats
          = (List.length (vehicles_data b)
             + List.length (emergency_vehicles_data b))%nat.
Proof.
  unfold stats_available, update_simulation_stats, rbind. intros Hok.
  destruct (simulation_getTime w); [|discriminate].
  destruct (simulation_getLoadedNumber w); [|discriminate].
  destruct (simulation_getDepartedNumber w); [|discriminate].
  destruct (simulation_getArrivedNumber w); [|discriminate].
  simpl. repeat split. eexists; split; reflexivity.
Qed.

(** C9.  Let [ids] be the vehicle ids of a tick.  Each vehicle sampled from
    them is published in exactly one of [vehicles_data] and
    [emergency_vehicles_data]; it goes to [emergency_vehicles_data] exactly
    when its lowercased id or its lowercased SUMO type contains one of
    ambulance, police, fire, emergency, rescue; [GET /vehicles] answers with
    [vehicles_data] alone, so it leaves the emergency vehicles out; and
    when the stats update of the tick succeeds (its four getters answer),
    the stats dict it publishes has [activeVehicles] equal to the sum of
    the lengths of the two lists. *)
Theorem emergency_vehicles_published_apart
  (w : W) (b : Bridge) (ids : list string) :
  vehicle_getIDList w = Ok ids ->
  let b1 := fst (update_vehicles_data w b) in
  let b2 := fst (update_simulation_stats w b1) in
  (* one list or the other, never both *)
  (forall v ty, In (v, ty) (sampled w ids) ->
     if is_emergency_vehicle (v_id v) ty
     then In v (map em_vehicle (emergency_vehicles_data b1))
          /\ ~ In (v_id v) (map v_id (vehicles_data b1))
     else In v (vehicles_data b1)
          /\ ~ In (v_id v)
                  (map (fun e => v_id (em_vehicle e))
                       (emergency_vehicles_data b1)))
  (* nothing else is published *)
  /\ (List.length (vehicles_data b1)
      + List.length (emergency_vehicles_data b1)
      = List.length (sampled w ids))%nat
  (* the classification *)
  /\ (forall vehicle_id vehicle_type,
        is_emergency_vehicle vehicle_id vehicle_type = true
        <-> exists keyword,
              In keyword emergency_keywords
              /\ (occurs_in keyword (Py.lower vehicle_id)
                  \/ occurs_in keyword (Py.lower vehicle_type)))
  (* the vehicles endpoint *)
  /\ (forall r : Runtime W Bridge,
        bridge r = b1 ->
        exists t n,
          fst (handle GET_vehicles r)
          = Ok (mkResponse 200 true "" (VehiclesData (vehicles_data b1) t n))
          /\ forall v, In v (vehicles_data b1) ->
               exists ty, In (v, ty) (sampled w ids)
                          /\ is_emergency_vehicle (v_id v) ty = false)
  (* the stats *)
  /\ (stats_available w = true ->
      exists stats,
        simulation_stats b2 = Some stats
        /\ st_activeVehicles stats
           = (List.length (vehicles_data b2)
              + List.length (emergency_vehicles_data b2))%nat).
Proof.
  intros Hids b1 b2.
  destruct (published_vehicles w b Hids) as [Hv He].
  fold b1 in Hv, He.
  assert (Hdet : forall p q, In p (sampled w ids) -> In q (sampled w ids) ->
                   v_id (fst p) = v_id (fst q) -> p = q).
  { intros p q Hp Hq Heq.
    apply sampled_inv in Hp as [_ Hp]. apply sampled_inv in Hq as [_ Hq].
    rewrite Heq in Hp. congruence. }
  repeat split.
  - intros v ty Hin.
    destruct (is_emergency_vehicle (v_id v) ty) eqn:Hem; split.
    + rewrite He, map_map. simpl.
      change v with (fst (v, ty)). apply in_map.
      apply filter_In. split; [exact Hin | exact Hem].
    + rewrite Hv, map_map. intros Hdup. apply in_map_iff in Hdup as (q & Hq & Hqin).
      apply filter_In in Hqin as [Hqin Hqem].
      rewrite (Hdet q (v, ty) Hqin Hin Hq) in Hqem.
      unfold is_emergency_sample in Hqem. simpl in Hqem.
      rewrite Hem in Hqem. discriminate.
    + rewrite Hv. change v with (fst (v, ty)). apply in_map.
      apply filter_In. split; [exact Hin|].
      unfold is_emergency_sample. simpl. now rewrite Hem.
    + rewrite He, map_map. simpl. intros Hdup.
      apply in_map_iff in Hdup as (q & Hq & Hqin).
      apply filter_In in Hqin as [Hqin Hqem].
      rewrite (Hdet q (v, ty) Hqin Hin Hq) in Hqem.
      unfold is_emergency_sample in Hqem. simpl in Hqem. congruence.
  - rewrite Hv, He, !length_map. apply filter_split_length.
  - apply is_emergency_vehicle_spec.
  - apply is_emergency_vehicle_spec.
  - intros r Hr. exists (time_time (world r)), (List.length (vehicles_data b1)).
    split.
    + unfold handle, bind, get_bridge, gets, now, query, ret. simpl.
      now rewrite Hr.
    + intros v Hin. rewrite Hv in Hin.
      apply in_map_iff in Hin as ([v' ty] & Heq & Hin). simpl in Heq. subst v'.
      apply filter_In in Hin as [Hin Hem]. exists ty. split; [exact Hin|].
      unfold is_emergency_sample in Hem. simpl in Hem.
      now apply negb_true_iff in Hem.
  - intros Hok.
    destruct (stats_count_both_lists w b1 Hok) as (Hv2 & He2 & stats & Hs & Hn).
    fold b2 in Hv2, He2, Hs. exists stats. split; [exact Hs|].
    now rewrite Hv2, He2.
Qed.

End Vehicles.

Lemma emergency_vehicles_published_apart_witness :
  vehicle_getIDList Scenario.busy_world = Ok ["veh0"; "AMBULANCE_7"; "veh2"]
  /\ stats_available Scenario.busy_world = true
  /\ let b1 := fst (update_vehicles_data Scenario.busy_world
                      (init "localhost" 8813 8814)) in
     let b2 := fst (update_simulation_stats Scenario.busy_world b1) in
     (List.length (vehicles_data b1)
      + List.length (emergency_vehicles_data b1)
      = List.length (sampled Scenario.busy_world
                       ["veh0"; "AMBULANCE_7"; "veh2"]))%nat
     /\ exists stats,
          simulation_stats b2 = Some stats
          /\ st_activeVehicles stats
             = (List.length (vehicles_data b2)
                + List.length (emergency_vehicles_data b2))%nat.
Proof.
  assert (Hids : vehicle_getIDList Scenario.busy_world
                 = Ok ["veh0"; "AMBULANCE_7"; "veh2"]) by reflexivity.
  assert (Hok : stats_available Scenario.busy_world = true) by reflexivity.
  split; [exact Hids|]. split; [exact Hok|].
  destruct (emergency_vehicles_published_apart Scenario.busy_world
              (init "localhost" 8813 8814) Hids)
    as (_ & Hlen & _ & _ & Hstats).
  split; [exact Hlen | exact (Hstats Hok)].
Defined.

(** On the three vehicles of [Scenario.traffic]: the car is served by
    [GET /vehicles], the ambulance and the police car are not. *)
Example busy_world_split :
  let b1 := fst (update_vehicles_data Scenario.busy_world
                   (init "localhost" 8813 8814)) in
  map v_id (vehicles_data b1) = ["veh0"]
  /\ map (fun e => (v_id (em_vehicle e), em_emergencyType e))
         (emergency_vehicles_data b1)
     = [("AMBULANCE_7", "ambulance"); ("veh2", "police")].
Proof. vm_compute. split; reflexivity. Qed.

(** C9 as the specification words it fails in its last part.  In a tick
    whose stats update fails (here the arrived count cannot be read) the
    two lists are replaced and [simulation_stats] keeps the dict of the
    tick before: the second turn publishes two vehicles, and the published
    [activeVehicles] still says 1. *)
Lemma active_vehicles_can_lag :
  let two := run [Turn 0%nat; Turn 0%nat] (Sim.polling Scenario.flaky_stats) in
  map v_id (vehicles_data (bridge two)) = ["veh0"; "veh1"]
  /\ emergency_vehicles_data (bridge two) = []
  /\ stats_available (world two) = false
  /\ exists stats,
       simulation_stats (bridge two) = Some stats
       /\ st_activeVehicles stats = 1%nat
       /\ st_activeVehicles stats
          <> (List.length (vehicles_data (bridge two))
              + List.length (emergency_vehicles_data (bridge two)))%nat.
Proof.
  intros two. split; [vm_compute; reflexivity|].
  split; [vm_compute; reflexivity|]. split; [vm_compute; reflexivity|].
  vm_compute. eexists. split; [reflexivity|]. split; [reflexivity|].
  discriminate.
Qed.

(** ** Invariants of actions *)

Section ActionLogic.
Context {W B : Type}.
Implicit Types (P : Runtime W B -> Prop).

Lemma preserves_ret {A} P (a : A) : preserves P (ret a).
Proof. intros r Hr. exact Hr. Qed.

Lemma preserves_raise {A} P (e : exn) : preserves P (@raise W B A e).
Proof. intros r Hr. exact Hr. Qed.

Lemma preserves_bind {A C} P (m : M W B A) (k : A -> M W B C) :
  preserves P m -> (forall a, preserves P (k a)) -> preserves P (bind m k).
Proof.
  intros Hm Hk r Hr. unfold bind. specialize (Hm r Hr).
  destruct (m r) as [[a|e] r']; simpl in *; [now apply Hk | exact Hm].
Qed.

Lemma preserves_try_except {A} P (m : M W B A) (h : exn -> M W B A) :
  preserves P m -> (forall e, preserves P (h e)) ->
  preserves P (try_except m h).
Proof.
  intros Hm Hh r Hr. unfold try_except. specialize (Hm r Hr).
  destruct (m r) as [[a|e] r']; simpl in *; [exact Hm | now apply Hh].
Qed.

Lemma preserves_try_finally {A} P (m : M W B A) (f : M W B unit) :
  preserves P m -> preserves P f -> preserves P (try_finally m f).
Proof.
  intros Hm Hf r Hr. unfold try_finally. specialize (Hm r Hr).
  destruct (m r) as [res r']; simpl in *. specialize (Hf r' Hm).
  destruct (f r') as [[u|e] r'']; exact Hf.
Qed.

Lemma preserves_keeps {A} P (m : M W B A) :
  state_only P -> keeps_state m -> preserves P m.
Proof.
  intros HP Hm r Hr. destruct (Hm r) as [Hb Ht]. exact (HP r _ Hb Ht Hr).
Qed.

Lemma preserves_modify_bridge P (f : B -> B) :
  (forall r, P r -> P (set_bridge (f (bridge r)) r)) ->
  preserves P (modify_bridge f).
Proof. intros Hf r Hr. exact (Hf r Hr). Qed.

(** The primitive actions that never touch the bridge or the threads. *)

Lemma keeps_gets {A} (f : Runtime W B -> A) : keeps_state (gets f).
Proof. intros r. split; reflexivity. Qed.

Lemma keeps_query {A} (q : W -> result A) : keeps_state (@query W B A q).
Proof. intros r. split; reflexivity. Qed.

Lemma keeps_act {A} (c : W -> result A * W) : keeps_state (@act W B A c).
Proof. intros r. unfold act. destruct (c (world r)). split; reflexivity. Qed.

Lemma keeps_command {A} (tag : Command) (c : W -> result A * W) :
  keeps_state (@command W B A tag c).
Proof. intros r. unfold command. destruct (c (world r)). split; reflexivity. Qed.

Lemma keeps_logger (lvl : level) (msg : string) :
  keeps_state (@logger W B lvl msg).
Proof. intros r. split; reflexivity. Qed.

Lemma keeps_thread_join (i : nat) (timeout : Q) :
  keeps_state (@thread_join W B i timeout).
Proof. intros r. split; reflexivity. Qed.

End ActionLogic.

Section OsLogic.
Context {W B : Type} `{External W}.

Lemma keeps_os_getcwd : keeps_state (@os_getcwd W B _).
Proof. intros r. unfold os_getcwd. destruct (path_isdir (cwd r)); split; reflexivity. Qed.

Lemma keeps_os_chdir (d : string) : keeps_state (@os_chdir W B _ d).
Proof. intros r. unfold os_chdir. destruct (path_isdir d); split; reflexivity. Qed.

Lemma keeps_sleep (s : Q) : keeps_state (@sleep W B _ s).
Proof. apply keeps_act. Qed.

End OsLogic.

Create HintDb actions.

#[global] Hint Extern 1 (keeps_state _) =>
  first [ apply keeps_gets | apply keeps_query | apply keeps_act
        | apply keeps_command | apply keeps_logger | apply keeps_thread_join
        | apply keeps_os_getcwd | apply keeps_os_chdir | apply keeps_sleep ]
  : actions.

(** Split an invariance goal along the structure of the action; what is left
    are the places where the bridge object or the threads are written. *)
Ltac preserve_step :=
  match goal with
  | |- preserves _ (ret _) => apply preserves_ret
  | |- preserves _ (raise _) => apply preserves_raise
  | |- preserves _ (bind _ _) => apply preserves_bind; [|intro]
  | |- preserves _ (try_except _ _) => apply preserves_try_except; [|intro]
  | |- preserves _ (try_except_class _ _ _) =>
      apply preserves_try_except; [|intro]
  | |- preserves _ (try_finally _ _) => apply preserves_try_finally
  | |- preserves _ (if ?c then _ else _) => destruct c
  | |- preserves _ (match ?x with _ => _ end) => destruct x
  | |- preserves _ _ =>
      solve [ apply preserves_keeps; [auto with actions | auto with actions]
            | auto with actions ]
  end.

Ltac preserve := repeat preserve_step.

(** ** Threads *)

Lemma nth_list_set {A} (l : list A) (i j : nat) (x d : A) :
  nth j (list_set l i x) d
  = if (j =? i)%nat && (i <? List.length l)%nat then x else nth j l d.
Proof.
  revert i j; induction l as [|y l IH]; intros i j.
  - simpl. rewrite andb_false_r. reflexivity.
  - destruct i as [|i]; destruct j as [|j]; simpl; try reflexivity.
    rewrite IH. reflexivity.
Qed.

Lemma nth_app_new {A} (l : list A) (j : nat) (x d : A) :
  nth j (l ++ [x]) d
  = if (j <? List.length l)%nat then nth j l d
    else if (j =? List.length l)%nat then x else d.
Proof.
  destruct (j <? List.length l)%nat eqn:Hlt.
  - apply Nat.ltb_lt in Hlt. now apply app_nth1.
  - apply Nat.ltb_ge in Hlt. rewrite app_nth2 by exact Hlt.
    destruct (j =? List.length l)%nat eqn:Heq.
    + apply Nat.eqb_eq in Heq. subst j. now rewrite Nat.sub_diag.
    + apply Nat.eqb_neq in Heq.
      destruct (j - List.length l)%nat as [|[|k]] eqn:Hk; try reflexivity; lia.
Qed.

Section ThreadFacts.
Context {W B : Type}.

(** A thread that was never created is not alive. *)
Lemma thread_beyond (r : Runtime W B) (i : nat) :
  (List.length (threads r) <= i)%nat -> alive (thread_of r i) = false.
Proof. intros Hle. unfold thread_of. now rewrite nth_overflow. Qed.

(** Rewriting the variables of one thread without reviving it keeps
    [single_loop]. *)
Lemma single_loop_modify_thread (ut : B -> option nat) (i : nat)
  (f : LoopThread -> LoopThread) :
  (forall t, alive (f t) = true -> alive t = true) ->
  preserves (single_loop ut) (@modify_thread W B i f).
Proof.
  intros Hf r Hr j Hj. simpl in *. unfold thread_of in Hj. simpl in Hj.
  rewrite nth_list_set in Hj. apply Hr.
  destruct ((j =? i)%nat && (i <? List.length (threads r))%nat) eqn:Hji.
  - apply andb_true_iff in Hji as [Hji _]. apply Nat.eqb_eq in Hji. subst j.
    now apply Hf.
  - exact Hj.
Qed.

Lemma single_loop_state_only (ut : B -> option nat) :
  state_only (single_loop (W := W) ut).
Proof.
  intros r r' Hb Ht Hr i Hi. unfold thread_of in *. rewrite Hb.
  apply Hr. unfold thread_of. now rewrite <- Ht.
Qed.

(** Under [single_loop], if the thread the bridge refers to is not alive
    then no thread is, and appending a fresh one that the bridge then refers
    to keeps the invariant. *)
Lemma single_loop_spawn (ut : B -> option nat) (r : Runtime W B)
  (b' : B) (t : LoopThread) :
  single_loop ut r ->
  match ut (bridge r) with
  | Some i => alive (thread_of r i) = false
  | None => True
  end ->
  ut b' = Some (List.length (threads r)) ->
  forall cs l (w : W) d,
    single_loop ut (mkRuntime w d b' (threads r ++ [t])%list cs l).
Proof.
  intros Hr Hdead Hut cs l w d j Hj. simpl. rewrite Hut.
  unfold thread_of in Hj. simpl in Hj. rewrite nth_app_new in Hj.
  destruct (j <? List.length (threads r))%nat.
  - pose proof (Hr j Hj) as Hut'. rewrite Hut' in Hdead.
    unfold thread_of in Hdead. congruence.
  - destruct (j =? List.length (threads r))%nat eqn:Heq.
    + apply Nat.eqb_eq in Heq. now subst.
    + discriminate.
Qed.

(** Under [single_loop] two live threads are the same thread. *)
Lemma single_loop_unique (ut : B -> option nat) (r : Runtime W B) (i j : nat) :
  single_loop ut r ->
  alive (thread_of r i) = true -> alive (thread_of r j) = true -> i = j.
Proof. intros Hr Hi Hj. pose proof (Hr i Hi). pose proof (Hr j Hj). congruence. Qed.

End ThreadFacts.

(** ** One update loop per bridge (C8) *)

Section OneLoop.
Context {W : Type} `{External W}.

Lemma start_data_updates_noop (r : Runtime W Bridge) (t : nat) :
  update_thread (bridge r) = Some t -> alive (thread_of r t) = true ->
  start_data_updates r = (Ok tt, r).
Proof.
  intros Hut Halive.
  unfold start_data_updates, bind, get_bridge, gets, thread_is_alive.
  cbv beta iota. rewrite Hut. unfold gets. cbv beta iota.
  rewrite Halive. reflexivity.
Qed.

Lemma fixed_start_data_updates_noop (r : Runtime W Fixed.Bridge) (t : nat) :
  Fixed.update_thread (bridge r) = Some t -> alive (thread_of r t) = true ->
  Fixed.start_data_updates r = (Ok tt, r).
Proof.
  intros Hut Halive.
  unfold Fixed.start_data_updates, bind, get_bridge, gets, thread_is_alive.
  cbv beta iota. rewrite Hut. unfold gets. cbv beta iota.
  rewrite Halive. reflexivity.
Qed.

Lemma start_data_updates_single_loop :
  preserves (single_loop update_thread) (@start_data_updates W).
Proof.
  intros r Hr.
  unfold start_data_updates, bind, get_bridge, gets, thread_is_alive.
  cbv beta iota. unfold gets. cbv beta iota.
  destruct (update_thread (bridge r)) as [t|] eqn:Hut;
    [destruct (alive (thread_of r t)) eqn:Halive|]; simpl; try exact Hr;
    apply single_loop_spawn with (r := r); try exact Hr; try reflexivity;
    rewrite Hut; auto.
Qed.

Lemma fixed_start_data_updates_single_loop :
  preserves (single_loop Fixed.update_thread) (@Fixed.start_data_updates W).
Proof.
  intros r Hr.
  unfold Fixed.start_data_updates, bind, get_bridge, gets, thread_is_alive.
  cbv beta iota. unfold gets. cbv beta iota.
  destruct (Fixed.update_thread (bridge r)) as [t|] eqn:Hut;
    [destruct (alive (thread_of r t)) eqn:Halive|]; simpl; try exact Hr;
    apply single_loop_spawn with (r := r); try exact Hr; try reflexivity;
    rewrite Hut; auto.
Qed.

(** Writing an attribute other than [update_thread] keeps [single_loop]. *)
Lemma single_loop_modify_bridge (f : Bridge -> Bridge) :
  (forall b, update_thread (f b) = update_thread b) ->
  preserves (single_loop (W := W) update_thread) (modify_bridge f).
Proof.
  intros Hf. apply preserves_modify_bridge. intros r Hr i Hi.
  simpl. rewrite Hf. now apply Hr.
Qed.

Lemma fixed_single_loop_modify_bridge (f : Fixed.Bridge -> Fixed.Bridge) :
  (forall b, Fixed.update_thread (f b) = Fixed.update_thread b) ->
  preserves (single_loop (W := W) Fixed.update_thread) (modify_bridge f).
Proof.
  intros Hf. apply preserves_modify_bridge. intros r Hr i Hi.
  simpl. rewrite Hf. now apply Hr.
Qed.

End OneLoop.

(** ** Invariants of the service *)

Section Sampled.
Context {W : Type} `{External W}.

Lemma set_vehicles_control vs es b :
  control (set_vehicles vs es b) = control b.
Proof. reflexivity. Qed.

Lemma update_vehicles_data_control (w : W) (b : Bridge) :
  control (fst (update_vehicles_data w b)) = control b.
Proof.
  unfold update_vehicles_data. destruct (vehicle_getIDList w); [|reflexivity].
  destruct (fold_left _ _ _) as [[vs es] logs]. reflexivity.
Qed.

Lemma update_intersections_data_control (w : W) (b : Bridge) :
  control (fst (update_intersections_data w b)) = control b.
Proof.
  unfold update_intersections_data.
  destruct (trafficlight_getIDList w); [|reflexivity].
  destruct (fold_left _ _ _) as [xs logs]. reflexivity.
Qed.

Lemma update_roads_data_control (w : W) (b : Bridge) :
  control (fst (update_roads_data w b)) = control b.
Proof.
  unfold update_roads_data. destruct (edge_getIDList w); [|reflexivity].
  destruct (fold_left _ _ _) as [xs logs]. reflexivity.
Qed.

Lemma update_simulation_stats_control (w : W) (b : Bridge) :
  control (fst (update_simulation_stats w b)) = control b.
Proof.
  unfold update_simulation_stats.
  destruct (rbind _ _); reflexivity.
Qed.

Lemma control_only_state_only (P : Runtime W Bridge -> Prop) :
  control_only P -> state_only P.
Proof. intros HP r r' Hb Ht. apply HP; [now rewrite Hb | exact Ht]. Qed.

Lemma preserves_sample (P : Runtime W Bridge -> Prop)
  (f : W -> Bridge -> Bridge * list LogEvent) :
  control_only P ->
  (forall w b, control (fst (f w b)) = control b) ->
  preserves P (sample f).
Proof.
  intros HP Hf r Hr. unfold sample.
  specialize (Hf (world r) (bridge r)).
  destruct (f (world r) (bridge r)) as [b' evs]. simpl in *.
  apply (HP r); [exact Hf | reflexivity | exact Hr].
Qed.

End Sampled.

#[global] Hint Resolve update_vehicles_data_control
  update_intersections_data_control update_roads_data_control
  update_simulation_stats_control : actions.

Section Invariant.
Context {W : Type} `{External W}.

(** An invariant [P] that reads the steering attributes and the threads, and
    that survives every write except switching [connected] on, changing
    [update_thread] and starting a thread. *)
Variable P : Runtime W Bridge -> Prop.
Hypothesis P_control : control_only P.
Hypothesis P_write :
  forall f : Bridge -> Bridge,
    (forall b, update_thread (f b) = update_thread b) ->
    (forall b, connected b = false -> connected (f b) = false) ->
    preserves P (modify_bridge f).
Hypothesis P_thread :
  forall i (f : LoopThread -> LoopThread),
    (forall t, alive (f t) = true -> alive t = true) ->
    preserves P (modify_thread i f).

Lemma invariant_reads_state : state_only P.
Proof. exact (control_only_state_only P_control). Qed.

Local Hint Resolve invariant_reads_state : actions.
Local Hint Extern 1 (preserves P (modify_bridge _)) =>
  (apply P_write; [intros []; reflexivity | intros [] ?; simpl; auto])
  : actions.
Local Hint Extern 1 (preserves P (modify_thread _ _)) =>
  (apply P_thread; intros [] ?; simpl in *; first [assumption | discriminate])
  : actions.
Local Hint Extern 1 (preserves P (sample _)) =>
  (apply preserves_sample; [exact P_control | auto with actions]) : actions.

Ltac invariant := preserve; auto with actions.

Lemma stop_data_updates_invariant : preserves P stop_data_updates.
Proof. unfold stop_data_updates. invariant. Qed.
Local Hint Resolve stop_data_updates_invariant : actions.

Lemma disconnect_from_sumo_invariant : preserves P disconnect_from_sumo.
Proof. unfold disconnect_from_sumo. invariant. Qed.
Local Hint Resolve disconnect_from_sumo_invariant : actions.

Lemma stop_sumo_process_invariant : preserves P stop_sumo_process.
Proof. unfold stop_sumo_process. invariant. Qed.
Local Hint Resolve stop_sumo_process_invariant : actions.

Lemma start_sumo_process_invariant config_path use_gui :
  preserves P (start_sumo_process config_path use_gui).
Proof. unfold start_sumo_process, os_path_abspath. invariant. Qed.
Local Hint Resolve start_sumo_process_invariant : actions.

Lemma update_simulation_data_invariant : preserves P update_simulation_data.
Proof.
  unfold update_simulation_data, sample_all, mark_if_connection_lost.
  invariant.
Qed.
Local Hint Resolve update_simulation_data_invariant : actions.

Lemma override_traffic_light_invariant id phase duration :
  preserves P (override_traffic_light id phase duration).
Proof. unfold override_traffic_light. invariant. Qed.
Local Hint Resolve override_traffic_light_invariant : actions.

Lemma update_data_loop_step_invariant (i : nat) :
  preserves P (update_data_loop_step i).
Proof.
  unfold update_data_loop_step, loop_try_body, step_and_check, loop_handler,
    loop_exit.
  invariant.
Qed.

End Invariant.

Section Loops.
Context {W : Type} `{External W}.
Variable P : Runtime W Bridge -> Prop.
Hypothesis P_state : state_only P.

Local Hint Resolve P_state : actions.

Lemma advance_until_vehicles_invariant (indices : list nat) :
  preserves P (advance_until_vehicles indices).
Proof.
  induction indices as [|i rest IH]; simpl; preserve; auto.
Qed.

Lemma step_until_vehicles_invariant (n count : nat) :
  preserves P (step_until_vehicles n count).
Proof.
  revert count; induction n as [|n IH]; intros count; simpl; preserve; auto.
Qed.

End Loops.

Section SingleLoop.
Context {W : Type} `{External W}.

Lemma single_loop_control_only : control_only (single_loop (W := W) update_thread).
Proof.
  intros r r' Hc Ht Hr i Hi. unfold thread_of in *.
  assert (Hut : update_thread (bridge r') = update_thread (bridge r))
    by (unfold control in Hc; congruence).
  rewrite Hut. apply Hr. unfold thread_of. now rewrite <- Ht.
Qed.

Lemma single_loop_write (f : Bridge -> Bridge) :
  (forall b, update_thread (f b) = update_thread b) ->
  (forall b, connected b = false -> connected (f b) = false) ->
  preserves (single_loop (W := W) update_thread) (modify_bridge f).
Proof. intros Hf _. now apply single_loop_modify_bridge. Qed.

Lemma single_loop_thread i (f : LoopThread -> LoopThread) :
  (forall t, alive (f t) = true -> alive t = true) ->
  preserves (single_loop (W := W) update_thread) (modify_thread i f).
Proof. apply single_loop_modify_thread. Qed.

Lemma single_loop_reads_state : state_only (single_loop (W := W) update_thread).
Proof. apply control_only_state_only, single_loop_control_only. Qed.

Local Hint Resolve single_loop_reads_state : actions.
Local Hint Resolve start_data_updates_single_loop : actions.
Local Hint Extern 1 (preserves (single_loop (W := W) update_thread) (modify_bridge _)) =>
  (apply single_loop_modify_bridge; intros []; reflexivity) : actions.
Local Hint Extern 1 (preserves (single_loop (W := W) update_thread) (advance_until_vehicles _)) =>
  (apply advance_until_vehicles_invariant; auto with actions) : actions.
Local Hint Extern 1 (preserves (single_loop (W := W) update_thread) (step_until_vehicles _ _)) =>
  (apply step_until_vehicles_invariant; auto with actions) : actions.
Local Hint Extern 1 (preserves (single_loop (W := W) update_thread) stop_data_updates) =>
  (apply stop_data_updates_invariant;
   auto using single_loop_control_only, single_loop_write,
     single_loop_thread) : actions.
Local Hint Extern 1 (preserves (single_loop (W := W) update_thread) disconnect_from_sumo) =>
  (apply disconnect_from_sumo_invariant;
   auto using single_loop_control_only, single_loop_write,
     single_loop_thread) : actions.
Local Hint Extern 1 (preserves (single_loop (W := W) update_thread) stop_sumo_process) =>
  (apply stop_sumo_process_invariant;
   auto using single_loop_control_only, single_loop_write,
     single_loop_thread) : actions.
Local Hint Extern 1 (preserves (single_loop (W := W) update_thread) (start_sumo_process _ _)) =>
  (apply start_sumo_process_invariant;
   auto using single_loop_control_only, single_loop_write,
     single_loop_thread) : actions.
Local Hint Extern 1 (preserves (single_loop (W := W) update_thread) (override_traffic_light _ _ _)) =>
  (apply override_traffic_light_invariant;
   auto using single_loop_control_only, single_loop_write,
     single_loop_thread) : actions.

Lemma connect_to_sumo_single_loop (use_gui : bool) :
  preserves (single_loop (W := W) update_thread) (connect_to_sumo use_gui).
Proof.
  unfold connect_to_sumo, connect_in_config_dir, os_path_abspath.
  preserve; auto with actions.
Qed.
Local Hint Resolve connect_to_sumo_single_loop : actions.

Lemma handle_single_loop (q : Request) : preserves (single_loop (W := W) update_thread) (handle q).
Proof.
  destruct q; unfold handle, now, error_500; preserve; auto with actions.
Qed.

Lemma exec_single_loop (s : Step) (r : Runtime W Bridge) :
  (single_loop (W := W) update_thread) r -> (single_loop (W := W) update_thread) (exec s r).
Proof.
  destruct s as [q|i]; simpl.
  - apply handle_single_loop.
  - apply update_data_loop_step_invariant;
      auto using single_loop_control_only, single_loop_write,
        single_loop_thread.
Qed.

(** From a freshly constructed bridge on, whatever requests arrive and
    however the threads are scheduled, at most one update thread is alive. *)
Lemma run_single_loop (steps : list Step) (r : Runtime W Bridge) :
  (single_loop (W := W) update_thread) r -> (single_loop (W := W) update_thread) (run steps r).
Proof.
  revert r; induction steps as [|s steps IH]; intros r Hr; simpl.
  - exact Hr.
  - apply IH. now apply exec_single_loop.
Qed.

Lemma boot_single_loop (w : W) dir host port api :
  (single_loop (W := W) update_thread) (boot w dir host port api).
Proof. intros i Hi. unfold thread_of in Hi. simpl in Hi. destruct i; discriminate. Qed.

End SingleLoop.

Section OneLoopClaim.
Context {W : Type} `{External W}.


End OneLoopClaim.


(** A resume request while the loop runs leaves the single thread alone; a
    resume after the thread has ended starts a second thread, and only that
    one is alive. *)
Example resume_twice :
  let r := Sim.polling Scenario.calm_world in
  threads (snd (handle POST_simulation_resume r)) = threads r
  /\ map alive
       (threads (run [Api POST_simulation_pause; Turn 0;
                      Api POST_simulation_resume] r))
     = [false; true].
Proof. vm_compute. split; reflexivity. Qed.

(** ** The working directory (C6) *)

Section WorkingDirectory.
Context {W B : Type} `{External W}.

Lemma preserves_in_dir {A} (c : string) (m : M W B A) :
  keeps_cwd m -> preserves (in_dir c) m.
Proof. intros Hm r Hr. unfold in_dir in *. now rewrite Hm. Qed.

Lemma keeps_cwd_gets {A} (f : Runtime W B -> A) : keeps_cwd (gets f).
Proof. intros r. reflexivity. Qed.

Lemma keeps_cwd_query {A} (q : W -> result A) : keeps_cwd (@query W B A q).
Proof. intros r. reflexivity. Qed.

Lemma keeps_cwd_act {A} (c : W -> result A * W) : keeps_cwd (@act W B A c).
Proof. intros r. unfold act. now destruct (c (world r)). Qed.

Lemma keeps_cwd_command {A} (tag : Command) (c : W -> result A * W) :
  keeps_cwd (@command W B A tag c).
Proof. intros r. unfold command. now destruct (c (world r)). Qed.

Lemma keeps_cwd_logger (lvl : level) (msg : string) :
  keeps_cwd (@logger W B lvl msg).
Proof. intros r. reflexivity. Qed.

Lemma keeps_cwd_modify_bridge (f : B -> B) :
  keeps_cwd (@modify_bridge W B f).
Proof. intros r. reflexivity. Qed.

Lemma keeps_cwd_thread_join (i : nat) (timeout : Q) :
  keeps_cwd (@thread_join W B i timeout).
Proof. intros r. reflexivity. Qed.

Lemma keeps_cwd_os_getcwd : keeps_cwd (@os_getcwd W B _).
Proof. intros r. unfold os_getcwd. now destruct (path_isdir (cwd r)). Qed.

(** The scoped switch of both [connect] methods: the directory read by
    [os.getcwd()] is the one [finally] returns to, whatever [body] does and
    however it ends. *)
Lemma scoped_chdir {A} (c : string) (body : M W B A) :
  preserves (in_dir c)
    (bind os_getcwd
          (fun original_cwd => try_finally body (os_chdir original_cwd))).
Proof.
  intros r Hr. unfold in_dir in *. unfold bind, os_getcwd.
  destruct (path_isdir (cwd r)) eqn:Hdir; [|exact Hr].
  unfold try_finally. destruct (body r) as [res r'].
  unfold os_chdir. rewrite Hdir. simpl. exact Hr.
Qed.

End WorkingDirectory.

#[global] Hint Extern 1 (keeps_cwd _) =>
  first [ apply keeps_cwd_gets | apply keeps_cwd_query | apply keeps_cwd_act
        | apply keeps_cwd_command | apply keeps_cwd_logger
        | apply keeps_cwd_modify_bridge | apply keeps_cwd_thread_join
        | apply keeps_cwd_os_getcwd ]
  : actions.
#[global] Hint Extern 2 (preserves (in_dir _) _) =>
  (apply preserves_in_dir; auto with actions) : actions.

(** As [preserve], but a scoped directory switch is taken as a whole. *)
Ltac scoped := repeat first [ apply scoped_chdir | preserve_step ].

Section ConnectClaim.
Context {W : Type} `{External W}.

Lemma connect_to_sumo_in_dir (c : string) (use_gui : bool) :
  preserves (in_dir c) (connect_to_sumo use_gui).
Proof. unfold connect_to_sumo, os_path_abspath. scoped. Qed.

Lemma connect_to_sumo_fixed_in_dir (c : string) (config_path : string)
  (use_gui : bool) :
  preserves (in_dir c) (Fixed.connect_to_sumo_fixed config_path use_gui).
Proof.
  unfold Fixed.connect_to_sumo_fixed, Fixed.disconnect_from_sumo,
    Fixed.stop_data_updates, os_path_abspath.
  scoped.
Qed.

(** C6.  Whatever the runtime and however the call ends, the working
    directory of the process after [connect_to_sumo] equals the one before
    it, and likewise for [connect_to_sumo_fixed]: the switch into the
    directory of the config is undone by the [finally] clause.  (The file
    system is taken not to change during the call.) *)
Theorem connect_restores_working_directory :
  (forall (r : Runtime W Bridge) (use_gui : bool),
     cwd (snd (connect_to_sumo use_gui r)) = cwd r)
  /\ (forall (r : Runtime W Fixed.Bridge) (config_path : string)
        (use_gui : bool),
        cwd (snd (Fixed.connect_to_sumo_fixed config_path use_gui r)) = cwd r).
Proof.
  split.
  - intros r use_gui.
    change (in_dir (cwd r) (snd (connect_to_sumo use_gui r))).
    apply connect_to_sumo_in_dir. reflexivity.
  - intros r config_path use_gui.
    change (in_dir (cwd r)
              (snd (Fixed.connect_to_sumo_fixed config_path use_gui r))).
    apply connect_to_sumo_fixed_in_dir. reflexivity.
Qed.

End ConnectClaim.

(** A connect that succeeds and one that fails both come back to the
    operator's directory; the block inside would, on its own, have left the
    process in the directory of the config. *)
Example connect_comes_back :
  let ok := boot Scenario.busy_world "/home/operator" "localhost" 8813 8814 in
  let ko := boot Scenario.calm_world "/home/operator" "localhost" 8813 8814 in
  (fst (connect_to_sumo false ok) = Ok true
   /\ cwd (snd (connect_to_sumo false ok)) = "/home/operator")
  /\ (fst (connect_to_sumo false ko) = Ok false
      /\ cwd (snd (connect_to_sumo false ko)) = "/home/operator")
  /\ cwd (snd (connect_in_config_dir "/srv/dashboard/AddisAbabaSumo" [] ok))
     = "/srv/dashboard/AddisAbabaSumo".
Proof. vm_compute. repeat split. Qed.

(** ** Symbolic execution of small actions *)

(** Unfold the primitives of the monad. *)
Ltac unfold_prims :=
  unfold try_except_class, logger_info, logger_warning, logger_error,
    logger_all, logger, get_bridge, get_thread, thread_is_alive, thread_join,
    sleep, modify_bridge, modify_thread in *;
  unfold try_except, try_finally, bind, ret, raise, gets, modify, query, act,
    command in *.

(** Case analysis on whatever the result still waits on, innermost first. *)
Ltac crunch :=
  repeat (simpl in *;
          match goal with
          | |- context [match ?x with _ => _ end] =>
              lazymatch x with
              | context [match _ with _ => _ end] => fail
              | _ => destruct x eqn:?
              end
          end);
  simpl in *.

(** ** Disconnecting (C7) *)

Section Disconnect.
Context {W : Type} `{External W}.

Lemma disconnect_never_raises (r : Runtime W Bridge) :
  fst (disconnect_from_sumo r) = Ok tt.
Proof.
  destruct r as [w c b ts cs l]; destruct b.
  unfold disconnect_from_sumo, stop_data_updates. unfold_prims.
  crunch; reflexivity.
Qed.

Lemma fixed_disconnect_never_raises (r : Runtime W Fixed.Bridge) :
  fst (Fixed.disconnect_from_sumo r) = Ok tt.
Proof.
  destruct r as [w c b ts cs l]; destruct b.
  unfold Fixed.disconnect_from_sumo, Fixed.stop_data_updates. unfold_prims.
  crunch; reflexivity.
Qed.

End Disconnect.

Section DisconnectClaim.
Context {W : Type} `{External W}.

Lemma disconnect_when_not_connected (r : Runtime W Bridge) :
  connected (bridge r) = false ->
  let r' := snd (disconnect_from_sumo r) in
  world r' = world r /\ issued r' = issued r /\ cwd r' = cwd r
  /\ threads r' = threads r
  /\ bridge r' = set_stop_updates true (bridge r).
Proof.
  destruct r as [w c b ts cs l]; destruct b. simpl. intros ->.
  unfold disconnect_from_sumo, stop_data_updates. unfold_prims.
  crunch; repeat split; reflexivity.
Qed.

Lemma fixed_disconnect_when_not_connected (r : Runtime W Fixed.Bridge) :
  Fixed.connected (bridge r) = false ->
  let r' := snd (Fixed.disconnect_from_sumo r) in
  world r' = world r /\ issued r' = issued r /\ cwd r' = cwd r
  /\ threads r' = threads r
  /\ bridge r' = Fixed.set_stop_updates true (bridge r).
Proof.
  destruct r as [w c b ts cs l]; destruct b. simpl. intros ->.
  unfold Fixed.disconnect_from_sumo, Fixed.stop_data_updates. unfold_prims.
  crunch; repeat split; reflexivity.
Qed.

(** After a disconnect whose [traci.close()] did not raise the bridge is
    not connected. *)
Lemma disconnect_disconnects (r : Runtime W Bridge) :
  (connected (bridge r) = true -> fst (traci_close (world r)) = Ok tt) ->
  connected (bridge (snd (disconnect_from_sumo r))) = false
  /\ stop_updates (bridge (snd (disconnect_from_sumo r))) = true.
Proof.
  destruct r as [w c b ts cs l]; destruct b. simpl. intros Hclose.
  unfold disconnect_from_sumo, stop_data_updates. unfold_prims.
  crunch; try (specialize (Hclose eq_refl); discriminate);
    split; reflexivity.
Qed.

Lemma fixed_disconnect_disconnects (r : Runtime W Fixed.Bridge) :
  (Fixed.connected (bridge r) = true -> fst (traci_close (world r)) = Ok tt) ->
  Fixed.connected (bridge (snd (Fixed.disconnect_from_sumo r))) = false
  /\ Fixed.stop_updates (bridge (snd (Fixed.disconnect_from_sumo r))) = true.
Proof.
  destruct r as [w c b ts cs l]; destruct b. simpl. intros Hclose.
  unfold Fixed.disconnect_from_sumo, Fixed.stop_data_updates. unfold_prims.
  crunch; try (specialize (Hclose eq_refl); discriminate);
    split; reflexivity.
Qed.

End DisconnectClaim.

Section DisconnectTheorem.
Context {W : Type} `{External W}.

Lemma set_stop_updates_again (b : Bridge) :
  stop_updates b = true -> set_stop_updates true b = b.
Proof. destruct b; simpl; intros ->; reflexivity. Qed.

Lemma fixed_set_stop_updates_again (b : Fixed.Bridge) :
  Fixed.stop_updates b = true -> Fixed.set_stop_updates true b = b.
Proof. destruct b; simpl; intros ->; reflexivity. Qed.

Lemma disconnect_twice (r : Runtime W Bridge) :
  (connected (bridge r) = true -> fst (traci_close (world r)) = Ok tt) ->
  same_but_log (snd (disconnect_from_sumo r))
               (snd (disconnect_from_sumo (snd (disconnect_from_sumo r)))).
Proof.
  intros Hclose. destruct (disconnect_disconnects r Hclose) as [Hoff Hstop].
  destruct (disconnect_when_not_connected _ Hoff) as (Hw & Hi & Hc & Ht & Hb).
  rewrite (set_stop_updates_again _ Hstop) in Hb.
  repeat split; assumption.
Qed.

Lemma fixed_disconnect_twice (r : Runtime W Fixed.Bridge) :
  (Fixed.connected (bridge r) = true -> fst (traci_close (world r)) = Ok tt) ->
  same_but_log (snd (Fixed.disconnect_from_sumo r))
    (snd (Fixed.disconnect_from_sumo (snd (Fixed.disconnect_from_sumo r)))).
Proof.
  intros Hclose.
  destruct (fixed_disconnect_disconnects r Hclose) as [Hoff Hstop].
  destruct (fixed_disconnect_when_not_connected _ Hoff)
    as (Hw & Hi & Hc & Ht & Hb).
  rewrite (fixed_set_stop_updates_again _ Hstop) in Hb.
  repeat split; assumption.
Qed.

(** C7, as the code has it.  [disconnect_from_sumo] never raises.  Called
    with [connected = False] (for one, on a bridge that never connected) it
    sends nothing to the engine and leaves the world, the working directory
    and the threads alone; the bridge object is unchanged except that the
    stop flag of the loop is set ([stop_updates = True]).  Whenever its
    [traci.close()] does not raise, calling it a second time changes nothing
    but the log.  The same holds in [sumo_bridge_fixed.py]. *)
Theorem disconnect_safe_and_idempotent :
  (forall r : Runtime W Bridge, fst (disconnect_from_sumo r) = Ok tt)
  /\ (forall r : Runtime W Fixed.Bridge,
        fst (Fixed.disconnect_from_sumo r) = Ok tt)
  /\ (forall r : Runtime W Bridge,
        connected (bridge r) = false ->
        let r' := snd (disconnect_from_sumo r) in
        world r' = world r /\ issued r' = issued r /\ cwd r' = cwd r
        /\ threads r' = threads r
        /\ bridge r' = set_stop_updates true (bridge r))
  /\ (forall r : Runtime W Fixed.Bridge,
        Fixed.connected (bridge r) = false ->
        let r' := snd (Fixed.disconnect_from_sumo r) in
        world r' = world r /\ issued r' = issued r /\ cwd r' = cwd r
        /\ threads r' = threads r
        /\ bridge r' = Fixed.set_stop_updates true (bridge r))
  /\ (forall r : Runtime W Bridge,
        (connected (bridge r) = true ->
         fst (traci_close (world r)) = Ok tt) ->
        same_but_log
          (snd (disconnect_from_sumo r))
          (snd (disconnect_from_sumo (snd (disconnect_from_sumo r)))))
  /\ (forall r : Runtime W Fixed.Bridge,
        (Fixed.connected (bridge r) = true ->
         fst (traci_close (world r)) = Ok tt) ->
        same_but_log
          (snd (Fixed.disconnect_from_sumo r))
          (snd (Fixed.disconnect_from_sumo
                  (snd (Fixed.disconnect_from_sumo r))))).
Proof.
  split; [exact disconnect_never_raises|].
  split; [exact fixed_disconnect_never_raises|].
  split; [exact disconnect_when_not_connected|].
  split; [exact fixed_disconnect_when_not_connected|].
  split; [exact disconnect_twice | exact fixed_disconnect_twice].
Qed.

End DisconnectTheorem.

(** C7 as the specification words it ("leaves the bridge state unchanged")
    fails on a bridge that never connected: the call sets its stop flag. *)
Lemma disconnect_changes_never_connected_bridge :
  connected (bridge Scenario.fresh) = false
  /\ bridge (snd (disconnect_from_sumo Scenario.fresh))
     <> bridge Scenario.fresh
  /\ Fixed.connected (bridge Scenario.fixed_fresh) = false
  /\ bridge (snd (Fixed.disconnect_from_sumo Scenario.fixed_fresh))
     <> bridge Scenario.fixed_fresh.
Proof.
  split; [reflexivity|]. split; [vm_compute; discriminate|].
  split; [reflexivity | vm_compute; discriminate].
Qed.

Lemma disconnect_safe_and_idempotent_witness :
  (connected (bridge Scenario.fresh) = false
   /\ bridge (snd (disconnect_from_sumo Scenario.fresh))
      = set_stop_updates true (bridge Scenario.fresh)
   /\ issued (snd (disconnect_from_sumo Scenario.fresh)) = [])
  /\ ((connected (bridge Scenario.with_process) = true ->
       fst (traci_close (world Scenario.with_process)) = Ok tt)
      /\ same_but_log
           (snd (disconnect_from_sumo Scenario.with_process))
           (snd (disconnect_from_sumo
                   (snd (disconnect_from_sumo Scenario.with_process))))).
Proof.
  pose proof (@disconnect_safe_and_idempotent Sim.World _)
    as (_ & _ & Hoff & _ & Htwice & _).
  assert (Hfresh : connected (bridge Scenario.fresh) = false) by reflexivity.
  assert (Hclose : connected (bridge Scenario.with_process) = true ->
                   fst (traci_close (world Scenario.with_process)) = Ok tt)
    by (intros _; reflexivity).
  split.
  - destruct (Hoff Scenario.fresh Hfresh) as (_ & Hi & _ & _ & Hb).
    split; [exact Hfresh|]. split; [exact Hb | exact Hi].
  - split; [exact Hclose | exact (Htwice Scenario.with_process Hclose)].
Defined.

(** When the first [traci.close()] raises, the exception is caught and
    [connected] stays set; a second disconnect closes the session. *)
Example disconnect_after_refused_close :
  let disconnect := @disconnect_from_sumo _ Flaky.engine in
  let once := snd (disconnect Flaky.refusing_close) in
  let twice := snd (disconnect once) in
  fst (disconnect Flaky.refusing_close) = Ok tt
  /\ (connected (bridge once), errors (log once)) = (true, 1%nat)
  /\ (connected (bridge twice), errors (log twice)) = (false, 1%nat).
Proof. vm_compute. repeat split. Qed.

(** ** Stopping (C5) *)

Lemma errors_app (l l' : list LogEvent) :
  errors (l ++ l') = (errors l + errors l')%nat.
Proof. unfold errors. now rewrite filter_app, length_app. Qed.

(** Close a branch in which an error was logged although none was. *)
Ltac no_error_logged H :=
  exfalso; rewrite ?errors_app in H; cbn in H; lia.

Section Stop.
Context {W : Type} `{External W}.

Lemma stop_sumo_process_noop (r : Runtime W Bridge) :
  connected (bridge r) = false -> sumo_process (bridge r) = None ->
  stop_sumo_process r = (Ok tt, r).
Proof.
  destruct r as [w c b ts cs l]; destruct b. simpl. intros -> ->.
  reflexivity.
Qed.

Lemma stop_sumo_process_never_raises (r : Runtime W Bridge) :
  fst (stop_sumo_process r) = Ok tt.
Proof.
  destruct r as [w c b ts cs l]; destruct b.
  unfold stop_sumo_process, disconnect_from_sumo, stop_data_updates.
  unfold_prims. crunch; reflexivity.
Qed.

(** A stop that logged no error left the bridge disconnected and without a
    process handle. *)
Lemma clean_stop_stops (r : Runtime W Bridge) :
  errors (log (snd (stop_sumo_process r))) = errors (log r) ->
  connected (bridge (snd (stop_sumo_process r))) = false
  /\ sumo_process (bridge (snd (stop_sumo_process r))) = None.
Proof.
  destruct r as [w c b ts cs l]; destruct b.
  unfold stop_sumo_process, disconnect_from_sumo, stop_data_updates.
  unfold_prims.
  crunch; intros Hclean; try (split; reflexivity); no_error_logged Hclean.
Qed.

End Stop.

Section StopClaim.
Context {W : Type} `{External W}.

Lemma handle_stop_sumo (r : Runtime W Bridge) :
  handle POST_stop_sumo r
  = (Ok (mkResponse 200 true "SUMO stopped successfully" NoData),
     snd (stop_sumo_process r)).
Proof.
  pose proof (stop_sumo_process_never_raises r) as Hok.
  unfold handle, try_except, bind, ret.
  destruct (stop_sumo_process r) as [[[]|e] r']; simpl in *;
    [reflexivity | discriminate].
Qed.

(** C5.  Stopping a bridge that is not connected and holds no process
    handle (already stopped, or never started) does nothing at all.  A
    stop whose teardown raised nothing (no error was logged) is followed by
    a second stop that does nothing: the whole runtime, and so the process
    handle, the connection flags and the cache, is the same after two
    calls as after one; this holds for [stop_sumo_process] and for the
    [POST /stop-sumo] route, which always answers with success.  (After a
    stop that caught an exception the second stop retries the teardown and
    may change the state.) *)
Theorem stop_is_idempotent :
  (forall r : Runtime W Bridge,
     connected (bridge r) = false -> sumo_process (bridge r) = None ->
     stop_sumo_process r = (Ok tt, r))
  /\ (forall r : Runtime W Bridge,
        logs_no_error stop_sumo_process r ->
        let r1 := snd (stop_sumo_process r) in
        stop_sumo_process r1 = (Ok tt, r1))
  /\ (forall r : Runtime W Bridge,
        logs_no_error stop_sumo_process r ->
        let once := snd (handle POST_stop_sumo r) in
        let twice := snd (handle POST_stop_sumo once) in
        twice = once
        /\ observable (bridge twice) = observable (bridge once)
        /\ fst (handle POST_stop_sumo once)
           = Ok (mkResponse 200 true "SUMO stopped successfully" NoData)).
Proof.
  split; [exact stop_sumo_process_noop|].
  assert (Hsecond : forall r : Runtime W Bridge,
             logs_no_error stop_sumo_process r ->
             stop_sumo_process (snd (stop_sumo_process r))
             = (Ok tt, snd (stop_sumo_process r))).
  { intros r Hclean. destruct (clean_stop_stops r Hclean) as [Hoff Hnone].
    now apply stop_sumo_process_noop. }
  split; [exact Hsecond|].
  intros r Hclean once twice. subst once twice.
  rewrite !handle_stop_sumo. simpl. rewrite (Hsecond r Hclean). simpl.
  repeat split.
Qed.

End StopClaim.

Lemma stop_is_idempotent_witness :
  logs_no_error stop_sumo_process Scenario.with_process
  /\ (let r1 := snd (stop_sumo_process Scenario.with_process) in
      stop_sumo_process r1 = (Ok tt, r1))
  /\ (connected (bridge Scenario.fresh) = false
      /\ sumo_process (bridge Scenario.fresh) = None
      /\ stop_sumo_process Scenario.fresh = (Ok tt, Scenario.fresh)).
Proof.
  pose proof (@stop_is_idempotent Sim.World _) as (Hnoop & Hsecond & _).
  assert (Hclean : logs_no_error stop_sumo_process Scenario.with_process)
    by reflexivity.
  assert (Hoff : connected (bridge Scenario.fresh) = false) by reflexivity.
  assert (Hnone : sumo_process (bridge Scenario.fresh) = None) by reflexivity.
  split; [exact Hclean|]. split; [exact (Hsecond _ Hclean)|].
  split; [exact Hoff|]. split; [exact Hnone | exact (Hnoop _ Hoff Hnone)].
Defined.

(** What the first stop of a connected bridge with a process does: it
    closes the session, clears both flags and drops the handle. *)
Example stop_with_process :
  let r1 := snd (stop_sumo_process Scenario.with_process) in
  (connected (bridge r1), simulation_running (bridge r1),
   sumo_process (bridge r1), stop_updates (bridge r1), issued r1)
  = (false, false, None, true, [CmdClose]).
Proof. reflexivity. Qed.

(** C5 as the specification words it ("for every bridge state") fails when
    the first teardown raises.  On an engine that refuses [traci.close()]
    once, the first stop catches the exception and logs it, leaves both
    connection flags set and drops the process handle; the second stop
    closes the session and clears the flags, so that two stops do not leave
    the observable state of one.  The same holds of the route. *)
Lemma stop_twice_differs_after_refused_close :
  let stop := @stop_sumo_process _ Flaky.engine in
  let route := @handle _ Flaky.engine POST_stop_sumo in
  let once := snd (stop Flaky.refusing_close) in
  let twice := snd (stop once) in
  (connected (bridge once), simulation_running (bridge once),
   sumo_process (bridge once)) = (true, true, None)
  /\ (connected (bridge twice), simulation_running (bridge twice),
      sumo_process (bridge twice)) = (false, false, None)
  /\ errors (log once) = 1%nat
  /\ observable (bridge twice) <> observable (bridge once)
  /\ observable (bridge (snd (route (snd (route Flaky.refusing_close)))))
     <> observable (bridge (snd (route Flaky.refusing_close))).
Proof.
  intros stop route once twice.
  split; [vm_compute; reflexivity|]. split; [vm_compute; reflexivity|].
  split; [vm_compute; reflexivity|].
  split; vm_compute; discriminate.
Qed.

(** ** Overrides (C2) *)

Section Override.
Context {W : Type} `{External W}.

(** What [update_simulation_data] publishes depends on the world and on the
    bridge object only. *)
Lemma update_simulation_data_reads (r r' : Runtime W Bridge) :
  world r' = world r -> bridge r' = bridge r ->
  bridge (snd (update_simulation_data r'))
  = bridge (snd (update_simulation_data r))
  /\ world (snd (update_simulation_data r')) = world r.
Proof.
  destruct r as [w c b ts cs l], r' as [w' c' b' ts' cs' l']. simpl.
  intros -> ->. destruct b.
  unfold update_simulation_data, sample_all, sample, mark_if_connection_lost.
  unfold_prims. crunch; split; reflexivity.
Qed.

Lemma override_never_raises id phase duration (r : Runtime W Bridge) :
  exists ok, fst (override_traffic_light id phase duration r) = Ok ok.
Proof.
  destruct r as [w c b ts cs l]; destruct b.
  unfold override_traffic_light. unfold_prims. crunch; eexists; reflexivity.
Qed.

(** The override writes no attribute of the bridge, the cache included. *)
Lemma override_keeps_bridge id phase duration (r : Runtime W Bridge) :
  let r' := snd (override_traffic_light id phase duration r) in
  bridge r' = bridge r /\ threads r' = threads r /\ cwd r' = cwd r.
Proof.
  destruct r as [w c b ts cs l]; destruct b.
  unfold override_traffic_light. unfold_prims. crunch; repeat split.
Qed.

Lemma override_when_disconnected id phase duration (r : Runtime W Bridge) :
  connected (bridge r) = false ->
  override_traffic_light id phase duration r = (Ok false, r).
Proof.
  destruct r as [w c b ts cs l]; destruct b. simpl. intros ->. reflexivity.
Qed.

Lemma override_when_rejected id phase duration (r : Runtime W Bridge) e :
  connected (bridge r) = true ->
  trafficlight_getProgram (world r) id = Raise e ->
  let out := override_traffic_light id phase duration r in
  fst out = Ok false /\ world (snd out) = world r
  /\ issued (snd out) = issued r.
Proof.
  destruct r as [w c b ts cs l]; destruct b. simpl. intros -> Hprog.
  unfold override_traffic_light. unfold_prims. simpl. rewrite Hprog.
  simpl. repeat split.
Qed.

End Override.

Section OverrideClaim.
Context {W : Type} `{External W}.


End OverrideClaim.



(** ** Snapshots and ticks (C1) *)

Section Snapshot.
Context {W : Type} `{External W}.

Lemma sampled_vehicle_timestamp (w : W) (id : string)
  (p : VehicleData * string) :
  sample_vehicle w id = Ok p -> v_timestamp (fst p) = (time_time w * 1000)%Q.
Proof.
  unfold sample_vehicle, rbind. intros Hs.
  destruct (vehicle_getPosition w id); [|discriminate].
  destruct (vehicle_getSpeed w id); [|discriminate].
  destruct (vehicle_getAngle w id); [|discriminate].
  destruct (vehicle_getTypeID w id); [|discriminate].
  destruct (vehicle_getRoadID w id); [|discriminate].
  destruct (vehicle_getLaneID w id); [|discriminate].
  destruct (vehicle_getRoute w id); [|discriminate].
  destruct (vehicle_getWaitingTime w id); [|discriminate].
  destruct (vehicle_getDistance w id); [|discriminate].
  injection Hs as <-. reflexivity.
Qed.

(** A refresh in which every list of ids and the stats getters answer
    publishes a cache computed from the world alone. *)
Lemma refresh_forgets_old_cache (r r' : Runtime W Bridge) :
  world r' = world r ->
  connected (bridge r) = true -> connected (bridge r') = true ->
  tick_sampled (world r) = true ->
  cache (bridge (snd (update_simulation_data r')))
  = cache (bridge (snd (update_simulation_data r))).
Proof.
  destruct r as [w c b ts cs l], r' as [w' c' b' ts' cs' l']. simpl.
  intros -> Hon Hon' Hok. destruct b, b'. simpl in Hon, Hon'. subst.
  unfold tick_sampled, stats_available in Hok.
  repeat (apply andb_true_iff in Hok as [Hok ?]).
  unfold update_simulation_data, sample_all, sample, mark_if_connection_lost.
  unfold update_vehicles_data, update_intersections_data, update_roads_data,
    update_simulation_stats, rbind.
  unfold_prims. cbn [bridge world connected negb fst snd].
  destruct (vehicle_getIDList w) as [vids|]; [|discriminate].
  destruct (fold_left (vehicles_step w) vids ([], [], []))
    as [[vehicles emergency_vehicles] vlogs].
  cbn [bridge world fst snd set_bridge set_log].
  destruct (trafficlight_getIDList w) as [tids|]; [|discriminate].
  destruct (fold_left (intersections_step w) tids ([], []))
    as [intersections ilogs].
  cbn [bridge world fst snd set_bridge set_log].
  destruct (edge_getIDList w) as [eids|]; [|discriminate].
  destruct (fold_left (roads_step w) (firstn 50 eids) ([], []))
    as [roads rlogs].
  cbn [bridge world fst snd set_bridge set_log].
  destruct (simulation_getTime w); [|discriminate].
  destruct (simulation_getLoadedNumber w); [|discriminate].
  destruct (simulation_getDepartedNumber w); [|discriminate].
  destruct (simulation_getArrivedNumber w); [|discriminate].
  cbn [bridge world fst snd set_bridge set_log].
  destruct (simulation_getMinExpectedNumber w) as [n|e];
    [destruct (n =? 0)%Z; reflexivity|].
  cbn beta iota. destruct (is_connection_error e); reflexivity.
Qed.

End Snapshot.

Section Refresh.
Context {W : Type} `{External W}.

(** The cache after a refresh is the cache after the four updates, run in
    order on the same world. *)
Lemma refresh_cache (r : Runtime W Bridge) :
  connected (bridge r) = true ->
  let b1 := fst (update_vehicles_data (world r) (bridge r)) in
  let b2 := fst (update_intersections_data (world r) b1) in
  let b3 := fst (update_roads_data (world r) b2) in
  cache (bridge (snd (update_simulation_data r)))
  = cache (fst (update_simulation_stats (world r) b3)).
Proof.
  destruct r as [w c b ts cs l]. cbn [bridge world]. intros Hon.
  unfold update_simulation_data, sample_all, sample, mark_if_connection_lost.
  unfold_prims. cbn [bridge world fst snd]. rewrite Hon.
  cbn [negb bridge world fst snd].
  destruct (update_vehicles_data w b) as [b1 l1].
  cbn [bridge world fst snd set_bridge set_log].
  destruct (update_intersections_data w b1) as [b2 l2].
  cbn [bridge world fst snd set_bridge set_log].
  destruct (update_roads_data w b2) as [b3 l3].
  cbn [bridge world fst snd set_bridge set_log].
  destruct (update_simulation_stats w b3) as [b4 l4].
  cbn [bridge world fst snd set_bridge set_log].
  destruct (simulation_getMinExpectedNumber w) as [n|e];
    [destruct (n =? 0)%Z; reflexivity|].
  cbn beta iota. destruct (is_connection_error e); reflexivity.
Qed.

Lemma update_intersections_data_vehicles (w : W) (b : Bridge) :
  vehicles_data (fst (update_intersections_data w b)) = vehicles_data b.
Proof.
  unfold update_intersections_data.
  destruct (trafficlight_getIDList w); [|reflexivity].
  destruct (fold_left _ _ _). reflexivity.
Qed.

Lemma update_roads_data_vehicles (w : W) (b : Bridge) :
  vehicles_data (fst (update_roads_data w b)) = vehicles_data b.
Proof.
  unfold update_roads_data. destruct (edge_getIDList w); [|reflexivity].
  destruct (fold_left _ _ _). reflexivity.
Qed.

Lemma update_simulation_stats_vehicles (w : W) (b : Bridge) :
  vehicles_data (fst (update_simulation_stats w b)) = vehicles_data b.
Proof. unfold update_simulation_stats. destruct (rbind _ _); reflexivity. Qed.

(** What a successful stats update publishes. *)
Lemma published_stats (w : W) (b : Bridge) :
  stats_available w = true ->
  exists stats,
    simulation_stats (fst (update_simulation_stats w b)) = Some stats
    /\ simulation_getTime w = Ok (st_currentTime stats)
    /\ st_timestamp stats = (time_time w * 1000)%Q.
Proof.
  unfold stats_available, update_simulation_stats, rbind. intros Hok.
  destruct (simulation_getTime w); [|discriminate].
  destruct (simulation_getLoadedNumber w); [|discriminate].
  destruct (simulation_getDepartedNumber w); [|discriminate].
  destruct (simulation_getArrivedNumber w); [|discriminate].
  eexists. repeat split.
Qed.

(** C1, as the code has it.  The cache has no snapshot object: each of its
    five fields is assigned on its own, and a field whose update fails keeps
    the value of an earlier tick.  A refresh in which every id list and the
    stats getters answer publishes a cache computed from the engine state of
    that tick alone, whatever the cache held before; in it every vehicle
    [timestamp] is the wall clock of the tick in milliseconds, and the
    stats' [currentTime] is the simulation time of the engine, a different
    clock, so that no bound relates the two. *)
Theorem refresh_publishes_one_tick (r r' : Runtime W Bridge) :
  world r' = world r ->
  connected (bridge r) = true -> connected (bridge r') = true ->
  tick_sampled (world r) = true ->
  let published := bridge (snd (update_simulation_data r)) in
  cache (bridge (snd (update_simulation_data r'))) = cache published
  /\ (forall v, In v (vehicles_data published) ->
        v_timestamp v = (time_time (world r) * 1000)%Q)
  /\ (exists stats,
        simulation_stats published = Some stats
        /\ simulation_getTime (world r) = Ok (st_currentTime stats)
        /\ st_timestamp stats = (time_time (world r) * 1000)%Q).
Proof.
  intros Hw Hon Hon' Hok published.
  split; [now apply refresh_forgets_old_cache|].
  pose proof (refresh_cache r Hon) as Hcache. cbv zeta in Hcache.
  fold published in Hcache.
  unfold cache in Hcache. injection Hcache as Hv _ _ _ Hs.
  unfold tick_sampled in Hok.
  apply andb_true_iff in Hok as [Hok Hstats].
  apply andb_true_iff in Hok as [Hok _].
  apply andb_true_iff in Hok as [Hids _].
  split.
  - intros v Hin. rewrite Hv in Hin.
    rewrite update_simulation_stats_vehicles, update_roads_data_vehicles,
      update_intersections_data_vehicles in Hin.
    destruct (vehicle_getIDList (world r)) as [ids|] eqn:Hl; [|discriminate].
    destruct (published_vehicles (world r) (bridge r) Hl) as [Hpub _].
    rewrite Hpub in Hin. apply in_map_iff in Hin as (p & <- & Hp).
    apply filter_In in Hp as [Hp _]. apply sampled_inv in Hp as [_ Hp].
    exact (sampled_vehicle_timestamp _ _ Hp).
  - rewrite Hs. now apply published_stats.
Qed.

End Refresh.

Lemma refresh_publishes_one_tick_witness :
  let r := Sim.polling Scenario.busy_world in
  let r' := Scenario.stale in
  world r' = world r
  /\ connected (bridge r) = true /\ connected (bridge r') = true
  /\ tick_sampled (world r) = true
  /\ cache (bridge r') <> cache (bridge r)
  /\ cache (bridge (snd (update_simulation_data r')))
     = cache (bridge (snd (update_simulation_data r))).
Proof.
  intros r r'.
  assert (Hw : world r' = world r) by reflexivity.
  assert (Hon : connected (bridge r) = true) by reflexivity.
  assert (Hon' : connected (bridge r') = true) by reflexivity.
  assert (Hok : tick_sampled (world r) = true) by reflexivity.
  destruct (refresh_publishes_one_tick r r' Hw Hon Hon' Hok) as (Hsame & _).
  repeat split; try assumption. vm_compute. discriminate.
Defined.

(** C1 as the specification words it fails twice over.  After one completed
    tick the vehicle [timestamp] (wall clock, milliseconds since the epoch) and the
    stats' [currentTime] (simulation seconds) are further apart than any
    tick interval; and after a second tick in which the stats update fails,
    the cache serves the vehicles of that tick with the stats of the tick
    before. *)
Lemma snapshot_mixes_clocks_and_ticks :
  let one := run [Turn 0%nat] (Sim.polling Scenario.flaky_stats) in
  let two := run [Turn 0%nat; Turn 0%nat] (Sim.polling Scenario.flaky_stats) in
  (map v_timestamp (vehicles_data (bridge one)) = [1700000000 * 1000]%Q
   /\ option_map st_currentTime (simulation_stats (bridge one))
      = Some (TFloat 1)
   /\ forall v stats interval,
        In v (vehicles_data (bridge one)) ->
        simulation_stats (bridge one) = Some stats ->
        (interval <= 1000000)%Q ->
        ~ within_one_tick interval v stats)
  /\ (map v_id (vehicles_data (bridge two)) = ["veh0"; "veh1"]
      /\ option_map st_activeVehicles (simulation_stats (bridge two))
         = Some 1%nat
      /\ option_map st_currentTime (simulation_stats (bridge two))
         = Some (TFloat 1)
      /\ simulation_getTime (world two) = Ok (TFloat 2)
      /\ alive (thread_of two 0) = true).
Proof.
  intros one two. split; [split; [|split]|].
  - vm_compute. reflexivity.
  - vm_compute. reflexivity.
  - intros v stats interval Hin Hstats Hle Hbound.
    vm_compute in Hin. destruct Hin as [<-|[]].
    vm_compute in Hstats. injection Hstats as <-.
    unfold within_one_tick in Hbound. cbn in Hbound.
    destruct interval as [n d]. unfold Qle in *. cbn in *. lia.
  - vm_compute. repeat split.
Qed.

(** ** The update loop and connection errors (C3) *)

Section LoopFacts.
Context {W : Type} `{External W}.

Lemma update_simulation_data_never_raises (r : Runtime W Bridge) :
  fst (update_simulation_data r) = Ok tt.
Proof.
  unfold update_simulation_data, mark_if_connection_lost.
  unfold_prims. cbn [fst snd].
  destruct (negb (connected (bridge r))); [reflexivity|].
  destruct (sample_all r) as [[[]|e] r']; [reflexivity|].
  destruct (is_connection_error e); reflexivity.
Qed.

(** Rewriting the loop variables of a thread leaves the bridge alone. *)
Lemma modify_thread_keeps_bridge (b : Bridge) i f :
  preserves (fun r : Runtime W Bridge => bridge r = b) (modify_thread i f).
Proof. intros r Hr. exact Hr. Qed.

(** Counting an update or recording a time does not end or revive any
    thread. *)
Lemma modify_thread_keeps_alive (j : nat) (a : bool) i f :
  (forall t, alive (f t) = alive t) ->
  preserves (fun r : Runtime W Bridge => alive (thread_of r j) = a)
            (modify_thread i f).
Proof.
  intros Hf r Hr. unfold thread_of in *. simpl. rewrite nth_list_set.
  destruct ((j =? i)%nat && (i <? List.length (threads r))%nat) eqn:Hji;
    [|exact Hr].
  apply andb_true_iff in Hji as [Hji _]. apply Nat.eqb_eq in Hji. subst j.
  now rewrite Hf.
Qed.

Lemma step_and_check_keeps_bridge (i : nat) (r : Runtime W Bridge) :
  bridge (snd (step_and_check i r)) = bridge r.
Proof.
  assert (Hstate : state_only (fun r' : Runtime W Bridge => bridge r' = bridge r))
    by (intros r1 r2 Hb _ Hr1; congruence).
  assert (Hp : preserves (fun r' : Runtime W Bridge => bridge r' = bridge r)
                 (step_and_check i)).
  { unfold step_and_check. preserve; apply modify_thread_keeps_bridge. }
  exact (Hp r eq_refl).
Qed.

Lemma step_and_check_keeps_alive (i j : nat) (r : Runtime W Bridge) :
  alive (thread_of (snd (step_and_check i r)) j) = alive (thread_of r j).
Proof.
  set (a := alive (thread_of r j)).
  assert (Hstate : state_only
            (fun r' : Runtime W Bridge => alive (thread_of r' j) = a))
    by (intros r1 r2 _ Ht Hr1; unfold thread_of in *; now rewrite Ht).
  assert (Hp : preserves
            (fun r' : Runtime W Bridge => alive (thread_of r' j) = a)
            (step_and_check i)).
  { unfold step_and_check.
    preserve; apply modify_thread_keeps_alive; intros []; reflexivity. }
  exact (Hp r eq_refl).
Qed.

End LoopFacts.

Section Turns.
Context {W : Type} `{External W}.

(** The four updates write the cache and nothing else. *)
Lemma sample_all_keeps_control (r : Runtime W Bridge) :
  control (bridge (snd (sample_all r))) = control (bridge r)
  /\ threads (snd (sample_all r)) = threads r.
Proof.
  set (P := fun r' : Runtime W Bridge =>
              control (bridge r') = control (bridge r)
              /\ threads r' = threads r).
  assert (Hcontrol : control_only P).
  { intros r1 r2 Hc Ht [Hc1 Ht1]. split; congruence. }
  assert (Hstate : state_only P) by now apply control_only_state_only.
  assert (Hp : preserves P sample_all).
  { unfold sample_all.
    preserve; apply preserves_sample; auto with actions. }
  apply (Hp r). split; reflexivity.
Qed.

Lemma loop_running_control (r r' : Runtime W Bridge) (i : nat) :
  control (bridge r') = control (bridge r) ->
  alive (thread_of r' i) = alive (thread_of r i) ->
  loop_running r i -> loop_running r' i.
Proof.
  unfold loop_running, control. intros Hc Ha (Halive & Hstop & Hon).
  injection Hc as Hon' _ _ _ Hstop'. repeat split; congruence.
Qed.

(** While the loop condition holds, a turn is the [try] statement. *)
Lemma turn_when_running (r : Runtime W Bridge) (i : nat) :
  loop_running r i ->
  update_data_loop_step i r
  = try_except (loop_try_body i) (loop_handler i) r.
Proof.
  intros (Halive & Hstop & Hon).
  unfold update_data_loop_step, bind, get_thread, get_bridge, gets.
  cbv beta iota. rewrite Halive, Hstop, Hon. reflexivity.
Qed.

(** When it does not, a turn of a live thread ends the thread. *)
Lemma turn_when_stopped (r : Runtime W Bridge) (i : nat) :
  alive (thread_of r i) = true ->
  negb (stop_updates (bridge r)) && connected (bridge r) = false ->
  update_data_loop_step i r = loop_exit i r.
Proof.
  intros Halive Hcond.
  unfold update_data_loop_step, bind, get_thread, get_bridge, gets.
  cbv beta iota. rewrite Halive, Hcond. reflexivity.
Qed.

Lemma loop_exit_ends_thread (r : Runtime W Bridge) (i : nat) :
  alive (thread_of (snd (loop_exit i r)) i) = false
  /\ bridge (snd (loop_exit i r)) = bridge r
  /\ world (snd (loop_exit i r)) = world r
  /\ issued (snd (loop_exit i r)) = issued r.
Proof.
  unfold loop_exit. unfold_prims. cbn. repeat split.
  unfold thread_of. cbn. rewrite nth_list_set.
  destruct ((i =? i)%nat && (i <? List.length (threads r))%nat) eqn:Hi;
    [reflexivity|].
  rewrite Nat.eqb_refl in Hi. simpl in Hi. apply Nat.ltb_ge in Hi.
  now rewrite nth_overflow.
Qed.

(** The body of the loop raises only where [step_and_check] does. *)
Lemma loop_try_body_cases (r : Runtime W Bridge) (i : nat) :
  (exists e, loop_try_body i r = (Raise e, snd (step_and_check i r))
             /\ fst (step_and_check i r) = Raise e)
  \/ (fst (step_and_check i r) = Ok tt
      /\ loop_try_body i r
         = (Ok tt,
            snd (sleep 0.1
                   (snd (update_simulation_data (snd (step_and_check i r))))))).
Proof.
  unfold loop_try_body, bind.
  destruct (step_and_check i r) as [[[]|e] r1]; simpl.
  - right. split; [reflexivity|].
    pose proof (update_simulation_data_never_raises r1) as Hok.
    destruct (update_simulation_data r1) as [res r2]. simpl in Hok. subst res.
    reflexivity.
  - left. exists e. split; reflexivity.
Qed.

End Turns.

Section Halting.
Context {W : Type} `{External W}.

Lemma turn_when_dead (r : Runtime W Bridge) (i : nat) :
  alive (thread_of r i) = false -> update_data_loop_step i r = (Ok tt, r).
Proof.
  intros Hdead. unfold update_data_loop_step, bind, get_thread, gets.
  cbv beta iota. rewrite Hdead. reflexivity.
Qed.

Lemma update_simulation_data_when_connected (r : Runtime W Bridge) :
  connected (bridge r) = true ->
  update_simulation_data r = try_except sample_all mark_if_connection_lost r.
Proof.
  intros Hon. unfold update_simulation_data, bind, get_bridge, gets.
  cbv beta iota. rewrite Hon. reflexivity.
Qed.

Lemma mark_if_connection_lost_spec (e : exn) (r : Runtime W Bridge) :
  let r' := snd (mark_if_connection_lost e r) in
  threads r' = threads r
  /\ bridge r'
     = if is_connection_error e
       then set_simulation_running false (set_connected false (bridge r))
       else bridge r.
Proof.
  unfold mark_if_connection_lost. unfold_prims. cbn.
  destruct (is_connection_error e); split; reflexivity.
Qed.

Lemma ended_thread_is_dead (ts : list LoopThread) (i : nat) (t : LoopThread) :
  alive (nth i (list_set ts i (set_alive false t)) dead_thread) = false.
Proof.
  rewrite nth_list_set.
  destruct ((i =? i)%nat && (i <? List.length ts)%nat) eqn:Hi; [reflexivity|].
  rewrite Nat.eqb_refl in Hi. simpl in Hi. apply Nat.ltb_ge in Hi.
  now rewrite nth_overflow.
Qed.

Lemma loop_handler_spec (i : nat) (e : exn) (r : Runtime W Bridge) :
  let r' := snd (loop_handler i e r) in
  if is_connection_error e
  then connected (bridge r') = false
       /\ simulation_running (bridge r') = false
       /\ alive (thread_of r' i) = false
  else bridge r' = bridge r /\ threads r' = threads r.
Proof.
  unfold loop_handler. unfold_prims. cbn beta iota.
  destruct (is_connection_error e); cbn.
  - repeat split. apply ended_thread_is_dead.
  - split; reflexivity.
Qed.

End Halting.

Section LoopClaim.
Context {W : Type} `{External W}.

(** A turn that fails with a connection error marks the session
    disconnected; the thread has ended by the end of its next turn. *)
Lemma connection_error_halts (r : Runtime W Bridge) (i : nat) (e : exn) :
  loop_running r i -> tick_fails r i e -> is_connection_error e = true ->
  connected (bridge (turn i r)) = false
  /\ simulation_running (bridge (turn i r)) = false
  /\ alive (thread_of (turn i (turn i r)) i) = false.
Proof.
  intros Hrun Hfail Hconn. pose proof Hrun as (Halive & Hstop & Hon).
  unfold turn at 1 2 4. rewrite (turn_when_running Hrun). unfold try_except.
  destruct (loop_try_body_cases r i) as [(e' & Hbody & Hraise) | (Hok & Hbody)];
    rewrite Hbody.
  - assert (e' = e) as ->
      by (destruct Hfail as [Hf | [Hf _]]; congruence).
    pose proof (loop_handler_spec i e (snd (step_and_check i r))) as Hh.
    cbv zeta in Hh. rewrite Hconn in Hh. destruct Hh as (Hoff & Hrunning & Hdead).
    repeat split; try assumption.
    unfold turn. now rewrite (turn_when_dead _ _ Hdead).
  - destruct Hfail as [Hf | [_ Hf]]; [congruence|].
    set (r2 := snd (step_and_check i r)) in *.
    assert (Hon2 : connected (bridge r2) = true)
      by (unfold r2; now rewrite step_and_check_keeps_bridge).
    rewrite (update_simulation_data_when_connected _ Hon2).
    unfold try_except. destruct (sample_all r2) as [res r3] eqn:Hsample.
    simpl in Hf. subst res.
    pose proof (mark_if_connection_lost_spec e r3) as [Ht Hb].
    rewrite Hconn in Hb.
    set (r4 := snd (mark_if_connection_lost e r3)) in *.
    unfold sleep, act. cbn [snd fst bridge set_world].
    assert (Hoff : connected (bridge r4) = false) by now rewrite Hb.
    split; [exact Hoff|]. split; [now rewrite Hb|].
    set (r5 := set_world (time_sleep 0.1 (world r4)) r4).
    assert (Halive5 : alive (thread_of r5 i) = true).
    { unfold thread_of, r5. cbn [threads set_world]. rewrite Ht.
      pose proof (sample_all_keeps_control r2) as [_ Ht3].
      rewrite Hsample in Ht3. cbn [snd] in Ht3. rewrite Ht3.
      fold (thread_of r2 i). unfold r2.
      now rewrite step_and_check_keeps_alive. }
    unfold turn. rewrite (turn_when_stopped _ _ Halive5).
    + apply loop_exit_ends_thread.
    + unfold r5. cbn [bridge set_world]. rewrite Hoff. apply andb_false_r.
Qed.

(** A turn without a connection error leaves the loop running. *)
Lemma other_errors_do_not_halt (r : Runtime W Bridge) (i : nat) :
  loop_running r i ->
  (forall e, tick_fails r i e -> is_connection_error e = false) ->
  loop_running (turn i r) i.
Proof.
  intros Hrun Hnone. pose proof Hrun as (Halive & Hstop & Hon).
  unfold turn. rewrite (turn_when_running Hrun). unfold try_except.
  set (r2 := snd (step_and_check i r)).
  assert (Hrun2 : loop_running r2 i).
  { apply loop_running_control with (r := r); [|
      apply step_and_check_keeps_alive | exact Hrun].
    unfold r2. now rewrite step_and_check_keeps_bridge. }
  destruct (loop_try_body_cases r i) as [(e & Hbody & Hraise) | (Hok & Hbody)];
    rewrite Hbody.
  - pose proof (loop_handler_spec i e r2) as Hh. cbv zeta in Hh.
    rewrite (Hnone e (or_introl Hraise)) in Hh. destruct Hh as [Hb Ht].
    cbv beta iota. fold r2.
    apply loop_running_control with (r := r2); [now rewrite Hb | | exact Hrun2].
    unfold thread_of. now rewrite Ht.
  - cbv beta iota. fold r2. pose proof Hrun2 as (_ & _ & Hon2).
    rewrite (update_simulation_data_when_connected _ Hon2).
    unfold try_except. destruct (sample_all r2) as [res r3] eqn:Hsample.
    pose proof (sample_all_keeps_control r2) as [Hc3 Ht3].
    rewrite Hsample in Hc3, Ht3. cbn [snd] in Hc3, Ht3.
    assert (Hrun3 : loop_running r3 i).
    { apply loop_running_control with (r := r2); [exact Hc3 | | exact Hrun2].
      unfold thread_of. now rewrite Ht3. }
    destruct res as [[]|e].
    + unfold sleep, act. cbn [snd fst].
      apply loop_running_control with (r := r3); [reflexivity | reflexivity
                                                  | exact Hrun3].
    + pose proof (mark_if_connection_lost_spec e r3) as [Ht Hb].
      assert (Hf : tick_fails r i e).
      { right. split; [exact Hok|]. fold r2. now rewrite Hsample. }
      rewrite (Hnone e Hf) in Hb.
      unfold sleep, act. cbn [snd fst].
      apply loop_running_control with (r := r3); [| | exact Hrun3].
      * cbn [bridge set_world]. now rewrite Hb.
      * unfold thread_of. cbn [threads set_world]. now rewrite Ht.
Qed.

End LoopClaim.

Section NoRestart.
Context {W : Type} `{External W}.

Lemma halted_control_only : control_only (halted (W := W)).
Proof.
  intros r r' Hc Ht [Hoff Hdead]. unfold control in Hc.
  injection Hc as Hon _ _ _ _. split; [congruence|].
  intros i. unfold thread_of. rewrite Ht. apply Hdead.
Qed.

Lemma halted_write (f : Bridge -> Bridge) :
  (forall b, update_thread (f b) = update_thread b) ->
  (forall b, connected b = false -> connected (f b) = false) ->
  preserves (halted (W := W)) (modify_bridge f).
Proof.
  intros _ Hf. apply preserves_modify_bridge. intros r [Hoff Hdead].
  split; [now apply Hf | exact Hdead].
Qed.

Lemma halted_thread i (f : LoopThread -> LoopThread) :
  (forall t, alive (f t) = true -> alive t = true) ->
  preserves (halted (W := W)) (modify_thread i f).
Proof.
  intros Hf r [Hoff Hdead]. split; [exact Hoff|]. intros j.
  unfold thread_of. simpl. rewrite nth_list_set.
  destruct ((j =? i)%nat && (i <? List.length (threads r))%nat) eqn:Hji;
    [|apply Hdead].
  destruct (alive (f (thread_of r i))) eqn:Ha; [|reflexivity].
  apply Hf in Ha. now rewrite Hdead in Ha.
Qed.

Lemma halted_reads_state : state_only (halted (W := W)).
Proof. apply control_only_state_only, halted_control_only. Qed.

Local Hint Resolve halted_reads_state : actions.
Local Hint Extern 1 (preserves halted (step_until_vehicles _ _)) =>
  (apply step_until_vehicles_invariant; auto with actions) : actions.
Local Hint Extern 1 (preserves halted stop_data_updates) =>
  (apply stop_data_updates_invariant;
   auto using halted_control_only, halted_write, halted_thread) : actions.
Local Hint Extern 1 (preserves halted disconnect_from_sumo) =>
  (apply disconnect_from_sumo_invariant;
   auto using halted_control_only, halted_write, halted_thread) : actions.
Local Hint Extern 1 (preserves halted stop_sumo_process) =>
  (apply stop_sumo_process_invariant;
   auto using halted_control_only, halted_write, halted_thread) : actions.
Local Hint Extern 1 (preserves halted (override_traffic_light _ _ _)) =>
  (apply override_traffic_light_invariant;
   auto using halted_control_only, halted_write, halted_thread) : actions.

(** With the session marked disconnected, a resume request is refused. *)
Lemma resume_when_disconnected (r : Runtime W Bridge) :
  connected (bridge r) = false ->
  handle POST_simulation_resume r
  = (Ok (mkResponse 400 false "Not connected to SUMO" NoData), r).
Proof.
  intros Hoff. unfold handle. unfold_prims. cbn [fst snd].
  rewrite Hoff. reflexivity.
Qed.

Lemma handle_halted (q : Request) :
  connects (Api q) = false -> preserves halted (handle q).
Proof.
  destruct q; try discriminate; intros _;
    try solve [unfold handle, now, error_500; preserve; auto with actions].
  intros r Hr. destruct Hr as [Hoff Hdead].
  rewrite (resume_when_disconnected _ Hoff). split; assumption.
Qed.

Lemma exec_halted (s : Step) (r : Runtime W Bridge) :
  connects s = false -> halted r -> halted (exec s r).
Proof.
  destruct s as [q|i]; intros Hs Hr.
  - now apply handle_halted.
  - assert (Hp : preserves halted (update_data_loop_step i))
      by (apply update_data_loop_step_invariant;
          auto using halted_control_only, halted_write, halted_thread).
    exact (Hp r Hr).
Qed.

(** Once halted, the loop stays halted through every sequence of steps that
    contains no connect or start request. *)
Lemma run_halted (steps : list Step) (r : Runtime W Bridge) :
  forallb (fun s => negb (connects s)) steps = true ->
  halted r -> halted (run steps r).
Proof.
  revert r; induction steps as [|s steps IH]; intros r Hsteps Hr; simpl.
  - exact Hr.
  - simpl in Hsteps. apply andb_true_iff in Hsteps as [Hs Hsteps].
    apply IH; [exact Hsteps|]. apply exec_halted; [|exact Hr].
    now apply negb_true_iff.
Qed.

End NoRestart.

Section LoopTheorem.
Context {W : Type} `{External W}.

(** A turn revives no thread and does not reconnect. *)
Lemma turn_keeps_dead (i j : nat) (r : Runtime W Bridge) :
  alive (thread_of r j) = false -> alive (thread_of (turn i r) j) = false.
Proof.
  set (P := fun r' : Runtime W Bridge => alive (thread_of r' j) = false).
  assert (Hp : preserves P (update_data_loop_step i)).
  { apply update_data_loop_step_invariant.
    - intros r1 r2 _ Ht Hr1. unfold P, thread_of in *. now rewrite Ht.
    - intros f _ _. apply preserves_modify_bridge. intros r1 Hr1. exact Hr1.
    - intros k f Hf r1 Hr1. unfold P, thread_of in *. simpl.
      rewrite nth_list_set.
      destruct ((j =? k)%nat && (k <? List.length (threads r1))%nat) eqn:Hjk;
        [|exact Hr1].
      apply andb_true_iff in Hjk as [Hjk _]. apply Nat.eqb_eq in Hjk. subst k.
      unfold thread_of.
      destruct (alive (f (nth j (threads r1) dead_thread))) eqn:Ha;
        [|reflexivity].
      apply Hf in Ha. congruence. }
  exact (Hp r).
Qed.

Lemma turn_keeps_disconnected (i : nat) (r : Runtime W Bridge) :
  connected (bridge r) = false -> connected (bridge (turn i r)) = false.
Proof.
  set (P := fun r' : Runtime W Bridge => connected (bridge r') = false).
  assert (Hp : preserves P (update_data_loop_step i)).
  { apply update_data_loop_step_invariant.
    - intros r1 r2 Hc _ Hr1. unfold P, control in *.
      injection Hc as Hon _ _ _ _. congruence.
    - intros f _ Hf. apply preserves_modify_bridge. intros r1 Hr1.
      now apply Hf.
    - intros k f _ r1 Hr1. exact Hr1. }
  exact (Hp r).
Qed.


End LoopTheorem.


(** The polling bridge on [Scenario.pipe_world], at any clock, update count
    and log. *)
Lemma pipe_turn (c : Q) (k : nat) (cs : list Command) (l : list LogEvent) :
  let at_pipe c k cs l :=
    mkRuntime (Sim.mkWorld c (Sim.frames Scenario.pipe_world) [])
      "/home/operator" Sim.connected_bridge
      [{| alive := true; update_count := k; last_time := -1 |}] cs l in
  tick_fails (at_pipe c k cs l) 0 Scenario.broken_pipe
  /\ exists c' k' cs' l',
       turn 0 (at_pipe c k cs l) = at_pipe c' k' cs' l'.
Proof.
  intros at_pipe. split.
  - left. reflexivity.
  - unfold turn, update_data_loop_step. cbn. do 4 eexists. reflexivity.
Qed.


(** After the loop has halted on a lost connection, a resume request and
    further turns start nothing; a connect request starts a new thread. *)
Example only_connect_restarts :
  let r := run [Turn 0%nat] (Sim.polling Scenario.breaking_world) in
  map alive (threads r) = [false]
  /\ map alive
       (threads (run [Api POST_simulation_resume; Api GET_status;
                      Turn 0%nat; Api POST_simulation_pause;
                      Api POST_disconnect] r))
     = [false]
  /\ map alive (threads (run [Api POST_connect] r)) = [false; true].
Proof. vm_compute. repeat split. Qed.

(** ** Stalls (C4) *)

Lemma stall_warnings_app (l l' : list LogEvent) :
  stall_warnings (l ++ l') = (stall_warnings l + stall_warnings l')%nat.
Proof. unfold stall_warnings. now rewrite filter_app, length_app. Qed.

(** A message that begins with "E" ("Error ...") is not the stall warning. *)
Lemma error_message_is_no_stall (lvl : level) (rest : string) :
  stall_warnings [Log lvl (String "E" rest)] = 0%nat.
Proof. destruct lvl; reflexivity. Qed.

Section Quiet.
Context {W : Type} `{External W}.

(** None of the four updates logs a stall warning. *)

Lemma vehicles_fold_quiet (w : W) (ids : list string) (acc : vehicles_acc) :
  stall_warnings (snd (fold_left (vehicles_step w) ids acc))
  = stall_warnings (snd acc).
Proof.
  revert acc; induction ids as [|id rest IH]; intros acc; [reflexivity|].
  simpl. rewrite IH. destruct acc as [[vs es] logs]. unfold vehicles_step.
  destruct (sample_vehicle w id) as [[v ty]|e];
    [destruct (is_emergency_vehicle id ty); reflexivity|].
  simpl. rewrite stall_warnings_app, error_message_is_no_stall. simpl. lia.
Qed.

Lemma intersections_fold_quiet (w : W) (ids : list string)
  (acc : list IntersectionData * list LogEvent) :
  stall_warnings (snd (fold_left (intersections_step w) ids acc))
  = stall_warnings (snd acc).
Proof.
  revert acc; induction ids as [|id rest IH]; intros acc; [reflexivity|].
  simpl. rewrite IH. destruct acc as [xs logs]. unfold intersections_step.
  destruct (sample_intersection w id); [reflexivity|].
  simpl. rewrite stall_warnings_app, error_message_is_no_stall. simpl. lia.
Qed.

Lemma roads_fold_quiet (w : W) (ids : list string)
  (acc : list RoadData * list LogEvent) :
  stall_warnings (snd (fold_left (roads_step w) ids acc))
  = stall_warnings (snd acc).
Proof.
  revert acc; induction ids as [|id rest IH]; intros acc; [reflexivity|].
  simpl. rewrite IH. destruct acc as [xs logs]. unfold roads_step.
  destruct (Py.startswith id ":"); [reflexivity|].
  destruct (sample_road w id); [reflexivity|].
  simpl. rewrite stall_warnings_app, error_message_is_no_stall. simpl. lia.
Qed.

Lemma update_vehicles_data_quiet (w : W) (b : Bridge) :
  stall_warnings (snd (update_vehicles_data w b)) = 0%nat.
Proof.
  unfold update_vehicles_data. destruct (vehicle_getIDList w); [|reflexivity].
  pose proof (vehicles_fold_quiet w a ([], [], [])) as Hq.
  destruct (fold_left _ _ _) as [[vs es] logs]. exact Hq.
Qed.

Lemma update_intersections_data_quiet (w : W) (b : Bridge) :
  stall_warnings (snd (update_intersections_data w b)) = 0%nat.
Proof.
  unfold update_intersections_data.
  destruct (trafficlight_getIDList w); [|reflexivity].
  pose proof (intersections_fold_quiet w a ([], [])) as Hq.
  destruct (fold_left _ _ _) as [xs logs]. exact Hq.
Qed.

Lemma update_roads_data_quiet (w : W) (b : Bridge) :
  stall_warnings (snd (update_roads_data w b)) = 0%nat.
Proof.
  unfold update_roads_data. destruct (edge_getIDList w); [|reflexivity].
  pose proof (roads_fold_quiet w (firstn 50 a) ([], [])) as Hq.
  destruct (fold_left _ _ _) as [xs logs]. exact Hq.
Qed.

Lemma update_simulation_stats_quiet (w : W) (b : Bridge) :
  stall_warnings (snd (update_simulation_stats w b)) = 0%nat.
Proof.
  unfold update_simulation_stats. destruct (rbind _ _); reflexivity.
Qed.

End Quiet.

Section StallLog.
Context {W : Type} `{External W}.

Lemma stalls_keeps_log {A} (n : nat) (m : M W Bridge A) :
  keeps_log m -> preserves (stalls_logged n) m.
Proof. intros Hm r Hr. unfold stalls_logged in *. now rewrite Hm. Qed.

Lemma stalls_logger (n : nat) (lvl : level) (msg : string) :
  is_stall_warning (Log lvl msg) = false ->
  preserves (stalls_logged (W := W) (B := Bridge) n) (logger lvl msg).
Proof.
  intros Hmsg r Hr. unfold stalls_logged in *. simpl.
  rewrite stall_warnings_app, Hr. unfold stall_warnings at 1. simpl.
  rewrite Hmsg. simpl. lia.
Qed.

Lemma stalls_sample (n : nat) (f : W -> Bridge -> Bridge * list LogEvent) :
  (forall w b, stall_warnings (snd (f w b)) = 0%nat) ->
  preserves (stalls_logged n) (sample f).
Proof.
  intros Hf r Hr. unfold stalls_logged, sample in *.
  specialize (Hf (world r) (bridge r)).
  destruct (f (world r) (bridge r)) as [b' evs]. simpl in *.
  rewrite stall_warnings_app, Hr, Hf. lia.
Qed.

Lemma keeps_log_gets {A} (f : Runtime W Bridge -> A) : keeps_log (gets f).
Proof. intros r. reflexivity. Qed.

Lemma keeps_log_query {A} (q : W -> result A) :
  keeps_log (@query W Bridge A q).
Proof. intros r. reflexivity. Qed.

Lemma keeps_log_act {A} (c : W -> result A * W) :
  keeps_log (@act W Bridge A c).
Proof. intros r. unfold act. now destruct (c (world r)). Qed.

Lemma keeps_log_command {A} (tag : Command) (c : W -> result A * W) :
  keeps_log (@command W Bridge A tag c).
Proof. intros r. unfold command. now destruct (c (world r)). Qed.

Lemma keeps_log_modify_bridge (f : Bridge -> Bridge) :
  keeps_log (@modify_bridge W Bridge f).
Proof. intros r. reflexivity. Qed.

Lemma keeps_log_modify_thread i (f : LoopThread -> LoopThread) :
  keeps_log (@modify_thread W Bridge i f).
Proof. intros r. reflexivity. Qed.

End StallLog.

#[global] Hint Extern 1 (keeps_log _) =>
  first [ apply keeps_log_gets | apply keeps_log_query | apply keeps_log_act
        | apply keeps_log_command | apply keeps_log_modify_bridge
        | apply keeps_log_modify_thread ]
  : actions.
#[global] Hint Extern 2 (preserves (stalls_logged _) _) =>
  first [ apply stalls_logger; reflexivity
        | apply stalls_sample;
          first [ apply update_vehicles_data_quiet
                | apply update_intersections_data_quiet
                | apply update_roads_data_quiet
                | apply update_simulation_stats_quiet ]
        | apply stalls_keeps_log; auto with actions ]
  : actions.

Section Refreshing.
Context {W : Type} `{External W}.

(** Refreshing the cache logs no stall warning and touches no thread. *)
Lemma update_simulation_data_logs_no_stall (r : Runtime W Bridge) :
  stall_warnings (log (snd (update_simulation_data r)))
  = stall_warnings (log r).
Proof.
  assert (Hp : preserves (stalls_logged (stall_warnings (log r)))
                 (update_simulation_data (W := W))).
  { unfold update_simulation_data, sample_all, mark_if_connection_lost.
    preserve. }
  exact (Hp r eq_refl).
Qed.

Lemma update_simulation_data_keeps_threads (r : Runtime W Bridge) :
  threads (snd (update_simulation_data r)) = threads r
  /\ stop_updates (bridge (snd (update_simulation_data r)))
     = stop_updates (bridge r).
Proof.
  unfold update_simulation_data, bind, get_bridge, gets, ret. cbv beta iota.
  destruct (negb (connected (bridge r))); [split; reflexivity|].
  unfold try_except.
  pose proof (sample_all_keeps_control r) as [Hc Ht].
  destruct (sample_all r) as [[[]|e] r1]; cbn [snd] in Hc, Ht.
  - split; [exact Ht|]. unfold control in Hc. now injection Hc.
  - pose proof (mark_if_connection_lost_spec e r1) as [Ht1 Hb1].
    split; [congruence|]. rewrite Hb1. unfold control in Hc.
    injection Hc as _ _ _ _ Hstop.
    destruct (is_connection_error e); [|exact Hstop].
    rewrite <- Hstop. destruct (bridge r1); reflexivity.
Qed.

End Refreshing.

Section StallCheck.
Context {W : Type} `{External W}.

Lemma alive_in_range (ts : list LoopThread) (i : nat) :
  alive (nth i ts dead_thread) = true -> (i <? List.length ts)%nat = true.
Proof.
  intros Ha. apply Nat.ltb_lt. destruct (Nat.lt_ge_cases i (List.length ts));
    [assumption|]. rewrite nth_overflow in Ha by assumption. discriminate.
Qed.

Lemma length_list_set {A} (l : list A) (i : nat) (x : A) :
  List.length (list_set l i x) = List.length l.
Proof.
  revert i; induction l as [|y l IH]; intros [|i]; simpl; auto.
Qed.

(** What the first half of a turn does to the loop variables and to the log
    when its engine calls answer and the engine is being stepped. *)
Lemma step_and_check_stall (r : Runtime W Bridge) (i : nat) (t1 : traci_value) :
  alive (thread_of r i) = true ->
  simulation_running (bridge r) = true ->
  fst (step_and_check i r) = Ok tt ->
  simulation_getTime (snd (traci_simulationStep (world r))) = Ok t1 ->
  let r2 := snd (step_and_check i r) in
  let new_time := safe_float t1 0 in
  update_count (thread_of r2 i) = S (update_count (thread_of r i))
  /\ alive (thread_of r2 i) = true
  /\ if Py.Qgt_bool new_time (last_time (thread_of r i))
     then last_time (thread_of r2 i) = new_time
          /\ stall_warnings (log r2) = stall_warnings (log r)
     else last_time (thread_of r2 i) = last_time (thread_of r i)
          /\ stall_warnings (log r2) = S (stall_warnings (log r)).
Proof.
  destruct r as [w c b ts cs l]. unfold thread_of. cbn [threads bridge world].
  intros Halive Hsim. pose proof (alive_in_range _ _ Halive) as Hlen.
  unfold step_and_check. unfold_prims. unfold thread_of.
  cbn [fst snd threads bridge world log set_threads set_world set_issued
       set_log].
  rewrite Hsim.
  destruct (simulation_getTime w) as [t0|]; [|discriminate].
  destruct (vehicle_getIDList w) as [ids|]; [|discriminate].
  cbn [fst snd threads bridge world log set_threads set_world set_issued
       set_log].
  destruct (traci_simulationStep w) as [[[]|e] w1]; [|discriminate].
  cbn [fst snd threads bridge world log set_threads set_world set_issued
       set_log].
  intros Hok Ht1. rewrite Ht1 in *.
  cbn [fst snd threads bridge world log set_threads set_world set_issued
       set_log] in *.
  assert (Hnth : forall ts' x, (i <? List.length ts')%nat = true ->
                   nth i (list_set ts' i x) dead_thread = x).
  { intros ts' x Hl. rewrite nth_list_set, Nat.eqb_refl, Hl. reflexivity. }
  rewrite (Hnth ts _ Hlen) in *.
  set (t := nth i ts dead_thread) in *.
  cbn [last_time incr_update_count] in *.
  assert (Hinfo : forall l' msg,
            stall_warnings (l' ++ [Log INFO msg]) = stall_warnings l').
  { intros l' msg. rewrite stall_warnings_app. cbn. lia. }
  assert (Hstall : forall l',
            stall_warnings (l' ++ [Log WARNING stall_warning])
            = S (stall_warnings l')).
  { intros l'. rewrite stall_warnings_app. cbn. lia. }
  destruct (Py.Qgt_bool (safe_float t1 0) (last_time t)) eqn:Hadv;
    cbn [fst snd threads bridge world log set_threads set_world set_issued
         set_log] in *;
    rewrite ?Hnth in * by (rewrite ?length_list_set; exact Hlen);
    cbn [update_count last_time alive incr_update_count set_last_time] in *;
    destruct (S (update_count t) mod 10 =? 0)%nat;
    cbn [fst snd threads bridge world log set_threads set_world set_issued
         set_log] in *;
    try (destruct (simulation_getLoadedNumber w1); [|discriminate];
         destruct (simulation_getDepartedNumber w1); [|discriminate]);
    cbn [fst snd threads bridge world log set_threads set_world set_issued
         set_log] in *;
    rewrite ?Hnth by (rewrite ?length_list_set; exact Hlen);
    cbn [update_count last_time alive incr_update_count set_last_time];
    rewrite ?Hinfo, ?Hstall; repeat split; try exact Halive.
Qed.

End StallCheck.

Section StallClaim.
Context {W : Type} `{External W}.

(** C4, as the code has it.  The loop keeps the last simulation time that
    advanced in [last_time] and nothing else about stalls.  On a turn
    that steps the engine and whose engine calls answer, if the new time is
    greater than [last_time] it is stored and no stall warning is logged;
    otherwise [last_time] is left alone and exactly one stall warning is
    logged.  Either way the turn counts one more update, the thread is alive
    after it and the stop flag is still clear: a stall does not stop the
    loop.  There is no stall counter that a later advance resets. *)
Theorem stall_is_logged_not_counted
  (r : Runtime W Bridge) (i : nat) (t1 : traci_value) :
  loop_running r i ->
  simulation_running (bridge r) = true ->
  fst (step_and_check i r) = Ok tt ->
  simulation_getTime (snd (traci_simulationStep (world r))) = Ok t1 ->
  let new_time := safe_float t1 0 in
  let before := thread_of r i in
  let after := thread_of (turn i r) i in
  alive after = true
  /\ stop_updates (bridge (turn i r)) = false
  /\ update_count after = S (update_count before)
  /\ if Py.Qgt_bool new_time (last_time before)
     then last_time after = new_time
          /\ stall_warnings (log (turn i r)) = stall_warnings (log r)
     else last_time after = last_time before
          /\ stall_warnings (log (turn i r)) = S (stall_warnings (log r)).
Proof.
  intros Hrun Hsim Hok Ht1 new_time before after.
  pose proof Hrun as (Halive & Hstop & Hon).
  destruct (step_and_check_stall r i Halive Hsim Hok Ht1)
    as (Hcount & Halive2 & Hlast).
  set (r2 := snd (step_and_check i r)) in *.
  assert (Hturn : turn i r
                  = snd (sleep 0.1 (snd (update_simulation_data r2)))).
  { unfold turn. rewrite (turn_when_running Hrun). unfold try_except.
    destruct (loop_try_body_cases r i) as [(e & _ & Hraise) | (_ & Hbody)];
      [congruence|]. now rewrite Hbody. }
  destruct (update_simulation_data_keeps_threads r2) as [Ht Hs].
  pose proof (update_simulation_data_logs_no_stall r2) as Hl.
  assert (Hthread : thread_of (turn i r) i = thread_of r2 i).
  { rewrite Hturn. unfold thread_of, sleep, act. cbn [snd threads set_world].
    now rewrite Ht. }
  assert (Hlog : stall_warnings (log (turn i r)) = stall_warnings (log r2)).
  { rewrite Hturn. unfold sleep, act. cbn [snd log set_world]. exact Hl. }
  unfold after. rewrite Hthread, Hlog.
  split; [exact Halive2|]. split.
  - rewrite Hturn. unfold sleep, act. cbn [snd bridge set_world].
    rewrite Hs. unfold r2. now rewrite step_and_check_keeps_bridge.
  - split; [exact Hcount | exact Hlast].
Qed.

End StallClaim.

Lemma stall_is_logged_not_counted_witness :
  let r := turn 0 (Sim.polling (Sim.timeline 0 [1; 1; 2])) in
  loop_running r 0
  /\ simulation_running (bridge r) = true
  /\ fst (step_and_check 0 r) = Ok tt
  /\ simulation_getTime (snd (traci_simulationStep (world r)))
     = Ok (TFloat 1)
  /\ last_time (thread_of (turn 0 r) 0) = last_time (thread_of r 0)
  /\ stall_warnings (log (turn 0 r)) = S (stall_warnings (log r))
  /\ alive (thread_of (turn 0 r) 0) = true.
Proof.
  intros r.
  assert (Hrun : loop_running r 0) by (repeat split).
  assert (Hsim : simulation_running (bridge r) = true) by reflexivity.
  assert (Hok : fst (step_and_check 0 r) = Ok tt) by reflexivity.
  assert (Ht1 : simulation_getTime (snd (traci_simulationStep (world r)))
                = Ok (TFloat 1)) by reflexivity.
  destruct (stall_is_logged_not_counted Hrun Hsim Hok Ht1)
    as (Halive & _ & _ & Hlast).
  assert (Hstalled : Py.Qgt_bool (safe_float (TFloat 1) 0)
                       (last_time (thread_of r 0)) = false) by reflexivity.
  rewrite Hstalled in Hlast. destruct Hlast as [Hsame Hlogged].
  repeat split; assumption.
Defined.

(** C4 as the specification words it fails: the program keeps no stall
    counter.  Two runs of five turns, one in which the simulation time advances on every
    turn and one in which it stalls on the last four, end with the same
    bridge object and the same loop variables, so no function of the state
    of the program can be 0 after the first and 4 after the second. *)
Lemma loop_keeps_no_stall_counter :
  ~ exists counter : Bridge -> list LoopThread -> nat,
      forall times : list Q,
        let r := run (repeat (Turn 0%nat) (List.length times))
                     (Sim.polling (Sim.timeline 0 times)) in
        counter (bridge r) (threads r) = stall_counter_spec (-1) 0 times.
Proof.
  intros [counter Hcounter].
  pose proof (Hcounter [0; 1; 2; 3; 4]%Q) as Hadvancing.
  pose proof (Hcounter [4; 4; 4; 4; 4]%Q) as Hstalled.
  vm_compute in Hadvancing, Hstalled. congruence.
Qed.

(** The scenario of the specification: after one advancing and three
    stalled turns the only count the loop holds is that of its updates, 4;
    the fifth, advancing turn makes it 5 and leaves the three stall
    warnings in the log. *)
Example three_stalls_then_advance :
  let w := Sim.timeline 0 [1; 1; 1; 1; 2] in
  let four := run (repeat (Turn 0%nat) 4) (Sim.polling w) in
  let five := run (repeat (Turn 0%nat) 5) (Sim.polling w) in
  (threads four = [{| alive := true; update_count := 4; last_time := 1 |}]
   /\ stall_warnings (log four) = 3%nat)
  /\ (threads five = [{| alive := true; update_count := 5; last_time := 2 |}]
      /\ stall_warnings (log five) = 3%nat).
Proof. vm_compute. repeat split. Qed.

(** * Further properties of the code *)

(** ** Conversions *)

Lemma quot_truncates (p : Z) (q : positive) :
  (Z.abs (Z.quot p (Zpos q)) * Zpos q <= Z.abs p)%Z
  /\ (Z.abs (p - Z.quot p (Zpos q) * Zpos q) < Zpos q)%Z.
Proof.
  pose proof (Z.quot_rem' p (Zpos q)) as Hqr.
  assert (Hq : (0 < Zpos q)%Z) by reflexivity.
  destruct (Z_le_gt_dec 0 p) as [Hp|Hp].
  - pose proof (Z.rem_bound_pos p (Zpos q) Hp Hq) as Hr.
    pose proof (Z.quot_pos p (Zpos q) Hp Hq) as Hn.
    split; [rewrite (Z.abs_eq (Z.quot p (Zpos q))), (Z.abs_eq p) by lia; nia|].
    rewrite Z.abs_eq; nia.
  - assert (Hp' : (p <= 0)%Z) by lia.
    pose proof (Z.rem_bound_pos_neg p (Zpos q) Hq Hp') as Hr.
    assert (Hn : (Z.quot p (Zpos q) <= 0)%Z) by nia.
    split; [rewrite (Z.abs_neq (Z.quot p (Zpos q))), (Z.abs_neq p) by lia; nia|].
    rewrite Z.abs_neq; nia.
Qed.

(** X1.  [safe_int] of a finite float, bare or first in a tuple or list, is
    the float truncated towards zero, whatever the default: the result is
    no larger in absolute value than the float and less than 1 away from
    it, so that a float strictly between -1 and 1 gives 0.  (A float of
    the model is a rational number; on an infinity or a NaN, which it does
    not hold, [int] raises and [safe_int] returns the default.) *)
Theorem safe_int_truncates (x : Q) (rest : list traci_value) (default : Z) :
  let n := safe_int (TFloat x) default in
  safe_int (TSeq (TFloat x :: rest)) default = n
  /\ (Qabs (inject_Z n) <= Qabs x)%Q
  /\ (Qabs (x - inject_Z n) < 1)%Q
  /\ ((Qabs x < 1)%Q -> n = 0%Z).
Proof.
  destruct x as [p q]. cbn [safe_int py_int Qnum Qden].
  destruct (quot_truncates p q) as [Hle Hlt].
  split; [reflexivity|]. split; [|split].
  - unfold Qle, Qabs, inject_Z. cbn [Qnum Qden]. lia.
  - unfold Qlt, Qabs, Qminus, Qplus, Qopp, inject_Z. cbn [Qnum Qden].
    rewrite Z.mul_1_r, Z.mul_1_l.
    replace (p * 1 + - Z.quot p (Zpos q) * Zpos q)%Z
      with (p - Z.quot p (Zpos q) * Zpos q)%Z by ring.
    rewrite Pos.mul_1_r. exact Hlt.
  - unfold Qlt, Qabs. cbn [Qnum Qden]. rewrite Z.mul_1_r, Z.mul_1_l.
    intros Hsmall. assert (Hq : (0 < Zpos q)%Z) by reflexivity. nia.
Qed.

(** ** Vehicle entries *)

Section VehicleEntries.
Context {W : Type} `{External W}.
Local Open Scope Q_scope.

(** What a finished per-vehicle [try] block read from the engine. *)
Lemma sample_vehicle_inv (w : W) (vehicle_id : string)
  (v : VehicleData) (vehicle_type : string) :
  sample_vehicle w vehicle_id = Ok (v, vehicle_type) ->
  exists position speed0,
    vehicle_getPosition w vehicle_id = Ok position
    /\ vehicle_getSpeed w vehicle_id = Ok speed0
    /\ vehicle_getTypeID w vehicle_id = Ok vehicle_type
    /\ v_id v = vehicle_id
    /\ v_type v = map_vehicle_type vehicle_type
    /\ pos_lat (v_position v) = 9.0320 + (snd position / 111320.0)
    /\ pos_lng (v_position v) = 38.7469 + (fst position / (111320.0 * 0.9))
    /\ v_speed v = safe_float speed0 0.0 * 3.6.
Proof.
  unfold sample_vehicle, rbind. intros Hs.
  destruct (vehicle_getPosition w vehicle_id) as [position|]; [|discriminate].
  destruct (vehicle_getSpeed w vehicle_id) as [speed0|]; [|discriminate].
  destruct (vehicle_getAngle w vehicle_id); [|discriminate].
  destruct (vehicle_getTypeID w vehicle_id); [|discriminate].
  destruct (vehicle_getRoadID w vehicle_id); [|discriminate].
  destruct (vehicle_getLaneID w vehicle_id); [|discriminate].
  destruct (vehicle_getRoute w vehicle_id); [|discriminate].
  destruct (vehicle_getWaitingTime w vehicle_id); [|discriminate].
  destruct (vehicle_getDistance w vehicle_id); [|discriminate].
  injection Hs as <- <-. exists position, speed0. repeat split.
Qed.

Lemma map_vehicle_type_range (sumo_type : string) :
  In (map_vehicle_type sumo_type)
     ["car"; "bus"; "truck"; "motorcycle"; "bicycle"; "emergency"].
Proof.
  unfold map_vehicle_type.
  repeat match goal with
         | |- context [if ?c then _ else _] => destruct c
         end; simpl; tauto.
Qed.

Lemma map_vehicle_type_idempotent (sumo_type : string) :
  map_vehicle_type (map_vehicle_type sumo_type) = map_vehicle_type sumo_type.
Proof.
  destruct (map_vehicle_type_range sumo_type)
    as [<-|[<-|[<-|[<-|[<-|[<-|[]]]]]]]; reflexivity.
Qed.

(** X2.  Every vehicle the cache publishes, in either list, carries one of the
    six frontend types.  The SUMO types "bus", "truck", "motorcycle",
    "bicycle" and "emergency" are published under their own name and every
    other SUMO type, "passenger" and the types of emergency services
    included, is published as "car"; so only the SUMO type "emergency" is
    published as "emergency".  Mapping twice changes nothing. *)
Theorem published_vehicle_types (w : W) (b : Bridge) (ids : list string) :
  vehicle_getIDList w = Ok ids ->
  let b' := fst (update_vehicles_data w b) in
  let frontend :=
    ["car"; "bus"; "truck"; "motorcycle"; "bicycle"; "emergency"] in
  let kept := ["bus"; "truck"; "motorcycle"; "bicycle"; "emergency"] in
  (forall v, In v (vehicles_data b') -> In (v_type v) frontend)
  /\ (forall e, In e (emergency_vehicles_data b') ->
        In (v_type (em_vehicle e)) frontend)
  /\ (forall sumo_type,
        In (map_vehicle_type sumo_type) frontend
        /\ (In sumo_type kept -> map_vehicle_type sumo_type = sumo_type)
        /\ (~ In sumo_type kept -> map_vehicle_type sumo_type = "car")
        /\ map_vehicle_type (map_vehicle_type sumo_type)
           = map_vehicle_type sumo_type
        /\ (map_vehicle_type sumo_type = "emergency"
            <-> sumo_type = "emergency")).
Proof.
  intros Hids b' frontend kept.
  destruct (published_vehicles w b Hids) as [Hv He]. fold b' in Hv, He.
  assert (Hty : forall p, In p (sampled w ids) -> In (v_type (fst p)) frontend).
  { intros [v ty] Hp. apply sampled_inv in Hp as [_ Hs].
    apply sample_vehicle_inv in Hs
      as (position & speed0 & _ & _ & _ & _ & Hty & _).
    simpl. rewrite Hty. apply map_vehicle_type_range. }
  split; [|split].
  - intros v Hin. rewrite Hv in Hin. apply in_map_iff in Hin as (p & <- & Hp).
    apply filter_In in Hp as [Hp _]. now apply Hty.
  - intros e Hin. rewrite He in Hin. apply in_map_iff in Hin as (p & <- & Hp).
    apply filter_In in Hp as [Hp _]. simpl. now apply Hty.
  - intros sumo_type. split; [apply map_vehicle_type_range|].
    split.
    { intros [<-|[<-|[<-|[<-|[<-|[]]]]]]; reflexivity. }
    split.
    { intros Hout. unfold map_vehicle_type.
      repeat match goal with
             | |- context [if String.eqb ?a ?b then _ else _] =>
                 destruct (String.eqb_spec a b)
             end; try reflexivity; elim Hout; subst sumo_type; cbn; tauto. }
    split; [apply map_vehicle_type_idempotent|]. split.
    + unfold map_vehicle_type.
      repeat match goal with
             | |- context [if String.eqb ?a ?b then _ else _] =>
                 destruct (String.eqb_spec a b)
             end; try discriminate. intros _. assumption.
    + intros ->. reflexivity.
Qed.

End VehicleEntries.

Lemma published_vehicle_types_witness :
  vehicle_getIDList Scenario.busy_world = Ok ["veh0"; "AMBULANCE_7"; "veh2"]
  /\ map (fun e => v_type (em_vehicle e))
         (emergency_vehicles_data
            (fst (update_vehicles_data Scenario.busy_world
                    (init "localhost" 8813 8814))))
     = ["car"; "car"]
  /\ forall e,
       In e (emergency_vehicles_data
               (fst (update_vehicles_data Scenario.busy_world
                       (init "localhost" 8813 8814)))) ->
       In (v_type (em_vehicle e))
          ["car"; "bus"; "truck"; "motorcycle"; "bicycle"; "emergency"].
Proof.
  assert (Hids : vehicle_getIDList Scenario.busy_world
                 = Ok ["veh0"; "AMBULANCE_7"; "veh2"]) by reflexivity.
  split; [exact Hids|]. split; [reflexivity|].
  exact (proj1 (proj2 (published_vehicle_types Scenario.busy_world
                         (init "localhost" 8813 8814) Hids))).
Defined.

Section VehiclePositions.
Context {W : Type} `{External W}.
Local Open Scope Q_scope.


(** X3.  The published coordinates and speed of a vehicle determine what the
    engine reported: the conversion to degrees around the reference point
    (9.0320, 38.7469) and to km/h can be undone. *)
Theorem vehicle_position_round_trip (w : W) (vehicle_id : string)
  (v : VehicleData) (vehicle_type : string) (x y : Q) (speed : traci_value) :
  sample_vehicle w vehicle_id = Ok (v, vehicle_type) ->
  vehicle_getPosition w vehicle_id = Ok (x, y) ->
  vehicle_getSpeed w vehicle_id = Ok speed ->
  (pos_lng (v_position v) - 38.7469) * (111320.0 * 0.9) == x
  /\ (pos_lat (v_position v) - 9.0320) * 111320.0 == y
  /\ v_speed v / 3.6 == safe_float speed 0.0.
Proof.
  intros Hs Hpos Hspeed.
  apply sample_vehicle_inv in Hs
    as (position & speed0 & Hpos' & Hspeed' & _ & _ & _ & Hlat & Hlng & Hv).
  rewrite Hpos in Hpos'. injection Hpos' as <-.
  rewrite Hspeed in Hspeed'. injection Hspeed' as <-.
  rewrite Hlat, Hlng, Hv. cbn [fst snd].
  repeat split; field.
Qed.

End VehiclePositions.

Lemma vehicle_position_round_trip_witness :
  exists v,
    sample_vehicle Scenario.busy_world "veh0" = Ok (v, "passenger")
    /\ ((pos_lng (v_position v) - 38.7469) * (111320.0 * 0.9) == 100)%Q
    /\ ((pos_lat (v_position v) - 9.0320) * 111320.0 == 200)%Q
    /\ (v_speed v / 3.6 == 10)%Q.
Proof.
  destruct (sample_vehicle Scenario.busy_world "veh0") as [[v ty]|e] eqn:Hs;
    [|discriminate].
  assert (Hty : ty = "passenger") by (vm_compute in Hs; congruence).
  subst ty. exists v. split; [reflexivity|].
  exact (vehicle_position_round_trip Scenario.busy_world "veh0" Hs
           (x := 100) (y := 200) (speed := TFloat 10)
           eq_refl eq_refl).
Defined.

Lemma lower_app (s t : string) :
  Py.lower (s ++ t) = Py.lower s ++ Py.lower t.
Proof. induction s as [|c s IH]; simpl; [reflexivity | now rewrite IH]. Qed.

Lemma string_app_assoc (s t u : string) : (s ++ t) ++ u = s ++ t ++ u.
Proof. induction s as [|c s IH]; simpl; [reflexivity | now rewrite IH]. Qed.

Lemma string_app_nil_r (s : string) : s ++ "" = s.
Proof. induction s as [|c s IH]; simpl; [reflexivity | now rewrite IH]. Qed.

Lemma occurs_in_app (k s t : string) :
  occurs_in k s \/ occurs_in k t -> occurs_in k (s ++ t).
Proof.
  intros [(pre & suf & ->) | (pre & suf & ->)].
  - exists pre, (suf ++ t). now rewrite !string_app_assoc.
  - exists (s ++ pre), suf. now rewrite !string_app_assoc.
Qed.

Section EmergencyEntries.
Context {W : Type} `{External W}.

Lemma get_emergency_type_range (vehicle_id vehicle_type : string) :
  In (get_emergency_type vehicle_id vehicle_type)
     ["ambulance"; "police"; "fire"; "rescue"].
Proof.
  unfold get_emergency_type.
  repeat match goal with
         | |- context [if ?c then _ else _] => destruct c
         end; simpl; tauto.
Qed.

(** X4.  Every entry of the emergency list is marked "high" and "responding" and
    typed "ambulance", "police", "fire" or "rescue", the first of the three
    names that occurs in the lowercased id followed by the type and
    "rescue" when none does: a vehicle recognised by "emergency" or
    "rescue" alone is a "rescue", and an "ambulance" in the id or the type
    wins over the other names. *)
Theorem emergency_entries_typed (w : W) (b : Bridge) (ids : list string) :
  vehicle_getIDList w = Ok ids ->
  let b' := fst (update_vehicles_data w b) in
  (forall e, In e (emergency_vehicles_data b') ->
     em_priority e = "high" /\ em_status e = "responding"
     /\ In (em_emergencyType e) ["ambulance"; "police"; "fire"; "rescue"]
     /\ exists vehicle_type,
          vehicle_getTypeID w (v_id (em_vehicle e)) = Ok vehicle_type
          /\ is_emergency_vehicle (v_id (em_vehicle e)) vehicle_type = true
          /\ em_emergencyType e
             = get_emergency_type (v_id (em_vehicle e)) vehicle_type)
  /\ (forall vehicle_id vehicle_type,
        (occurs_in "ambulance" (Py.lower vehicle_id)
         \/ occurs_in "ambulance" (Py.lower vehicle_type) ->
         get_emergency_type vehicle_id vehicle_type = "ambulance")
        /\ (~ occurs_in "ambulance" (Py.lower (vehicle_id ++ vehicle_type)) ->
            ~ occurs_in "police" (Py.lower (vehicle_id ++ vehicle_type)) ->
            ~ occurs_in "fire" (Py.lower (vehicle_id ++ vehicle_type)) ->
            get_emergency_type vehicle_id vehicle_type = "rescue")).
Proof.
  intros Hids b'.
  destruct (published_vehicles w b Hids) as [_ He]. fold b' in He.
  split.
  - intros e Hin. rewrite He in Hin.
    apply in_map_iff in Hin as ([v ty] & <- & Hp).
    apply filter_In in Hp as [Hp Hcls]. cbn [fst snd] in *.
    apply sampled_inv in Hp as [_ Hs]. cbn [fst] in Hs.
    unfold is_emergency_sample in Hcls. cbn [fst snd] in Hcls.
    unfold emergency_of. cbn [em_priority em_status em_emergencyType em_vehicle].
    split; [reflexivity|]. split; [reflexivity|].
    split; [apply get_emergency_type_range|].
    exists ty. split; [|split; [exact Hcls | reflexivity]].
    unfold sample_vehicle, rbind in Hs.
    destruct (vehicle_getPosition w (v_id v)); [|discriminate].
    destruct (vehicle_getSpeed w (v_id v)); [|discriminate].
    destruct (vehicle_getAngle w (v_id v)); [|discriminate].
    destruct (vehicle_getTypeID w (v_id v)) as [ty'|]; [|discriminate].
    destruct (vehicle_getRoadID w (v_id v)); [|discriminate].
    destruct (vehicle_getLaneID w (v_id v)); [|discriminate].
    destruct (vehicle_getRoute w (v_id v)); [|discriminate].
    destruct (vehicle_getWaitingTime w (v_id v)); [|discriminate].
    destruct (vehicle_getDistance w (v_id v)); [|discriminate].
    injection Hs as _ <-. reflexivity.
  - intros vehicle_id vehicle_type. unfold get_emergency_type. split.
    + intros Hocc.
      assert (Hin : Py.str_in "ambulance"
                      (Py.lower (vehicle_id ++ vehicle_type)) = true).
      { apply str_in_spec. rewrite lower_app. now apply occurs_in_app. }
      cbv zeta. now rewrite Hin.
    + intros Ha Hp Hf. cbv zeta.
      destruct (Py.str_in "ambulance" _) eqn:E1;
        [now apply str_in_spec in E1|].
      destruct (Py.str_in "police" _) eqn:E2;
        [now apply str_in_spec in E2|].
      destruct (Py.str_in "fire" _) eqn:E3;
        [now apply str_in_spec in E3|].
      reflexivity.
Qed.

End EmergencyEntries.

Lemma emergency_entries_typed_witness :
  vehicle_getIDList Scenario.busy_world = Ok ["veh0"; "AMBULANCE_7"; "veh2"]
  /\ map em_emergencyType
         (emergency_vehicles_data
            (fst (update_vehicles_data Scenario.busy_world
                    (init "localhost" 8813 8814))))
     = ["ambulance"; "police"]
  /\ forall e,
       In e (emergency_vehicles_data
               (fst (update_vehicles_data Scenario.busy_world
                       (init "localhost" 8813 8814)))) ->
       em_priority e = "high".
Proof.
  assert (Hids : vehicle_getIDList Scenario.busy_world
                 = Ok ["veh0"; "AMBULANCE_7"; "veh2"]) by reflexivity.
  split; [exact Hids|]. split; [reflexivity|].
  intros e He.
  exact (proj1 (proj1 (emergency_entries_typed Scenario.busy_world
                         (init "localhost" 8813 8814) Hids) e He)).
Defined.

(** ** Intersection entries *)

Lemma dict_set_keys {V} (d : list (string * V)) (k : string) (v : V) :
  map fst (dict_set d k v)
  = if existsb (String.eqb k) (map fst d) then map fst d
    else (map fst d ++ [k])%list.
Proof.
  induction d as [|[k' v'] d IH]; simpl; [reflexivity|].
  rewrite (String.eqb_sym k k').
  destruct (String.eqb k' k) eqn:E; simpl; [reflexivity|].
  rewrite IH. destruct (existsb (String.eqb k) (map fst d)); reflexivity.
Qed.

Lemma existsb_eqb_In (k : string) (l : list string) :
  existsb (String.eqb k) l = true <-> In k l.
Proof.
  rewrite existsb_exists. split.
  - intros (x & Hx & E). apply String.eqb_eq in E. now subst.
  - intros Hin. exists k. split; [exact Hin | apply String.eqb_refl].
Qed.

Lemma dict_set_In {V} (d : list (string * V)) (k : string) (v : V)
  (k0 : string) (v0 : V) :
  In (k0, v0) (dict_set d k v) -> In (k0, v0) d \/ (k0 = k /\ v0 = v).
Proof.
  induction d as [|[k' v'] d IH]; simpl.
  - intros [E|[]]. injection E as <- <-. now right.
  - destruct (String.eqb k' k) eqn:E; simpl.
    + intros [E'|Hin]; [|now left; right].
      injection E' as <- <-. apply String.eqb_eq in E. now right.
    + intros [E'|Hin]; [now left; left|].
      destruct (IH Hin) as [Hd|Hk]; [now left; right | now right].
Qed.

Lemma first_char_is_r (state : string) :
  String.eqb (first_char_or state "") "r" = Py.startswith state "r".
Proof.
  unfold Py.startswith. destruct state as [|c s]; [reflexivity|].
  cbn [first_char_or].
  change (String.prefix "r" (String c s))
    with (if Ascii.ascii_dec "r" c then String.prefix "" s else false).
  destruct (Ascii.ascii_dec "r" c) as [<-|Hne].
  - destruct s; reflexivity.
  - destruct (String.eqb_spec (String c "") "r") as [E|]; [|reflexivity].
    injection E as ->. now elim Hne.
Qed.

Section IntersectionEntries.
Context {W : Type} `{External W}.
Local Open Scope Q_scope.

Lemma queue_step_queues (w : W) (seen : list string) acc (lane_id : string) :
  queues_of w seen acc ->
  queues_of w (seen ++ [lane_id]) (queue_step w acc lane_id).
Proof.
  destruct acc as [q wt]. intros (Hk & Hnd & Hlen & Hin & Hq & Hw).
  cbn [fst snd] in *. unfold queue_step.
  assert (Hskip : lane_queue_read w lane_id = false ->
                  queues_of w (seen ++ [lane_id]) (q, wt)).
  { intros Hread. unfold queues_of; cbn [fst snd].
    split; [exact Hk|]. split; [exact Hnd|].
    split; [rewrite length_app; simpl; lia|].
    split; [|split; assumption].
    intros lane. rewrite Hin, in_app_iff. simpl. split.
    - intros [Hs Hr]. auto.
    - intros [[Hs|[<-|[]]] Hr]; [auto | congruence]. }
  unfold lane_queue_read in Hskip.
  destruct (lane_getLastStepHaltingNumber w lane_id) as [n|] eqn:En;
    [|now apply Hskip].
  destruct (lane_getWaitingTime w lane_id) as [t|] eqn:Et;
    [|now apply Hskip].
  clear Hskip. unfold queues_of; cbn [fst snd].
  rewrite !dict_set_keys, <- Hk.
  assert (Hlenk : List.length (dict_set q lane_id n)
                  = List.length (map fst (dict_set q lane_id n)))
    by now rewrite length_map.
  rewrite Hlenk, dict_set_keys.
  destruct (existsb (String.eqb lane_id) (map fst q)) eqn:Emem.
  - apply existsb_eqb_In in Emem.
    split; [reflexivity|]. split; [exact Hnd|].
    split; [rewrite length_map, length_app; simpl; lia|].
    split; [|split].
    + intros lane. rewrite Hin, in_app_iff. simpl. split.
      * intros [Hs Hr]. auto.
      * intros [[Hs|[<-|[]]] Hr]; [auto | now apply Hin].
    + intros lane n0 Hd. apply dict_set_In in Hd as [Hd|[-> ->]]; auto.
    + intros lane t0 Hd. apply dict_set_In in Hd as [Hd|[-> ->]]; auto.
  - assert (Hnot : ~ In lane_id (map fst q)).
    { intros Hmem. apply existsb_eqb_In in Hmem. congruence. }
    split; [reflexivity|].
    split.
    { apply NoDup_app; [exact Hnd | repeat constructor; intros [] |].
      intros x Hx [<-|[]]. now apply Hnot. }
    split; [rewrite !length_app, length_map; simpl; lia|].
    split; [|split].
    + intros lane. rewrite !in_app_iff, Hin. simpl. split.
      * intros [[Hs Hr]|[<-|[]]]; [auto|].
        split; [auto|]. unfold lane_queue_read. now rewrite En, Et.
      * intros [[Hs|[<-|[]]] Hr]; auto.
    + intros lane n0 Hd. apply dict_set_In in Hd as [Hd|[-> ->]]; auto.
    + intros lane t0 Hd. apply dict_set_In in Hd as [Hd|[-> ->]]; auto.
Qed.

Lemma queue_fold_queues (w : W) (lanes : list string) :
  forall seen acc,
    queues_of w seen acc ->
    queues_of w (seen ++ lanes) (fold_left (queue_step w) lanes acc).
Proof.
  induction lanes as [|lane rest IH]; intros seen acc Hacc; simpl.
  - now rewrite app_nil_r.
  - replace (seen ++ lane :: rest)%list with ((seen ++ [lane]) ++ rest)%list
      by now rewrite <- app_assoc.
    apply IH. now apply queue_step_queues.
Qed.

(** What a finished per-intersection [try] block read and built. *)
Lemma sample_intersection_inv (w : W) (tls_id : string) (i : IntersectionData) :
  sample_intersection w tls_id = Ok i ->
  exists state next_switch0 controlled_lanes now,
    trafficlight_getRedYellowGreenState w tls_id = Ok state
    /\ trafficlight_getNextSwitch w tls_id = Ok next_switch0
    /\ trafficlight_getControlledLanes w tls_id = Ok controlled_lanes
    /\ simulation_getTime w = Ok now
    /\ i_id i = tls_id
    /\ i_congestionLevel i = "low"
    /\ i_trafficLights i
       = [{| tl_phase := map_tls_state (first_char_or state "r");
             tl_direction := "all";
             tl_remainingTime :=
               Qmax 0.0 (safe_float next_switch0 0.0 - safe_float now 0.0);
             tl_nextPhase :=
               if String.eqb (first_char_or state "") "r"
               then "green" else "red" |}]
    /\ (i_queueLengths i, i_waitingTimes i)
       = fold_left (queue_step w) (firstn 5 controlled_lanes) ([], []).
Proof.
  unfold sample_intersection, rbind. intros Hs.
  destruct (trafficlight_getRedYellowGreenState w tls_id) as [state|];
    [|discriminate].
  destruct (trafficlight_getPhase w tls_id); [|discriminate].
  destruct (trafficlight_getNextSwitch w tls_id) as [next_switch0|];
    [|discriminate].
  destruct (trafficlight_getProgram w tls_id); [|discriminate].
  destruct (trafficlight_getControlledLanes w tls_id) as [controlled_lanes|];
    [|discriminate].
  destruct (simulation_getTime w) as [now|]; [|discriminate].
  destruct (fold_left (queue_step w) (firstn 5 controlled_lanes) ([], []))
    as [q wt] eqn:Ef.
  injection Hs as <-. exists state, next_switch0, controlled_lanes, now.
  repeat split. symmetry. exact Ef.
Qed.

(** X6.  The two per-lane dicts of a published intersection have the same keys,
    each once, in first-seen order: the lanes among the first five
    controlled lanes whose two getters both answered; a lane listed twice
    is one key, so there can be fewer than five.  The values are what the
    engine reported for the lane. *)
Theorem intersection_queues (w : W) (tls_id : string) (i : IntersectionData)
  (controlled_lanes : list string) :
  sample_intersection w tls_id = Ok i ->
  trafficlight_getControlledLanes w tls_id = Ok controlled_lanes ->
  map fst (i_queueLengths i) = map fst (i_waitingTimes i)
  /\ NoDup (map fst (i_queueLengths i))
  /\ (List.length (i_queueLengths i) <= 5)%nat
  /\ (forall lane,
        In lane (map fst (i_queueLengths i))
        <-> In lane (firstn 5 controlled_lanes)
            /\ lane_queue_read w lane = true)
  /\ (forall lane n, In (lane, n) (i_queueLengths i) ->
                     lane_getLastStepHaltingNumber w lane = Ok n)
  /\ (forall lane t, In (lane, t) (i_waitingTimes i) ->
                     lane_getWaitingTime w lane = Ok t).
Proof.
  intros Hs Hlanes.
  apply sample_intersection_inv in Hs
    as (state & ns & lanes & now & _ & _ & Hlanes' & _ & _ & _ & _ & Hfold).
  rewrite Hlanes in Hlanes'. injection Hlanes' as <-.
  assert (Hempty : queues_of w [] ([], [])).
  { unfold queues_of; simpl. repeat split; try tauto; try constructor. }
  pose proof (queue_fold_queues (firstn 5 controlled_lanes) Hempty) as Hq.
  rewrite <- Hfold in Hq. cbn [app] in Hq.
  destruct Hq as (Hk & Hnd & Hlen & Hin & Hv & Hw). cbn [fst snd] in *.
  split; [exact Hk|]. split; [exact Hnd|].
  split; [|split; [exact Hin | split; assumption]].
  pose proof (firstn_le_length 5 controlled_lanes). lia.
Qed.

(** X5.  A published intersection carries one traffic-light entry, for the
    direction "all": its phase is "red", "yellow" or "green", read off the
    first character of the state string alone (anything but 'y', 'g' and
    'G' is "red"), its next phase is "green" when that character is 'r' and
    "red" otherwise, and its remaining time is never negative.  The
    congestion level of an intersection is always "low". *)
Theorem intersection_light_entry (w : W) (tls_id : string)
  (i : IntersectionData) (state : string) :
  sample_intersection w tls_id = Ok i ->
  trafficlight_getRedYellowGreenState w tls_id = Ok state ->
  i_id i = tls_id
  /\ i_congestionLevel i = "low"
  /\ exists tl,
       i_trafficLights i = [tl]
       /\ tl_direction tl = "all"
       /\ 0 <= tl_remainingTime tl
       /\ In (tl_phase tl) ["red"; "yellow"; "green"]
       /\ tl_phase tl = map_tls_state (first_char_or state "r")
       /\ tl_nextPhase tl
          = (if Py.startswith state "r" then "green" else "red")
       /\ (tl_nextPhase tl = "green" -> tl_phase tl = "red").
Proof.
  intros Hs Hstate.
  apply sample_intersection_inv in Hs
    as (state' & ns & lanes & now & Hstate' & _ & _ & _ & Hid & Hc & Htl & _).
  rewrite Hstate in Hstate'. injection Hstate' as <-.
  split; [exact Hid|]. split; [exact Hc|].
  eexists. split; [exact Htl|].
  cbn [tl_direction tl_remainingTime tl_phase tl_nextPhase].
  split; [reflexivity|].
  split; [apply Qle_trans with 0.0; [unfold Qle; simpl; lia | apply Q.le_max_l]|].
  assert (Hnext : String.eqb (first_char_or state "") "r"
                  = Py.startswith state "r") by apply first_char_is_r.
  split; [|split; [reflexivity|split]].
  - unfold map_tls_state.
    repeat match goal with
           | |- context [if ?c then _ else _] => destruct c
           end; simpl; tauto.
  - now rewrite Hnext.
  - rewrite Hnext, <- first_char_is_r.
    destruct state as [|c s]; [discriminate|].
    cbn [first_char_or]. destruct (String.eqb_spec (String c "") "r") as [E|];
      [|discriminate].
    intros _. rewrite E. reflexivity.
Qed.

End IntersectionEntries.

Lemma intersection_queues_witness :
  exists i,
    sample_intersection Scenario.busy_world "J1" = Ok i
    /\ trafficlight_getControlledLanes Scenario.busy_world "J1"
       = Ok ["E1_0"; "E2_0"]
    /\ map fst (i_queueLengths i) = map fst (i_waitingTimes i)
    /\ (List.length (i_queueLengths i) <= 5)%nat.
Proof.
  destruct (sample_intersection Scenario.busy_world "J1") as [i|e] eqn:Hs;
    [|discriminate].
  exists i. split; [reflexivity|]. split; [reflexivity|].
  destruct (intersection_queues Scenario.busy_world "J1" Hs
              (controlled_lanes := ["E1_0"; "E2_0"]) eq_refl)
    as (Hkeys & _ & Hlen & _).
  split; [exact Hkeys | exact Hlen].
Defined.

Lemma intersection_light_entry_witness :
  exists i,
    sample_intersection Scenario.busy_world "J1" = Ok i
    /\ trafficlight_getRedYellowGreenState Scenario.busy_world "J1"
       = Ok "rrGG"
    /\ i_id i = "J1" /\ i_congestionLevel i = "low".
Proof.
  destruct (sample_intersection Scenario.busy_world "J1") as [i|e] eqn:Hs;
    [|discriminate].
  exists i. split; [reflexivity|]. split; [reflexivity|].
  destruct (intersection_light_entry Scenario.busy_world "J1" Hs
              (state := "rrGG") eq_refl)
    as (Hid & Hlow & _).
  split; [exact Hid | exact Hlow].
Defined.

(** ** Ids that are skipped *)

Section Skipped.
Context {W : Type} `{External W}.

Lemma vehicles_step_count (w : W) (acc : vehicles_acc) (id : string) :
  let acc' := vehicles_step w acc id in
  (List.length (fst (fst acc')) + List.length (snd (fst acc'))
   + List.length (snd acc')
   = S (List.length (fst (fst acc)) + List.length (snd (fst acc))
        + List.length (snd acc)))%nat
  /\ (warnings_only (snd acc) -> warnings_only (snd acc')).
Proof.
  destruct acc as [[vs es] logs]. unfold vehicles_step.
  destruct (sample_vehicle w id) as [[vd ty]|e].
  - destruct (is_emergency_vehicle id ty); cbn [fst snd];
      rewrite length_app; simpl; split; (lia || auto).
  - cbn [fst snd]. rewrite length_app; simpl. split; [lia|].
    intros Hl. apply Forall_app. split; [exact Hl | now repeat constructor].
Qed.

Lemma vehicles_fold_count (w : W) (ids : list string) :
  forall acc : vehicles_acc,
    let acc' := fold_left (vehicles_step w) ids acc in
    (List.length (fst (fst acc')) + List.length (snd (fst acc'))
     + List.length (snd acc')
     = List.length (fst (fst acc)) + List.length (snd (fst acc))
       + List.length (snd acc) + List.length ids)%nat
    /\ (warnings_only (snd acc) -> warnings_only (snd acc')).
Proof.
  induction ids as [|id rest IH]; intros acc; cbn [fold_left List.length].
  - split; [lia | auto].
  - destruct (IH (vehicles_step w acc id)) as [Hlen Hw].
    destruct (vehicles_step_count w acc id) as [Hlen1 Hw1].
    split; [rewrite Hlen, Hlen1; lia | auto].
Qed.

Lemma intersections_step_count (w : W)
  (acc : list IntersectionData * list LogEvent) (id : string) :
  let acc' := intersections_step w acc id in
  (List.length (fst acc') + List.length (snd acc')
   = S (List.length (fst acc) + List.length (snd acc)))%nat
  /\ (warnings_only (snd acc) -> warnings_only (snd acc')).
Proof.
  destruct acc as [xs logs]. unfold intersections_step.
  destruct (sample_intersection w id); cbn [fst snd];
    rewrite length_app; simpl; (split; [lia|]); [auto|].
  intros Hl. apply Forall_app. split; [exact Hl | now repeat constructor].
Qed.

Lemma intersections_fold_count (w : W) (ids : list string) :
  forall acc : list IntersectionData * list LogEvent,
    let acc' := fold_left (intersections_step w) ids acc in
    (List.length (fst acc') + List.length (snd acc')
     = List.length (fst acc) + List.length (snd acc) + List.length ids)%nat
    /\ (warnings_only (snd acc) -> warnings_only (snd acc')).
Proof.
  induction ids as [|id rest IH]; intros acc; cbn [fold_left List.length].
  - split; [lia | auto].
  - destruct (IH (intersections_step w acc id)) as [Hlen Hw].
    destruct (intersections_step_count w acc id) as [Hlen1 Hw1].
    split; [rewrite Hlen, Hlen1; lia | auto].
Qed.

Lemma roads_step_count (w : W) (acc : list RoadData * list LogEvent)
  (id : string) :
  let acc' := roads_step w acc id in
  (List.length (fst acc') + List.length (snd acc')
   = List.length (fst acc) + List.length (snd acc)
     + (if Py.startswith id ":" then 0 else 1))%nat
  /\ (warnings_only (snd acc) -> warnings_only (snd acc')).
Proof.
  destruct acc as [rs logs]. unfold roads_step.
  destruct (Py.startswith id ":"); [split; [lia | auto]|].
  destruct (sample_road w id); cbn [fst snd];
    rewrite length_app; simpl; (split; [lia|]); [auto|].
  intros Hl. apply Forall_app. split; [exact Hl | now repeat constructor].
Qed.

Lemma roads_fold_count (w : W) (ids : list string) :
  forall acc : list RoadData * list LogEvent,
    let acc' := fold_left (roads_step w) ids acc in
    (List.length (fst acc') + List.length (snd acc')
     = List.length (fst acc) + List.length (snd acc)
       + List.length (filter (fun id => negb (Py.startswith id ":")) ids))%nat
    /\ (warnings_only (snd acc) -> warnings_only (snd acc')).
Proof.
  induction ids as [|id rest IH]; intros acc;
    cbn [fold_left List.length filter].
  - split; [lia | auto].
  - destruct (IH (roads_step w acc id)) as [Hlen Hw].
    destruct (roads_step_count w acc id) as [Hlen1 Hw1].
    split; [|auto]. rewrite Hlen, Hlen1.
    destruct (Py.startswith id ":"); simpl; lia.
Qed.

(** X7.  Each of the three list updates accounts for every id it looks at: an
    id either yields one published entry or one logged warning, nothing is
    dropped silently.  For vehicles and intersections those are all the ids
    the engine lists; for roads, the ordinary edges among the first fifty.
    When the id list itself cannot be read, the cached list is left as it
    was and one error is logged. *)
Theorem skipped_ids_are_logged (w : W) (b : Bridge) :
  (let '(b', evs) := update_vehicles_data w b in
   match vehicle_getIDList w with
   | Ok ids =>
       (List.length (vehicles_data b')
        + List.length (emergency_vehicles_data b') + List.length evs
        = List.length ids)%nat
       /\ warnings_only evs
   | Raise e =>
       b' = b /\ evs = [Log ERROR ("Error updating vehicles data: "
                                   ++ exn_msg e)]
   end)
  /\ (let '(b', evs) := update_intersections_data w b in
      match trafficlight_getIDList w with
      | Ok ids =>
          (List.length (intersections_data b') + List.length evs
           = List.length ids)%nat
          /\ warnings_only evs
      | Raise e =>
          b' = b /\ evs = [Log ERROR ("Error updating intersections data: "
                                      ++ exn_msg e)]
      end)
  /\ (let '(b', evs) := update_roads_data w b in
      match edge_getIDList w with
      | Ok ids =>
          (List.length (roads_data b') + List.length evs
           = List.length (filter (fun id => negb (Py.startswith id ":"))
                                 (firstn 50 ids)))%nat
          /\ warnings_only evs
      | Raise e =>
          b' = b /\ evs = [Log ERROR ("Error updating roads data: "
                                      ++ exn_msg e)]
      end).
Proof.
  split; [|split].
  - unfold update_vehicles_data.
    destruct (vehicle_getIDList w) as [ids|e]; [|split; reflexivity].
    destruct (vehicles_fold_count w ids ([], [], [])) as [Hlen Hw].
    destruct (fold_left (vehicles_step w) ids ([], [], []))
      as [[vs es] logs].
    cbn [fst snd List.length] in *.
    split; [exact Hlen | apply Hw; constructor].
  - unfold update_intersections_data.
    destruct (trafficlight_getIDList w) as [ids|e]; [|split; reflexivity].
    destruct (intersections_fold_count w ids ([], [])) as [Hlen Hw].
    destruct (fold_left (intersections_step w) ids ([], [])) as [xs logs].
    cbn [fst snd List.length] in *.
    split; [exact Hlen | apply Hw; constructor].
  - unfold update_roads_data.
    destruct (edge_getIDList w) as [ids|e]; [|split; reflexivity].
    destruct (roads_fold_count w (firstn 50 ids) ([], [])) as [Hlen Hw].
    destruct (fold_left (roads_step w) (firstn 50 ids) ([], [])) as [rs logs].
    cbn [fst snd List.length] in *.
    split; [exact Hlen | apply Hw; constructor].
Qed.

End Skipped.

(** ** Road entries *)

Lemma Qgt_bool_spec (x y : Q) : Py.Qgt_bool x y = true <-> (y < x)%Q.
Proof.
  unfold Py.Qgt_bool, Py.Qlt_bool. rewrite negb_true_iff. split.
  - intros Hle. apply Qnot_le_lt. intros Hxy.
    apply Qle_bool_iff in Hxy. congruence.
  - intros Hlt. destruct (Qle_bool x y) eqn:E; [|reflexivity].
    apply Qle_bool_iff in E. apply Qle_not_lt in E. contradiction.
Qed.

Lemma Qlt_bool_spec (x y : Q) : Py.Qlt_bool x y = true <-> (x < y)%Q.
Proof. apply (Qgt_bool_spec y x). Qed.

Section RoadEntries.
Context {W : Type} `{External W}.
Local Open Scope Q_scope.

Lemma lanes_step_cases (w : W) (edge_id : string) (lanes : list LaneData)
  (lane_index : nat) :
  (lane_sampled w (lane_id_of edge_id lane_index) = false
   /\ lanes_step w edge_id lanes lane_index = lanes)
  \/ (lane_sampled w (lane_id_of edge_id lane_index) = true
      /\ exists lane,
           lanes_step w edge_id lanes lane_index = (lanes ++ [lane])%list
           /\ l_id lane = lane_id_of edge_id lane_index
           /\ lane_in_bounds lane).
Proof.
  unfold lanes_step, lane_sampled, lane_id_of, rbind.
  destruct (lane_getLastStepVehicleNumber w _) as [n0|]; [|now left].
  destruct (lane_getLastStepMeanSpeed w _) as [s0|]; [|now left].
  destruct (lane_getLength w _) as [l0|]; [|now left].
  right. split; [reflexivity|]. eexists. split; [reflexivity|].
  split; [reflexivity|].
  unfold lane_in_bounds.
  cbn [l_vehicleCount l_density l_flow]. intros Hc.
  set (c := safe_int n0 0) in *. set (s := safe_float s0 0.0).
  set (l := safe_float l0 0.0).
  assert (Hcq : 0 <= inject_Z c)
    by (unfold Qle; simpl; lia).
  split; [|split].
  - destruct (Py.Qgt_bool l 0) eqn:El; [|apply Qle_refl].
    apply Qgt_bool_spec in El.
    apply Qle_shift_div_l; [|lra].
    apply Qlt_shift_div_l; lra.
  - destruct (Py.Qgt_bool s 0) eqn:Es; [|apply Qle_refl].
    pose proof (Q.le_max_l 1.0 s) as Hm.
    apply Qle_shift_div_l; [lra|nra].
  - destruct (Py.Qgt_bool s 0) eqn:Es; [|nra].
    pose proof (Q.le_max_l 1.0 s) as Hm.
    apply Qle_shift_div_r; [lra|nra].
Qed.

Lemma lanes_fold (w : W) (edge_id : string) (indices : list nat) :
  forall lanes,
    let lanes' := fold_left (lanes_step w edge_id) indices lanes in
    map l_id lanes'
    = (map l_id lanes
       ++ filter (lane_sampled w) (map (lane_id_of edge_id) indices))%list
    /\ (Forall lane_in_bounds lanes -> Forall lane_in_bounds lanes').
Proof.
  induction indices as [|k rest IH]; intros lanes; simpl.
  - rewrite app_nil_r. auto.
  - destruct (lanes_step_cases w edge_id lanes k)
      as [[Hno ->] | (Hyes & lane & -> & Hid & Hb)].
    + rewrite Hno. apply IH.
    + rewrite Hyes. destruct (IH (lanes ++ [lane])%list) as [Hids Hall].
      split.
      * rewrite Hids, map_app, <- app_assoc. simpl. now rewrite Hid.
      * intros Hl. apply Hall. apply Forall_app. split; [exact Hl|].
        now constructor.
Qed.

(** What a finished per-edge [try] block read and built. *)
Lemma sample_road_inv (w : W) (edge_id : string) (road : RoadData) :
  sample_road w edge_id = Ok road ->
  exists mean_speed0 lane_count0,
    edge_getLastStepMeanSpeed w edge_id = Ok mean_speed0
    /\ edge_getLaneNumber w edge_id = Ok lane_count0
    /\ r_lanes road
       = fold_left (lanes_step w edge_id)
                   (Py.range (safe_int lane_count0 0)) []
    /\ r_congestionLevel road
       = (if Py.Qlt_bool (safe_float mean_speed0 0.0) 5.0 then "high"
          else if Py.Qlt_bool (safe_float mean_speed0 0.0) 15.0
               then "medium" else "low")
    /\ r_incidents road = []
    /\ List.length (r_coordinates road) = 2%nat.
Proof.
  unfold sample_road, rbind. intros Hs.
  destruct (edge_getLastStepVehicleNumber w edge_id); [|discriminate].
  destruct (edge_getLastStepMeanSpeed w edge_id) as [mean_speed0|];
    [|discriminate].
  destruct (edge_getLastStepVehicleIDs w edge_id); [|discriminate].
  destruct (edge_getLaneNumber w edge_id) as [lane_count0|]; [|discriminate].
  injection Hs as <-. exists mean_speed0, lane_count0. repeat split.
Qed.



End RoadEntries.



(** ** What the loop and the refresh do to the engine *)

Section LoopEffects.
Context {W : Type} `{External W}.

Lemma update_simulation_data_effects (r : Runtime W Bridge) :
  let r' := snd (update_simulation_data r) in
  fst (update_simulation_data r) = Ok tt
  /\ world r' = world r /\ issued r' = issued r /\ cwd r' = cwd r
  /\ threads r' = threads r
  /\ sumo_process (bridge r') = sumo_process (bridge r)
  /\ update_thread (bridge r') = update_thread (bridge r)
  /\ stop_updates (bridge r') = stop_updates (bridge r)
  /\ (connected (bridge r') = true -> connected (bridge r) = true)
  /\ (connected (bridge r) = false -> update_simulation_data r = (Ok tt, r)).
Proof.
  destruct r as [w c b ts cs l]; destruct b.
  unfold update_simulation_data, sample_all, sample, mark_if_connection_lost.
  unfold_prims. crunch;
    repeat match goal with
           | Hq : update_vehicles_data ?w ?b = (_, _) |- _ =>
               let C := fresh in
               pose proof (update_vehicles_data_control w b) as C;
               rewrite Hq in C; unfold control in C; simpl in C;
               injection C as ? ? ? ? ?; clear Hq
           | Hq : update_intersections_data ?w ?b = (_, _) |- _ =>
               let C := fresh in
               pose proof (update_intersections_data_control w b) as C;
               rewrite Hq in C; unfold control in C; simpl in C;
               injection C as ? ? ? ? ?; clear Hq
           | Hq : update_roads_data ?w ?b = (_, _) |- _ =>
               let C := fresh in
               pose proof (update_roads_data_control w b) as C;
               rewrite Hq in C; unfold control in C; simpl in C;
               injection C as ? ? ? ? ?; clear Hq
           | Hq : update_simulation_stats ?w ?b = (_, _) |- _ =>
               let C := fresh in
               pose proof (update_simulation_stats_control w b) as C;
               rewrite Hq in C; unfold control in C; simpl in C;
               injection C as ? ? ? ? ?; clear Hq
           end;
    repeat split; try congruence;
    try (intros ->; discriminate).
Qed.

Lemma step_and_check_issued (i : nat) (r : Runtime W Bridge) :
  (issued (snd (step_and_check i r)) = issued r
   \/ (simulation_running (bridge r) = true
       /\ issued (snd (step_and_check i r)) = (issued r ++ [CmdStep])%list))
  /\ cwd (snd (step_and_check i r)) = cwd r.
Proof.
  destruct r as [w c b ts cs l]; destruct b.
  unfold step_and_check. unfold_prims. crunch; auto.
Qed.

Lemma loop_handler_frame (i : nat) (e : exn) (r : Runtime W Bridge) :
  fst (loop_handler i e r) = Ok tt
  /\ issued (snd (loop_handler i e r)) = issued r
  /\ cwd (snd (loop_handler i e r)) = cwd r.
Proof.
  destruct r as [w c b ts cs l]; destruct b.
  unfold loop_handler, loop_exit. unfold_prims. crunch; auto.
Qed.

Lemma loop_exit_frame (i : nat) (r : Runtime W Bridge) :
  fst (loop_exit i r) = Ok tt /\ cwd (snd (loop_exit i r)) = cwd r.
Proof.
  destruct r as [w c b ts cs l]; destruct b.
  unfold loop_exit. unfold_prims. crunch; auto.
Qed.

(** X10.  Refreshing the cache only reads the engine: it never raises,
    sends no command, leaves the world, the working directory, the threads,
    the process handle, the thread handle and the stop flag as they are,
    and never marks the bridge connected; on a bridge that is not connected
    it does nothing at all. *)
Theorem refresh_only_reads (r : Runtime W Bridge) :
  let r' := snd (update_simulation_data r) in
  fst (update_simulation_data r) = Ok tt
  /\ world r' = world r /\ issued r' = issued r /\ cwd r' = cwd r
  /\ threads r' = threads r
  /\ sumo_process (bridge r') = sumo_process (bridge r)
  /\ update_thread (bridge r') = update_thread (bridge r)
  /\ stop_updates (bridge r') = stop_updates (bridge r)
  /\ (connected (bridge r') = true -> connected (bridge r) = true)
  /\ (connected (bridge r) = false -> update_simulation_data r = (Ok tt, r)).
Proof. exact (update_simulation_data_effects r). Qed.

Lemma update_simulation_data_frame (r : Runtime W Bridge) :
  let r' := snd (update_simulation_data r) in
  fst (update_simulation_data r) = Ok tt
  /\ world r' = world r /\ issued r' = issued r /\ cwd r' = cwd r.
Proof.
  destruct (update_simulation_data_effects r) as (H1 & H2 & H3 & H4 & _).
  auto.
Qed.

Lemma update_data_loop_step_frame (i : nat) (r : Runtime W Bridge) :
  fst (update_data_loop_step i r) = Ok tt
  /\ (issued (turn i r) = issued r
      \/ (loop_running r i /\ simulation_running (bridge r) = true
          /\ issued (turn i r) = (issued r ++ [CmdStep])%list))
  /\ cwd (turn i r) = cwd r.
Proof.
  unfold turn.
  destruct (alive (thread_of r i)) eqn:Halive;
    [|rewrite (turn_when_dead r i Halive); auto].
  destruct (negb (stop_updates (bridge r)) && connected (bridge r)) eqn:Hgo.
  - assert (Hrun : loop_running r i).
    { apply andb_true_iff in Hgo as [Hs Hc]. apply negb_true_iff in Hs.
      now split. }
    rewrite (turn_when_running Hrun). unfold try_except.
    destruct (step_and_check_issued i r) as [Hiss Hcwd].
    destruct (loop_try_body_cases r i) as [(e & -> & _) | [_ ->]].
    + destruct (loop_handler_frame i e (snd (step_and_check i r)))
        as (Hok & Hi & Hc).
      destruct (loop_handler i e (snd (step_and_check i r))) as [res r'].
      cbn [fst snd] in *. subst res. rewrite Hi, Hc.
      split; [reflexivity|]. split; [|exact Hcwd].
      destruct Hiss as [->|[Hsim ->]]; auto.
    + destruct (update_simulation_data_frame (snd (step_and_check i r)))
        as (_ & _ & Hi & Hc).
      unfold sleep, act. cbn [fst snd issued cwd set_world].
      rewrite Hi, Hc.
      split; [reflexivity|]. split; [|exact Hcwd].
      destruct Hiss as [->|[Hsim ->]]; auto.
  - rewrite (turn_when_stopped r i Halive Hgo).
    destruct (loop_exit_ends_thread r i) as (_ & _ & _ & Hi).
    destruct (loop_exit_frame i r) as [Hok Hc]. auto.
Qed.

(** X11.  One turn of the update loop never lets an exception escape and sends
    the engine at most one command, a single simulation step, and that only
    while the loop is running and the simulation is not paused; it never
    starts or closes a session and never sets a traffic light. *)
Theorem turn_steps_at_most_once (i : nat) (r : Runtime W Bridge) :
  fst (update_data_loop_step i r) = Ok tt
  /\ (issued (turn i r) = issued r
      \/ (loop_running r i /\ simulation_running (bridge r) = true
          /\ issued (turn i r) = (issued r ++ [CmdStep])%list)).
Proof.
  destruct (update_data_loop_step_frame i r) as (Hok & Hiss & _). auto.
Qed.

Lemma dead_loop_stays (fuel i : nat) (r : Runtime W Bridge) :
  alive (thread_of r i) = false -> update_data_loop fuel i r = (Ok tt, r).
Proof.
  intros Hdead. induction fuel as [|fuel IH]; [reflexivity|].
  cbn [update_data_loop]. unfold bind.
  rewrite (turn_when_dead r i Hdead). exact IH.
Qed.

Lemma update_data_loop_total (fuel i : nat) (r : Runtime W Bridge) :
  fst (update_data_loop fuel i r) = Ok tt.
Proof.
  revert r. induction fuel as [|fuel IH]; intros r; [reflexivity|].
  cbn [update_data_loop]. unfold bind.
  destruct (update_data_loop_step_frame i r) as (Hok & _).
  destruct (update_data_loop_step i r) as [res r1]. cbn [fst] in Hok.
  subst res. apply IH.
Qed.

(** X12.  No exception escapes [update_data_loop].  Once the stop flag is set or
    the bridge is marked disconnected, the loop ends at its next check of
    the [while] condition: the thread is over, and on the way out it sent
    nothing to the engine and wrote nothing to the bridge object. *)
Theorem stop_flag_ends_loop (fuel i : nat) (r : Runtime W Bridge) :
  alive (thread_of r i) = true ->
  negb (stop_updates (bridge r)) && connected (bridge r) = false ->
  let r' := snd (update_data_loop (S fuel) i r) in
  fst (update_data_loop (S fuel) i r) = Ok tt
  /\ alive (thread_of r' i) = false
  /\ bridge r' = bridge r /\ world r' = world r /\ issued r' = issued r
  /\ forall fuel' r0, fst (update_data_loop fuel' i r0) = Ok tt.
Proof.
  intros Halive Hgo. cbn [update_data_loop]. unfold bind.
  rewrite (turn_when_stopped r i Halive Hgo).
  destruct (loop_exit_ends_thread r i) as (Hdead & Hb & Hw & Hi).
  destruct (loop_exit_frame i r) as [Hok _].
  destruct (loop_exit i r) as [res r1]. cbn [fst snd] in *. subst res.
  rewrite (dead_loop_stays fuel i r1 Hdead). cbn [fst snd].
  repeat split; try assumption. intros. apply update_data_loop_total.
Qed.

End LoopEffects.

Lemma stop_flag_ends_loop_witness :
  let r := snd (handle POST_simulation_pause (Sim.polling Scenario.calm_world)) in
  alive (thread_of r 0) = true
  /\ negb (stop_updates (bridge r)) && connected (bridge r) = false
  /\ alive (thread_of (snd (update_data_loop 3 0 r)) 0) = false
  /\ issued (snd (update_data_loop 3 0 r)) = issued r.
Proof.
  destruct (stop_flag_ends_loop 2 0
              (snd (handle POST_simulation_pause
                      (Sim.polling Scenario.calm_world)))
              eq_refl eq_refl) as (_ & Hdead & _ & _ & Hiss & _).
  split; [reflexivity|]. split; [reflexivity|].
  split; [exact Hdead | exact Hiss].
Defined.

(** ** Pausing and resuming *)

Section PauseResume.
Context {W : Type} `{External W}.

Lemma pause_when_running (r : Runtime W Bridge) (i : nat) :
  connected (bridge r) = true ->
  update_thread (bridge r) = Some i -> alive (thread_of r i) = true ->
  handle POST_simulation_pause r
  = (Ok (mkResponse 200 true "Simulation paused" NoData),
     set_log (log r ++ [Log INFO "Stopped data update thread"])%list
       (set_bridge (set_stop_updates true (bridge r)) r)).
Proof.
  destruct r as [w c b ts cs l]; destruct b. unfold thread_of. simpl.
  intros -> -> Halive.
  unfold handle, stop_data_updates. unfold_prims. unfold thread_of. simpl.
  rewrite Halive. reflexivity.
Qed.

Lemma resume_after_exit (r : Runtime W Bridge) (i : nat) :
  connected (bridge r) = true ->
  update_thread (bridge r) = Some i -> alive (thread_of r i) = false ->
  handle POST_simulation_resume r
  = (Ok (mkResponse 200 true "Simulation resumed" NoData),
     set_log (log r ++ [Log INFO "Started data update thread"])%list
       (set_bridge
          (set_update_thread (Some (List.length (threads r)))
             (set_stop_updates false (bridge r)))
          (set_threads
             (threads r
              ++ [{| alive := true; update_count := 0; last_time := -1 |}])
             r))).
Proof.
  destruct r as [w c b ts cs l]; destruct b. unfold thread_of. simpl.
  intros -> -> Halive.
  unfold handle, start_data_updates, thread_start. unfold_prims.
  unfold thread_of. simpl. rewrite Halive. reflexivity.
Qed.


End PauseResume.


(** ** Outcomes of actions *)

Section HoareLogic.
Context {W B : Type}.

Lemma hoare_ret {A} P (a : A) (Q : A -> Runtime W B -> Prop) E :
  (forall r, P r -> Q a r) -> hoare P (ret a) Q E.
Proof. intros HQ r Hr. now apply HQ. Qed.

Lemma hoare_raise {A} P (e : exn) (Q : A -> Runtime W B -> Prop)
  (E : exn -> Runtime W B -> Prop) :
  (forall r, P r -> E e r) -> hoare P (raise e) Q E.
Proof. intros HE r Hr. now apply HE. Qed.

Lemma hoare_bind {A C} P (m : M W B A) (k : A -> M W B C) Q' Q E :
  hoare P m Q' E -> (forall a, hoare (Q' a) (k a) Q E) ->
  hoare P (bind m k) Q E.
Proof.
  intros Hm Hk r Hr. unfold bind. specialize (Hm r Hr).
  destruct (m r) as [[a|e] r1]; [now apply Hk | exact Hm].
Qed.

Lemma hoare_try_except {A} P (m : M W B A) (h : exn -> M W B A) Q E' E :
  hoare P m Q E' -> (forall e, hoare (E' e) (h e) Q E) ->
  hoare P (try_except m h) Q E.
Proof.
  intros Hm Hh r Hr. unfold try_except. specialize (Hm r Hr).
  destruct (m r) as [[a|e] r1]; [exact Hm | now apply Hh].
Qed.

Lemma hoare_any {A} P (m : M W B A) : hoare P m whatever whatever.
Proof. intros r _. destruct (m r) as [[a|e] r1]; exact I. Qed.

Lemma hoare_weaken {A} (P P' : Runtime W B -> Prop) (m : M W B A) Q E :
  (forall r, P' r -> P r) -> hoare P m Q E -> hoare P' m Q E.
Proof. intros HP Hm r Hr. apply Hm. now apply HP. Qed.

(** A [finally] clause that leaves the bridge object and the threads alone
    passes on what the block established about them. *)
Lemma hoare_try_finally {A} P (m : M W B A) (f : M W B unit)
  (Q : A -> Runtime W B -> Prop) :
  hoare P m Q whatever -> keeps_state f ->
  (forall a, state_only (Q a)) ->
  hoare P (try_finally m f) Q whatever.
Proof.
  intros Hm Hf HQ r Hr. unfold try_finally. specialize (Hm r Hr).
  destruct (m r) as [res r1]. destruct (Hf r1) as [Hb Ht].
  destruct (f r1) as [[[]|e] r2]; [|exact I]. cbn [snd] in *.
  destruct res as [a|e]; [|exact I]. exact (HQ a r1 r2 Hb Ht Hm).
Qed.

Lemma hoare_logger P (lvl : level) (msg : string)
  (E : exn -> Runtime W B -> Prop) :
  hoare P (logger lvl msg) whatever E.
Proof. intros r _. exact I. Qed.

End HoareLogic.

(** Split a goal along the action, asking nothing of the steps before the
    last. *)
Ltac hoare_step :=
  cbv zeta;
  match goal with
  | |- hoare _ (ret _) _ _ => apply hoare_ret; intros
  | |- hoare _ (raise _) _ _ => apply hoare_raise; intros
  | |- hoare _ (bind (logger_error _) _) _ _ =>
      apply hoare_bind with (Q' := whatever); [apply hoare_logger | intro]
  | |- hoare _ (bind _ _) _ _ =>
      apply hoare_bind with (Q' := whatever); [apply hoare_any | intro]
  | |- hoare _ (try_except _ _) _ _ =>
      apply hoare_try_except with (E' := whatever); [|intro]
  | |- hoare _ (if ?c then _ else _) _ _ => destruct c
  | |- hoare _ (match ?x with _ => _ end) _ _ => destruct x
  end.

(** ** Connecting *)

Section Connect.
Context {W : Type} `{External W}.
Local Open Scope act_scope.

Lemma connect_outcome_state_only (ok : bool) :
  state_only (connect_outcome (W := W) ok).
Proof.
  intros r r' Hb Ht [Hc Hok]. unfold connect_outcome, thread_of.
  rewrite Hb, Ht. split; [exact Hc|]. exact Hok.
Qed.

Lemma connected_and_polling (P : Runtime W Bridge -> Prop) :
  hoare P
    (modify_bridge (set_connected true) ;;
     modify_bridge (set_simulation_running true) ;;
     start_data_updates ;;
     ret true)
    connect_outcome whatever.
Proof.
  intros r _. destruct r as [w c b ts cs l].
  destruct b as [host port api is_connected is_running process vehicles
    intersections roads emergency stats thread stopping].
  unfold start_data_updates, thread_start, connect_outcome.
  unfold_prims. unfold thread_of. cbn.
  destruct thread as [t|]; cbn.
  - destruct (alive (nth t ts dead_thread)) eqn:Ha; cbn.
    + split; [reflexivity|]. intros _. split; [reflexivity|].
      exists t. split; [reflexivity | exact Ha].
    + split; [reflexivity|]. intros _. split; [reflexivity|].
      exists (List.length ts). split; [reflexivity|].
      now rewrite nth_middle.
  - split; [reflexivity|]. intros _. split; [reflexivity|].
    exists (List.length ts). split; [reflexivity|]. now rewrite nth_middle.
Qed.

Lemma connect_in_config_dir_outcome (config_dir : string)
  (sumo_cmd : list string) :
  hoare any (connect_in_config_dir config_dir sumo_cmd)
        connect_outcome whatever.
Proof.
  unfold connect_in_config_dir.
  do 8 hoare_step. apply connected_and_polling.
Qed.

Lemma connect_to_sumo_outcome (use_gui : bool) :
  hoare any (connect_to_sumo use_gui) connect_outcome never.
Proof.
  unfold connect_to_sumo. hoare_step.
  - do 8 hoare_step.
    apply hoare_try_finally.
    + eapply hoare_weaken; [|apply connect_in_config_dir_outcome].
      intros; exact I.
    + apply keeps_os_chdir.
    + apply connect_outcome_state_only.
  - intros r _. destruct r as [w c b ts cs l]; destruct b.
    unfold_prims. cbn. split; [reflexivity | discriminate].
Qed.

(** X14.  [connect_to_sumo] never raises, and what it returns is the connection
    flag it leaves behind.  After [True] the simulation is marked running
    and the update thread the bridge refers to is alive. *)
Theorem connect_reports_its_flag (use_gui : bool) (r : Runtime W Bridge) :
  let r' := snd (connect_to_sumo use_gui r) in
  exists ok,
    fst (connect_to_sumo use_gui r) = Ok ok
    /\ connected (bridge r') = ok
    /\ (ok = true ->
        simulation_running (bridge r') = true
        /\ exists t, update_thread (bridge r') = Some t
                     /\ alive (thread_of r' t) = true).
Proof.
  pose proof (connect_to_sumo_outcome use_gui (r := r) I) as Hpost.
  destruct (connect_to_sumo use_gui r) as [[ok|e] r']; [|destruct Hpost].
  exists ok. split; [reflexivity|]. exact Hpost.
Qed.

End Connect.

Section Config.
Context {W : Type} `{External W}.

(** X15.  Without its configuration file [connect_to_sumo] gives up before it
    starts an engine: it returns [False] and logs two errors.  By then it
    has closed whatever session was open; it clears the connection flag and
    leaves the rest of the bridge object, the threads and the working
    directory as they were. *)
Theorem connect_without_config (use_gui : bool) (r : Runtime W Bridge) :
  path_exists (regular_config r) = false ->
  let r' := snd (connect_to_sumo use_gui r) in
  fst (connect_to_sumo use_gui r) = Ok false
  /\ issued r' = (issued r ++ [CmdClose])%list
  /\ world r' = snd (traci_close (world r))
  /\ bridge r' = set_connected false (bridge r)
  /\ threads r' = threads r /\ cwd r' = cwd r
  /\ errors (log r') = (errors (log r) + 2)%nat.
Proof.
  unfold regular_config. destruct r as [w c b ts cs l]. cbn [cwd].
  intros Hmissing.
  unfold connect_to_sumo, os_path_abspath. unfold_prims.
  cbn [world cwd bridge threads issued log fst snd set_world set_issued
       set_log set_bridge].
  destruct (traci_close w) as [[[]|e] w1];
    cbn [world cwd bridge threads issued log fst snd set_world set_issued
         set_log set_bridge];
    rewrite Hmissing;
    cbn [world cwd bridge threads issued log fst snd set_world set_issued
         set_log set_bridge];
    rewrite !errors_app; cbn; repeat split; lia.
Qed.

End Config.

Lemma connect_without_config_witness :
  @path_exists _ Bare.engine
     (@regular_config _ Bare.engine _ Scenario.fresh) = false
  /\ fst (@connect_to_sumo _ Bare.engine false Scenario.fresh) = Ok false
  /\ issued (snd (@connect_to_sumo _ Bare.engine false Scenario.fresh))
     = [CmdClose].
Proof.
  assert (Hmissing : @path_exists _ Bare.engine
                       (@regular_config _ Bare.engine _ Scenario.fresh)
                     = false) by reflexivity.
  split; [exact Hmissing|].
  destruct (@connect_without_config _ Bare.engine false Scenario.fresh
              Hmissing) as (Hres & Hiss & _).
  split; [exact Hres | exact Hiss].
Defined.

(** ** Spawning the engine *)

Section Spawn.
Context {W : Type} `{External W}.
Local Open Scope act_scope.

Lemma spawned_and_polled (P : Runtime W Bridge -> Prop) (pid : nat) :
  hoare P
    (modify_bridge (set_sumo_process (Some pid)) ;;
     logger_info ("SUMO process started with PID: " ++ Py.str_of_nat pid) ;;
     sleep 1 ;;
     code <- query (fun w => Ok (Popen_poll pid w)) ;;
     match code with
     | Some _ =>
         stdout <- act (Popen_communicate pid) ;;
         logger_error ("SUMO process terminated immediately. Output: "
                       ++ stdout) ;;
         ret false
     | None =>
         logger_info "SUMO process appears to be running successfully" ;;
         ret true
     end)
    spawn_outcome whatever.
Proof.
  intros r _. destruct r as [w c b ts cs l]; destruct b.
  unfold spawn_outcome. unfold_prims. cbn.
  destruct (Popen_poll pid (time_sleep 1 w)) as [code|] eqn:Hpoll; cbn.
  - destruct (Popen_communicate pid (time_sleep 1 w)) as [[out|e] w1]; cbn;
      [discriminate | exact I].
  - intros _. exists pid. split; [reflexivity | exact Hpoll].
Qed.

Lemma start_sumo_process_outcome (config_path : string) (use_gui : bool) :
  hoare any (start_sumo_process config_path use_gui) spawn_outcome never.
Proof.
  unfold start_sumo_process. hoare_step.
  - do 7 hoare_step. apply spawned_and_polled.
  - do 2 hoare_step. discriminate.
Qed.

Lemma bind_run {A C} (m : M W Bridge A) (k : A -> M W Bridge C)
  (r r1 : Runtime W Bridge) (a : A) :
  m r = (Ok a, r1) -> bind m k r = k a r1.
Proof. intros Hm. unfold bind. now rewrite Hm. Qed.

Lemma stop_sumo_process_keeps_cwd (r : Runtime W Bridge) :
  cwd (snd (stop_sumo_process r)) = cwd r.
Proof.
  assert (Hp : preserves (in_dir (cwd r)) stop_sumo_process).
  { unfold stop_sumo_process, disconnect_from_sumo, stop_data_updates.
    preserve; auto with actions. }
  exact (Hp r eq_refl).
Qed.

(** X16.  [start_sumo_process] never raises.  It returns [True] only with the
    handle of the spawned process stored and the process still running one
    second later.  When the configuration file is not where it looks, it
    returns [False] having done no more than stop what was running before,
    with one error logged. *)
Theorem start_reports_running_process (config_path : string) (use_gui : bool)
  (r : Runtime W Bridge) :
  let r' := snd (start_sumo_process config_path use_gui r) in
  let stopped := snd (stop_sumo_process r) in
  (exists ok,
     fst (start_sumo_process config_path use_gui r) = Ok ok
     /\ (ok = true ->
         exists pid, sumo_process (bridge r') = Some pid
                     /\ Popen_poll pid (world r') = None))
  /\ (path_exists (full_config_path config_path r) = false ->
      fst (start_sumo_process config_path use_gui r) = Ok false
      /\ world r' = world stopped /\ bridge r' = bridge stopped
      /\ threads r' = threads stopped /\ issued r' = issued stopped
      /\ errors (log r') = S (errors (log stopped))).
Proof.
  intros r' stopped. subst r'. split.
  - pose proof (start_sumo_process_outcome config_path use_gui (r := r) I)
      as Hpost.
    destruct (start_sumo_process config_path use_gui r) as [[ok|e] r1];
      [|destruct Hpost].
    exists ok. split; [reflexivity | exact Hpost].
  - unfold full_config_path. rewrite <- (stop_sumo_process_keeps_cwd r).
    subst stopped. pose proof (stop_sumo_process_never_raises r) as Hok.
    destruct (stop_sumo_process r) as [res r1] eqn:Estop.
    cbn [fst snd] in *. subst res. intros Hmissing.
    unfold start_sumo_process, try_except.
    rewrite bind_run with (1 := Estop).
    destruct r1 as [w c b ts cs l]. cbn [cwd] in Hmissing.
    unfold os_path_abspath. unfold_prims.
    cbn [world cwd bridge threads issued log fst snd set_world set_issued
         set_log set_bridge].
    rewrite Hmissing.
    cbn [negb world cwd bridge threads issued log fst snd set_world set_issued
         set_log set_bridge].
    rewrite !errors_app. cbn. repeat split. lia.
Qed.

End Spawn.

Lemma start_reports_running_process_witness :
  path_exists (full_config_path "missing.sumocfg" Scenario.fresh) = false
  /\ fst (start_sumo_process "missing.sumocfg" false Scenario.fresh) = Ok false
  /\ fst (start_sumo_process "dashboard_config.sumocfg" false Scenario.fresh)
     = Ok true
  /\ sumo_process
       (bridge (snd (start_sumo_process "dashboard_config.sumocfg" false
                       Scenario.fresh)))
     = Some 4242%nat.
Proof.
  assert (Hmissing : path_exists
                       (full_config_path "missing.sumocfg" Scenario.fresh)
                     = false) by reflexivity.
  split; [exact Hmissing|].
  destruct (start_reports_running_process "missing.sumocfg" false
              Scenario.fresh) as [_ Hno].
  split; [exact (proj1 (Hno Hmissing))|].
  split; reflexivity.
Defined.

(** ** The routes *)

Section Answers.
Context {W : Type} `{External W}.

Lemma hoare_now (P : Runtime W Bridge -> Prop)
  (E : exn -> Runtime W Bridge -> Prop) :
  hoare P now whatever E.
Proof. intros r _. exact I. Qed.

Lemma hoare_get_bridge (P : Runtime W Bridge -> Prop)
  (E : exn -> Runtime W Bridge -> Prop) :
  hoare P get_bridge whatever E.
Proof. intros r _. exact I. Qed.

Ltac answer_step :=
  cbv zeta;
  match goal with
  | |- hoare _ (ret _) _ _ =>
      apply hoare_ret; intros; unfold well_formed; simpl;
      split; [tauto | first [reflexivity | discriminate | tauto ]]
  | |- hoare _ (raise _) _ _ => apply hoare_raise; intros; exact I
  | |- hoare _ (bind _ _) _ _ =>
      apply hoare_bind with (Q' := whatever);
      [first [apply hoare_logger | apply hoare_now | apply hoare_get_bridge
             | apply hoare_any] | intro]
  | |- hoare _ (try_except _ _) _ _ =>
      apply hoare_try_except with (E' := whatever); [|intro]
  | |- hoare _ (if ?c then _ else _) _ _ => destruct c
  | |- hoare _ (match ?x with _ => _ end) _ _ => destruct x
  end.

Lemma handle_answers (q : Request) :
  hoare any (handle q) (fun resp _ => well_formed resp) never.
Proof.
  destruct q; unfold handle, error_500, logger_error; repeat answer_step.
Qed.

(** X17.  Every request is answered: no exception escapes a route, the status is
    200, 400 or 500, and an answer that reports success has status 200. *)
Theorem every_request_is_answered (q : Request) (r : Runtime W Bridge) :
  exists resp,
    fst (handle q r) = Ok resp
    /\ In (http_status resp) [200; 400; 500]%nat
    /\ (success resp = true -> http_status resp = 200%nat).
Proof.
  pose proof (handle_answers q (r := r) I) as Hpost.
  destruct (handle q r) as [[resp|e] r']; [|destruct Hpost].
  exists resp. split; [reflexivity | exact Hpost].
Qed.

End Answers.

Section ReadRoutes.
Context {W : Type} `{External W}.

(** X18.  The seven routes that serve the flags and the cache never call the
    engine and change nothing: their answer, always a success, is a
    function of the bridge object and of the clock alone, so they keep
    answering from the cache when the engine is gone. *)
Theorem cache_routes_only_read (q : Request) (r : Runtime W Bridge) :
  serves_cache q = true ->
  snd (handle q r) = r
  /\ (exists resp, fst (handle q r) = Ok resp
                   /\ http_status resp = 200%nat /\ success resp = true)
  /\ (forall r' : Runtime W Bridge,
        bridge r' = bridge r -> time_time (world r') = time_time (world r) ->
        fst (handle q r') = fst (handle q r)).
Proof.
  destruct r as [w c b ts cs l].
  destruct q; try discriminate; intros _;
    (split; [reflexivity|]);
    (split; [eexists; split; [reflexivity|split; reflexivity]|]);
    intros [w' c' b' ts' cs' l']; simpl; intros -> Ht;
    unfold handle, now; unfold_prims; simpl; now rewrite Ht.
Qed.

(** X19.  [GET /status] answers with HTTP 200 whatever happens and changes
    nothing.  On a bridge that is not connected it does not call the
    engine and passes on the [simulation_running] flag as it stands; when
    an engine getter raises it reports both flags as false, while the flags
    of the bridge keep their values. *)
Theorem status_always_answers (r : Runtime W Bridge) :
  let t := time_time (world r) in
  snd (handle GET_status r) = r
  /\ (exists resp, fst (handle GET_status r) = Ok resp
                   /\ http_status resp = 200%nat)
  /\ (connected (bridge r) = false ->
      fst (handle GET_status r)
      = Ok (mkResponse 200 true ""
              (StatusData false (simulation_running (bridge r)) (TInt 0) 0 t)))
  /\ (forall e,
        connected (bridge r) = true ->
        simulation_getTime (world r) = Raise e
        \/ (is_ok (simulation_getTime (world r)) = true
            /\ vehicle_getIDList (world r) = Raise e) ->
        fst (handle GET_status r)
        = Ok (mkResponse 200 false (exn_msg e)
                (StatusData false false (TInt 0) 0 t))).
Proof.
  destruct r as [w c b ts cs l].
  destruct b as [host port api is_connected is_running process vehicles
    intersections roads emergency stats thread stopping].
  cbn [world bridge].
  unfold handle, now. unfold_prims. cbn.
  split; [|split; [|split]].
  - destruct is_connected; cbn; [|reflexivity].
    destruct (simulation_getTime w); cbn; [|reflexivity].
    destruct (vehicle_getIDList w); reflexivity.
  - destruct is_connected; cbn; [|eexists; split; reflexivity].
    destruct (simulation_getTime w); cbn; [|eexists; split; reflexivity].
    destruct (vehicle_getIDList w); eexists; split; reflexivity.
  - intros ->. reflexivity.
  - intros e -> [Ht | [Ht Hv]]; cbn.
    + rewrite Ht. reflexivity.
    + destruct (simulation_getTime w); [|discriminate]. cbn.
      rewrite Hv. reflexivity.
Qed.

Lemma handle_disconnect (r : Runtime W Bridge) :
  handle POST_disconnect r
  = (Ok (mkResponse 200 true "Disconnected from SUMO" NoData),
     snd (disconnect_from_sumo r)).
Proof.
  unfold handle, try_except at 1, bind at 1.
  pose proof (disconnect_never_raises r) as Hok.
  destruct (disconnect_from_sumo r) as [res r1]. cbn [fst snd] in *.
  subst res. reflexivity.
Qed.

(** X20.  [POST /disconnect] and [POST /stop-sumo] answer "success" whatever the
    engine did, their [except] clauses being out of reach.  When
    [traci.close()] raises, the disconnect route still answers that the
    bridge is disconnected, while the bridge stays marked connected, with
    the stop flag set and one error logged. *)
Theorem teardown_routes_report_success (r : Runtime W Bridge) :
  fst (handle POST_disconnect r)
  = Ok (mkResponse 200 true "Disconnected from SUMO" NoData)
  /\ fst (handle POST_stop_sumo r)
     = Ok (mkResponse 200 true "SUMO stopped successfully" NoData)
  /\ (forall e,
        connected (bridge r) = true ->
        fst (traci_close (world r)) = Raise e ->
        let r' := snd (handle POST_disconnect r) in
        connected (bridge r') = true
        /\ simulation_running (bridge r') = simulation_running (bridge r)
        /\ stop_updates (bridge r') = true
        /\ errors (log r') = S (errors (log r))).
Proof.
  split; [now rewrite handle_disconnect|].
  split; [now rewrite handle_stop_sumo|].
  intros e Hcon Hclose. rewrite handle_disconnect. cbn [snd].
  destruct r as [w c b ts cs l].
  destruct b as [host port api is_connected is_running process vehicles
    intersections roads emergency stats thread stopping].
  simpl in Hcon, Hclose. subst is_connected.
  unfold disconnect_from_sumo, stop_data_updates. unfold_prims.
  unfold thread_of. cbn -[errors].
  destruct thread as [t|]; cbn -[errors];
    [destruct (alive (nth t ts dead_thread)); cbn -[errors]|];
    (destruct (traci_close w) as [res w1]; cbn [fst] in Hclose; subst res);
    cbn -[errors]; rewrite ?errors_app; cbn; repeat split; lia.
Qed.

End ReadRoutes.

Lemma cache_routes_only_read_witness :
  let r := Sim.polling Scenario.busy_world in
  serves_cache GET_all_data = true
  /\ snd (handle GET_all_data r) = r.
Proof.
  destruct (cache_routes_only_read GET_all_data
              (Sim.polling Scenario.busy_world) eq_refl) as [Hsame _].
  split; [reflexivity | exact Hsame].
Defined.

Section OverrideSignal.
Context {W : Type} `{External W}.

(** X21.  An override that succeeds sent the engine one command: the state of the
    target set to four equal signals, "rrrr" for "red", "yyyy" for "yellow"
    and "GGGG" for "green" and for every other phase name, whatever the
    number of links of the traffic light.  The duration is not used: it
    changes neither the result nor anything but the log. *)
Theorem override_sends_four_signals (intersection_id phase : string)
  (duration : Z) (r : Runtime W Bridge) :
  fst (override_traffic_light intersection_id phase duration r) = Ok true ->
  let r' := snd (override_traffic_light intersection_id phase duration r) in
  let state := Py.repeat_str (phase_mapping phase) 4 in
  issued r' = (issued r ++ [CmdSetState intersection_id state])%list
  /\ world r'
     = snd (trafficlight_setRedYellowGreenState intersection_id state
              (world r))
  /\ String.length state = 4%nat
  /\ In state ["rrrr"; "yyyy"; "GGGG"]
  /\ (state = "rrrr" <-> phase = "red")
  /\ (state = "yyyy" <-> phase = "yellow")
  /\ (forall other : Z,
        fst (override_traffic_light intersection_id phase other r) = Ok true
        /\ same_but_log r'
             (snd (override_traffic_light intersection_id phase other r))).
Proof.
  destruct r as [w c b ts cs l].
  destruct b as [host port api is_connected is_running process vehicles
    intersections roads emergency stats thread stopping].
  unfold override_traffic_light, same_but_log. unfold_prims. cbn.
  destruct is_connected; cbn; [|discriminate].
  destruct (trafficlight_getProgram w intersection_id); cbn; [|discriminate].
  destruct (trafficlight_setRedYellowGreenState intersection_id
              (phase_mapping phase ++ phase_mapping phase
               ++ phase_mapping phase ++ phase_mapping phase ++ "") w)
    as [[[]|e] w1]; cbn; [|discriminate].
  intros _. split; [reflexivity|]. split; [reflexivity|].
  unfold phase_mapping.
  destruct (String.eqb_spec phase "red") as [->|Hr]; cbn.
  { repeat split; auto; discriminate. }
  destruct (String.eqb_spec phase "yellow") as [->|Hy]; cbn.
  { repeat split; auto; discriminate. }
  destruct (String.eqb_spec phase "green") as [->|Hg]; cbn;
    repeat split; auto; try discriminate; intros; contradiction.
Qed.

End OverrideSignal.

Lemma override_sends_four_signals_witness :
  let r := Sim.polling Scenario.busy_world in
  fst (override_traffic_light "J1" "blue" 30 r) = Ok true
  /\ issued (snd (override_traffic_light "J1" "blue" 30 r))
     = [CmdSetState "J1" "GGGG"].
Proof.
  assert (Hok : fst (override_traffic_light "J1" "blue" 30
                       (Sim.polling Scenario.busy_world)) = Ok true)
    by reflexivity.
  split; [exact Hok|].
  exact (proj1 (override_sends_four_signals "J1" "blue" 30
                  (Sim.polling Scenario.busy_world) Hok)).
Defined.

Section Directory.
Context {W : Type} `{External W}.

Lemma keeps_cwd_modify_thread {B} i (f : LoopThread -> LoopThread) :
  keeps_cwd (@modify_thread W B i f).
Proof. intros r. reflexivity. Qed.

Lemma keeps_cwd_thread_start {B} : keeps_cwd (@thread_start W B).
Proof. intros r. reflexivity. Qed.

Lemma keeps_cwd_sample (f : W -> Bridge -> Bridge * list LogEvent) :
  keeps_cwd (sample f).
Proof.
  intros r. unfold sample. destruct (f (world r) (bridge r)). reflexivity.
Qed.

Lemma keeps_cwd_sleep {B} (s : Q) : keeps_cwd (@sleep W B _ s).
Proof. intros r. reflexivity. Qed.

Local Hint Extern 1 (keeps_cwd _) =>
  first [ apply keeps_cwd_modify_thread | apply keeps_cwd_thread_start
        | apply keeps_cwd_sample | apply keeps_cwd_sleep ] : actions.

Lemma start_data_updates_in_dir (c : string) :
  preserves (in_dir c) (@start_data_updates W).
Proof. unfold start_data_updates. preserve; auto with actions. Qed.

Lemma stop_sumo_process_in_dir (c : string) :
  preserves (in_dir c) (@stop_sumo_process W _).
Proof.
  unfold stop_sumo_process, disconnect_from_sumo, stop_data_updates.
  preserve; auto with actions.
Qed.

Lemma start_sumo_process_in_dir (c : string) config_path use_gui :
  preserves (in_dir c) (start_sumo_process config_path use_gui).
Proof.
  unfold start_sumo_process, os_path_abspath.
  preserve; auto using stop_sumo_process_in_dir with actions.
Qed.

Lemma step_until_vehicles_in_dir (c : string) (n count : nat) :
  preserves (in_dir c) (step_until_vehicles n count).
Proof.
  revert count; induction n as [|n IH]; intros count; simpl;
    preserve; auto with actions.
Qed.

Lemma handle_in_dir (c : string) (q : Request) :
  preserves (in_dir c) (handle q).
Proof.
  destruct q;
    unfold handle, now, error_500, override_traffic_light,
      disconnect_from_sumo, stop_data_updates;
    preserve;
    auto using connect_to_sumo_in_dir, stop_sumo_process_in_dir,
      start_sumo_process_in_dir, step_until_vehicles_in_dir,
      start_data_updates_in_dir with actions.
Qed.

Lemma update_data_loop_step_in_dir (c : string) (i : nat) :
  preserves (in_dir c) (update_data_loop_step i).
Proof.
  unfold update_data_loop_step, loop_try_body, step_and_check, loop_handler,
    loop_exit, update_simulation_data, sample_all, mark_if_connection_lost.
  preserve; auto with actions.
Qed.


End Directory.

(** ** [sumo_bridge_fixed.py] *)

Section FixedVehicles.
Context {W : Type} `{External W}.

Lemma collect_vehicles_spec (w : W) (ids : list string) :
  forall vehicles,
    let out := Fixed.collect_vehicles w ids vehicles in
    map Fixed.fv_id (fst out)
    = (map Fixed.fv_id vehicles
       ++ take_while (fixed_vehicle_read w) ids)%list
    /\ (snd out = None <-> forallb (fixed_vehicle_read w) ids = true).
Proof.
  induction ids as [|id rest IH]; intros vehicles.
  - cbn. rewrite app_nil_r. tauto.
  - cbn [Fixed.collect_vehicles take_while forallb].
    unfold fixed_vehicle_read at 1 3. unfold rbind.
    destruct (vehicle_getPosition w id); cbn [is_ok andb];
      [|cbn; rewrite app_nil_r; split; [reflexivity|split; discriminate]].
    destruct (vehicle_getSpeed w id); cbn [is_ok andb];
      [|cbn; rewrite app_nil_r; split; [reflexivity|split; discriminate]].
    destruct (vehicle_getRoute w id); cbn [is_ok andb];
      [|cbn; rewrite app_nil_r; split; [reflexivity|split; discriminate]].
    destruct (vehicle_getRoadID w id); cbn [is_ok andb];
      [|cbn; rewrite app_nil_r; split; [reflexivity|split; discriminate]].
    destruct (IH (vehicles ++ [Fixed.mkFVehicle id a a0 a1 a2])%list)
      as [Hids Hnone].
    split; [|exact Hnone].
    rewrite Hids, map_app, <- app_assoc. reflexivity.
Qed.

Lemma collect_lights_spec (w : W) (ids : list string) :
  forall lights,
    let out := Fixed.collect_lights w ids lights in
    map Fixed.fl_id (fst out)
    = (map Fixed.fl_id lights ++ take_while (fixed_light_read w) ids)%list
    /\ (snd out = None <-> forallb (fixed_light_read w) ids = true).
Proof.
  induction ids as [|id rest IH]; intros lights.
  - cbn. rewrite app_nil_r. tauto.
  - cbn [Fixed.collect_lights take_while forallb].
    unfold fixed_light_read at 1 3. unfold rbind.
    destruct (trafficlight_getRedYellowGreenState w id); cbn [is_ok andb];
      [|cbn; rewrite app_nil_r; split; [reflexivity|split; discriminate]].
    destruct (trafficlight_getPhase w id); cbn [is_ok andb];
      [|cbn; rewrite app_nil_r; split; [reflexivity|split; discriminate]].
    destruct (trafficlight_getProgram w id); cbn [is_ok andb];
      [|cbn; rewrite app_nil_r; split; [reflexivity|split; discriminate]].
    destruct (IH (lights ++ [Fixed.mkFLight id a a0 a1])%list)
      as [Hids Hnone].
    split; [|exact Hnone].
    rewrite Hids, map_app, <- app_assoc. reflexivity.
Qed.

(** X23.  In [sumo_bridge_fixed.py] the first vehicle (or traffic light) whose
    getters raise ends the list: what is returned is the longest prefix of
    the engine's id list that could be read, not, as in [sumo_bridge.py],
    every readable id.  Neither function raises or touches anything but
    the log, where a cut list leaves one error; when the id list itself
    cannot be read the result is empty. *)
Theorem fixed_lists_stop_at_first_failure (r : Runtime W Fixed.Bridge) :
  (exists vehicles,
     fst (Fixed.get_vehicle_data r) = Ok vehicles
     /\ same_but_log r (snd (Fixed.get_vehicle_data r))
     /\ match vehicle_getIDList (world r) with
        | Ok ids =>
            map Fixed.fv_id vehicles
            = take_while (fixed_vehicle_read (world r)) ids
            /\ errors (log (snd (Fixed.get_vehicle_data r)))
               = (errors (log r)
                  + if forallb (fixed_vehicle_read (world r)) ids
                    then 0 else 1)%nat
        | Raise _ => vehicles = []
        end)
  /\ (exists lights,
        fst (Fixed.get_traffic_light_data r) = Ok lights
        /\ same_but_log r (snd (Fixed.get_traffic_light_data r))
        /\ match trafficlight_getIDList (world r) with
           | Ok ids =>
               map Fixed.fl_id lights
               = take_while (fixed_light_read (world r)) ids
               /\ errors (log (snd (Fixed.get_traffic_light_data r)))
                  = (errors (log r)
                     + if forallb (fixed_light_read (world r)) ids
                       then 0 else 1)%nat
           | Raise _ => lights = []
           end).
Proof.
  destruct r as [w c b ts cs l]. split.
  - unfold Fixed.get_vehicle_data, same_but_log. unfold_prims.
    cbn [world cwd bridge threads issued log fst snd].
    destruct (vehicle_getIDList w) as [ids|e];
      [|eexists; cbn; repeat split].
    destruct (collect_vehicles_spec w ids []) as [Hids Hnone].
    destruct (Fixed.collect_vehicles w ids []) as [vehicles [e|]];
      cbn [fst snd] in *; exists vehicles; cbn -[errors];
      (split; [reflexivity|]); (split; [repeat split|]);
      (split; [exact Hids|]).
    + destruct (forallb (fixed_vehicle_read w) ids) eqn:Hall.
      * destruct Hnone as [_ Hn]. discriminate (Hn eq_refl).
      * rewrite errors_app. reflexivity.
    + rewrite (proj1 Hnone eq_refl). lia.
  - unfold Fixed.get_traffic_light_data, same_but_log. unfold_prims.
    cbn [world cwd bridge threads issued log fst snd].
    destruct (trafficlight_getIDList w) as [ids|e];
      [|eexists; cbn; repeat split].
    destruct (collect_lights_spec w ids []) as [Hids Hnone].
    destruct (Fixed.collect_lights w ids []) as [lights [e|]];
      cbn [fst snd] in *; exists lights; cbn -[errors];
      (split; [reflexivity|]); (split; [repeat split|]);
      (split; [exact Hids|]).
    + destruct (forallb (fixed_light_read w) ids) eqn:Hall.
      * destruct Hnone as [_ Hn]. discriminate (Hn eq_refl).
      * rewrite errors_app. reflexivity.
    + rewrite (proj1 Hnone eq_refl). lia.
Qed.

End FixedVehicles.

Section FixedLoop.
Context {W : Type} `{External W}.


Lemma get_vehicle_data_reads (r : Runtime W Fixed.Bridge) :
  exists vehicles,
    reads_as Fixed.get_vehicle_data r vehicles
    /\ forall r0 : Runtime W Fixed.Bridge,
         world r0 = world r -> fst (Fixed.get_vehicle_data r0) = Ok vehicles.
Proof.
  destruct r as [w c b ts cs l].
  unfold reads_as, same_but_log, Fixed.get_vehicle_data. unfold_prims.
  cbn [world cwd bridge threads issued log fst snd].
  destruct (vehicle_getIDList w) as [ids|e] eqn:Hids.
  - destruct (Fixed.collect_vehicles w ids []) as [vehicles [e|]] eqn:Hc;
      exists vehicles; cbn; (split; [repeat split|]);
      intros [w0 c0 b0 ts0 cs0 l0]; cbn; intros ->;
      rewrite Hids; cbn; rewrite Hc; reflexivity.
  - exists []. cbn. split; [repeat split|].
    intros [w0 c0 b0 ts0 cs0 l0]; cbn; intros ->. rewrite Hids. reflexivity.
Qed.

Lemma get_traffic_light_data_reads (r : Runtime W Fixed.Bridge) :
  exists lights,
    reads_as Fixed.get_traffic_light_data r lights
    /\ forall r0 : Runtime W Fixed.Bridge,
         world r0 = world r ->
         fst (Fixed.get_traffic_light_data r0) = Ok lights.
Proof.
  destruct r as [w c b ts cs l].
  unfold reads_as, same_but_log, Fixed.get_traffic_light_data. unfold_prims.
  cbn [world cwd bridge threads issued log fst snd].
  destruct (trafficlight_getIDList w) as [ids|e] eqn:Hids.
  - destruct (Fixed.collect_lights w ids []) as [lights [e|]] eqn:Hc;
      exists lights; cbn; (split; [repeat split|]);
      intros [w0 c0 b0 ts0 cs0 l0]; cbn; intros ->;
      rewrite Hids; cbn; rewrite Hc; reflexivity.
  - exists []. cbn. split; [repeat split|].
    intros [w0 c0 b0 ts0 cs0 l0]; cbn; intros ->. rewrite Hids. reflexivity.
Qed.

Lemma get_statistics_reads (r : Runtime W Fixed.Bridge) :
  exists statistics,
    reads_as Fixed.get_statistics r statistics
    /\ forall r0 : Runtime W Fixed.Bridge,
         world r0 = world r -> fst (Fixed.get_statistics r0) = Ok statistics.
Proof.
  destruct r as [w c b ts cs l].
  unfold reads_as, same_but_log, Fixed.get_statistics. unfold_prims.
  cbn [world cwd bridge threads issued log fst snd].
  destruct (simulation_getLoadedNumber w) eqn:E1; cbn;
    [|eexists; split; [repeat split|];
      intros [w0 c0 b0 ts0 cs0 l0]; cbn; intros ->; rewrite E1; reflexivity].
  destruct (simulation_getDepartedNumber w) eqn:E2; cbn;
    [|eexists; split; [repeat split|];
      intros [w0 c0 b0 ts0 cs0 l0]; cbn; intros ->; rewrite E1; cbn;
      rewrite E2; reflexivity].
  destruct (simulation_getArrivedNumber w) eqn:E3; cbn;
    [|eexists; split; [repeat split|];
      intros [w0 c0 b0 ts0 cs0 l0]; cbn; intros ->; rewrite E1; cbn;
      rewrite E2; cbn; rewrite E3; reflexivity].
  destruct (vehicle_getIDList w) eqn:E4; cbn;
    [|eexists; split; [repeat split|];
      intros [w0 c0 b0 ts0 cs0 l0]; cbn; intros ->; rewrite E1; cbn;
      rewrite E2; cbn; rewrite E3; cbn; rewrite E4; reflexivity].
  destruct (simulation_getWaitingVehicleNumber w) eqn:E5; cbn;
    [|eexists; split; [repeat split|];
      intros [w0 c0 b0 ts0 cs0 l0]; cbn; intros ->; rewrite E1; cbn;
      rewrite E2; cbn; rewrite E3; cbn; rewrite E4; cbn; rewrite E5;
      reflexivity].
  destruct (simulation_getStartingTeleportNumber w) eqn:E6; cbn;
    eexists; (split; [repeat split|]);
    intros [w0 c0 b0 ts0 cs0 l0]; cbn; intros ->; rewrite E1; cbn;
    rewrite E2; cbn; rewrite E3; cbn; rewrite E4; cbn; rewrite E5; cbn;
    rewrite E6; reflexivity.
Qed.

(** X24.  One turn of the loop of [sumo_bridge_fixed.py] on a connected bridge
    whose simulation is running sends one step to the engine.  If the step
    or the reading of the time raises, whatever the exception, the loop
    ends there: the thread is over, one error is logged, and the bridge
    object, its connection flags included, is left as it was.  Otherwise
    the thread lives on and [current_data] is replaced as a whole by the
    time, the vehicles, the traffic lights and the statistics read from the
    one engine state the step led to. *)
Theorem fixed_turn_publishes_or_ends (r : Runtime W Fixed.Bridge) (i : nat) :
  alive (thread_of r i) = true ->
  Fixed.stop_updates (bridge r) = false ->
  Fixed.connected (bridge r) = true ->
  Fixed.simulation_running (bridge r) = true ->
  let r' := snd (Fixed.update_data_loop_step i r) in
  let w1 := snd (traci_simulationStep (world r)) in
  fst (Fixed.update_data_loop_step i r) = Ok tt
  /\ issued r' = (issued r ++ [CmdStep])%list
  /\ match fst (traci_simulationStep (world r)), simulation_getTime w1 with
     | Ok _, Ok t =>
         alive (thread_of r' i) = true
         /\ world r' = time_sleep 0.1 w1
         /\ Fixed.cd_time (Fixed.current_data (bridge r')) = t
         /\ forall r0 : Runtime W Fixed.Bridge,
              world r0 = w1 ->
              fst (Fixed.get_vehicle_data r0)
              = Ok (Fixed.cd_vehicles (Fixed.current_data (bridge r')))
              /\ fst (Fixed.get_traffic_light_data r0)
                 = Ok (Fixed.cd_traffic_lights
                         (Fixed.current_data (bridge r')))
              /\ fst (Fixed.get_statistics r0)
                 = Ok (Fixed.cd_statistics (Fixed.current_data (bridge r')))
     | _, _ =>
         alive (thread_of r' i) = false
         /\ bridge r' = bridge r /\ world r' = w1
         /\ errors (log r') = S (errors (log r))
     end.
Proof.
  destruct r as [w c b ts cs l]; destruct b. unfold thread_of.
  cbn [world bridge threads issued log Fixed.stop_updates Fixed.connected
       Fixed.simulation_running].
  intros Halive -> -> ->.
  assert (Hended : forall t : LoopThread,
             alive (nth i (list_set ts i (mkLoopThread false (update_count t)
                                                       (last_time t)))
                        dead_thread) = false).
  { intros t. rewrite nth_list_set, Nat.eqb_refl.
    rewrite (alive_in_range ts i Halive). reflexivity. }
  unfold Fixed.update_data_loop_step. unfold_prims. unfold thread_of.
  cbn [world bridge threads issued log fst snd Fixed.stop_updates
       Fixed.connected Fixed.simulation_running negb andb].
  rewrite Halive.
  cbn [world bridge threads issued log fst snd Fixed.stop_updates
       Fixed.connected Fixed.simulation_running negb andb].
  destruct (traci_simulationStep w) as [[[]|e] w1];
    cbn -[errors];
    [|rewrite errors_app; cbn -[errors Nat.add];
      repeat split; [apply Hended | cbn; lia]].
  destruct (simulation_getTime w1) as [t|e]; cbn -[errors];
    [|rewrite errors_app; cbn -[errors Nat.add];
      repeat split; [apply Hended | cbn; lia]].
  match goal with
  | |- context [Fixed.get_vehicle_data ?R] =>
      destruct (get_vehicle_data_reads R)
        as (vs & [Hv1 (Hvw & Hvc & Hvb & Hvt & Hvi)] & Hv3);
      destruct (Fixed.get_vehicle_data R) as [res R2];
      cbn [world cwd bridge threads issued log fst snd set_world set_issued
           set_log set_bridge set_threads set_cwd] in *; subst res
  end.
  cbn -[errors].
  match goal with
  | |- context [Fixed.get_traffic_light_data ?R] =>
      destruct (get_traffic_light_data_reads R)
        as (ls & [Hl1 (Hlw & Hlc & Hlb & Hlt & Hli)] & Hl3);
      destruct (Fixed.get_traffic_light_data R) as [res R3];
      cbn [world cwd bridge threads issued log fst snd set_world set_issued
           set_log set_bridge set_threads set_cwd] in *; subst res
  end.
  cbn -[errors].
  match goal with
  | |- context [Fixed.get_statistics ?R] =>
      destruct (get_statistics_reads R)
        as (st & [Hs1 (Hsw & Hsc & Hsb & Hst & Hsi)] & Hs3);
      destruct (Fixed.get_statistics R) as [res R4];
      cbn [world cwd bridge threads issued log fst snd set_world set_issued
           set_log set_bridge set_threads set_cwd] in *; subst res
  end.
  cbn -[errors].
  repeat split; try congruence.
  - apply Hv3. congruence.
  - apply Hl3. congruence.
  - apply Hs3. congruence.
Qed.

End FixedLoop.

Lemma fixed_turn_publishes_or_ends_witness :
  let r := Scenario.fixed_polling in
  alive (thread_of r 0) = true
  /\ Fixed.stop_updates (bridge r) = false
  /\ Fixed.connected (bridge r) = true
  /\ Fixed.simulation_running (bridge r) = true
  /\ issued (snd (Fixed.update_data_loop_step 0 r)) = [CmdStep].
Proof.
  destruct (fixed_turn_publishes_or_ends Scenario.fixed_polling 0
              eq_refl eq_refl eq_refl eq_refl) as (_ & Hiss & _).
  repeat (split; [reflexivity|]). exact Hiss.
Defined.

Section FixedPause.
Context {W : Type} `{External W}.

(** X25.  In [sumo_bridge_fixed.py] pausing does not stop the update thread: on a
    paused bridge a turn of the loop sends nothing to the engine, leaves
    [current_data] as it is and only sleeps.  Resuming a connected bridge
    sets the running flag again; on a bridge that is not connected it does
    nothing. *)
Theorem fixed_pause_keeps_loop (r : Runtime W Fixed.Bridge) (i : nat) :
  alive (thread_of r i) = true ->
  Fixed.stop_updates (bridge r) = false ->
  Fixed.connected (bridge r) = true ->
  let paused := snd (Fixed.pause_simulation r) in
  let r' := snd (Fixed.update_data_loop_step i paused) in
  Fixed.simulation_running (bridge paused) = false
  /\ fst (Fixed.update_data_loop_step i paused) = Ok tt
  /\ alive (thread_of r' i) = true
  /\ issued r' = issued r
  /\ world r' = time_sleep 0.1 (world r)
  /\ Fixed.current_data (bridge r') = Fixed.current_data (bridge r)
  /\ bridge (snd (Fixed.resume_simulation r'))
     = Fixed.set_simulation_running true (bridge r)
  /\ (forall r0 : Runtime W Fixed.Bridge,
        Fixed.connected (bridge r0) = false ->
        Fixed.resume_simulation r0 = (Ok tt, r0)).
Proof.
  destruct r as [w c b ts cs l]; destruct b. unfold thread_of.
  cbn [world bridge threads issued log Fixed.stop_updates Fixed.connected
       Fixed.simulation_running].
  intros Halive -> ->.
  unfold Fixed.update_data_loop_step, Fixed.pause_simulation,
    Fixed.resume_simulation.
  unfold_prims. unfold thread_of. cbn. rewrite Halive. cbn.
  repeat split; try assumption.
  intros [w0 c0 b0 ts0 cs0 l0]. destruct b0. cbn. intros ->. reflexivity.
Qed.

Lemma step_times_issued (indices : list nat) (r : Runtime W Fixed.Bridge) :
  exists k,
    (k <= List.length indices)%nat
    /\ issued (snd (Fixed.step_times indices r))
       = (issued r ++ repeat CmdStep k)%list
    /\ bridge (snd (Fixed.step_times indices r)) = bridge r
    /\ threads (snd (Fixed.step_times indices r)) = threads r
    /\ log (snd (Fixed.step_times indices r)) = log r
    /\ match fst (Fixed.step_times indices r) with
       | Ok _ => k = List.length indices
       | Raise _ => (0 < k)%nat
       end.
Proof.
  revert r. induction indices as [|j rest IH]; intros r.
  - exists 0%nat. cbn. rewrite app_nil_r. repeat split. lia.
  - cbn [Fixed.step_times]. unfold bind, command.
    destruct (traci_simulationStep (world r)) as [[[]|e] w1].
    + destruct (IH (set_issued (issued r ++ [CmdStep])%list (set_world w1 r)))
        as (k & Hk & Hiss & Hb & Ht & Hl & Hres).
      exists (S k). cbn [List.length]. split; [lia|].
      rewrite Hiss, Hb, Ht, Hl. cbn [issued set_issued set_world bridge threads
                                      log repeat].
      rewrite <- app_assoc. repeat split.
      destruct (fst (Fixed.step_times rest _)); lia.
    + exists 1%nat. cbn. repeat split; lia.
Qed.

(** X26.  [step_simulation] never raises and writes nothing to the bridge
    object or the threads.  On a bridge that is not connected it returns
    [False] without calling the engine.  On a connected bridge it sends
    simulation steps and nothing else.  Given an int (or a bool, which
    counts as 0 or 1) it sends at most that many: all of them, logging
    nothing, when it returns [True] (none for a count of zero or less), and
    at least the one that raised, logging one error, when it returns
    [False].  Given any other JSON value, which the [/step] route passes
    on unchecked, [range] raises inside the [try]: it returns [False],
    logs one error and leaves the engine alone. *)
Theorem fixed_step_simulation_counts (steps : json)
  (r : Runtime W Fixed.Bridge) :
  let r' := snd (Fixed.step_simulation steps r) in
  (Fixed.connected (bridge r) = false ->
   Fixed.step_simulation steps r = (Ok false, r))
  /\ exists ok k,
       fst (Fixed.step_simulation steps r) = Ok ok
       /\ issued r' = (issued r ++ repeat CmdStep k)%list
       /\ bridge r' = bridge r /\ threads r' = threads r
       /\ match py_index steps with
          | Ok n =>
              (k <= Z.to_nat n)%nat
              /\ (ok = true -> k = Z.to_nat n /\ log r' = log r)
              /\ (ok = false -> Fixed.connected (bridge r) = true ->
                  (0 < k)%nat /\ errors (log r') = S (errors (log r)))
          | Raise _ =>
              ok = false /\ k = 0%nat /\ world r' = world r
              /\ (Fixed.connected (bridge r) = true ->
                  errors (log r') = S (errors (log r)))
          end.
Proof.
  cbv zeta. unfold Fixed.step_simulation, get_bridge, gets.
  change (bind (fun r0 : Runtime W Fixed.Bridge => (Ok (bridge r0), r0)) ?k r)
    with (k (bridge r) r). cbv beta.
  destruct (Fixed.connected (bridge r)) eqn:Hcon; cbn [negb].
  - split; [discriminate|].
    unfold try_except, bind, py_range.
    destruct (py_index steps) as [n|e0].
    + destruct (step_times_issued (Py.range n) r)
        as (k & Hk & Hiss & Hb & Ht & Hl & Hres).
      unfold Py.range in Hk. rewrite length_seq in Hk.
      destruct (Fixed.step_times (Py.range n) r) as [[[]|e] r1];
        cbn [fst snd] in *.
      * exists true, k. unfold ret. cbn [fst snd].
        unfold Py.range in Hres. rewrite length_seq in Hres.
        repeat split; try assumption; discriminate.
      * exists false, k. unfold logger_error, logger, modify, ret.
        cbn [fst snd issued bridge threads log set_log].
        repeat split; try assumption; try discriminate.
        rewrite Hl, errors_app. cbn. lia.
    + exists false, 0%nat. unfold raise, logger_error, logger, modify, ret.
      cbn [fst snd issued bridge threads log set_log world repeat].
      rewrite app_nil_r, errors_app. cbn. repeat split. lia.
  - split; [reflexivity|]. exists false, 0%nat. unfold ret. cbn.
    rewrite app_nil_r.
    destruct (py_index steps); repeat split; try lia; discriminate.
Qed.

End FixedPause.

Lemma fixed_pause_keeps_loop_witness :
  let r := Scenario.fixed_polling in
  alive (thread_of r 0) = true
  /\ Fixed.simulation_running
       (bridge (snd (Fixed.pause_simulation r))) = false
  /\ issued (snd (Fixed.update_data_loop_step 0
                    (snd (Fixed.pause_simulation r)))) = issued r.
Proof.
  destruct (fixed_pause_keeps_loop Scenario.fixed_polling 0
              eq_refl eq_refl eq_refl) as (Hp & _ & _ & Hi & _).
  split; [reflexivity|]. split; [exact Hp | exact Hi].
Defined.

Section FixedConnect.
Context {W : Type} `{External W}.
Local Open Scope act_scope.

Lemma fixed_connect_outcome_state_only (ok : bool) :
  state_only (fixed_connect_outcome (W := W) ok).
Proof.
  intros r r' Hb Ht [Hc Hok]. unfold fixed_connect_outcome, thread_of.
  rewrite Hb, Ht. split; [exact Hc|]. exact Hok.
Qed.

Lemma fixed_connected_and_polling (P : Runtime W Fixed.Bridge -> Prop) :
  hoare P
    (modify_bridge (Fixed.set_connected true) ;;
     modify_bridge (Fixed.set_simulation_running true) ;;
     Fixed.start_data_updates ;;
     ret true)
    fixed_connect_outcome whatever.
Proof.
  intros r _. destruct r as [w c b ts cs l].
  destruct b as [is_connected is_running process thread stopping data].
  unfold Fixed.start_data_updates, thread_start, fixed_connect_outcome.
  unfold_prims. unfold thread_of. cbn.
  destruct thread as [t|]; cbn.
  - destruct (alive (nth t ts dead_thread)) eqn:Ha; cbn.
    + split; [reflexivity|]. intros _. split; [reflexivity|].
      exists t. split; [reflexivity | exact Ha].
    + split; [reflexivity|]. intros _. split; [reflexivity|].
      exists (List.length ts). split; [reflexivity|].
      now rewrite nth_middle.
  - split; [reflexivity|]. intros _. split; [reflexivity|].
    exists (List.length ts). split; [reflexivity|]. now rewrite nth_middle.
Qed.

Lemma fixed_connect_in_config_dir_outcome (config_dir : string)
  (sumo_cmd : list string) :
  hoare any (Fixed.connect_in_config_dir config_dir sumo_cmd)
        fixed_connect_outcome whatever.
Proof.
  unfold Fixed.connect_in_config_dir.
  do 8 hoare_step. apply fixed_connected_and_polling.
Qed.

Lemma connect_to_sumo_fixed_outcome (config_path : string) (use_gui : bool) :
  hoare any (Fixed.connect_to_sumo_fixed config_path use_gui)
        fixed_connect_outcome never.
Proof.
  unfold Fixed.connect_to_sumo_fixed. hoare_step.
  - do 8 hoare_step.
    apply hoare_try_finally.
    + eapply hoare_weaken; [|apply fixed_connect_in_config_dir_outcome].
      intros; exact I.
    + apply keeps_os_chdir.
    + apply fixed_connect_outcome_state_only.
  - intros r _. destruct r as [w c b ts cs l]; destruct b.
    unfold_prims. cbn. split; [reflexivity | discriminate].
Qed.

(** X27.  [connect_to_sumo_fixed] never raises and returns the connection flag
    it leaves behind; after [True] the simulation is marked running and the
    update thread is alive.  Asked for a configuration file that does not
    exist, a bridge that is not connected returns [False] without calling
    the engine at all. *)
Theorem fixed_connect_reports_its_flag (config_path : string)
  (use_gui : bool) (r : Runtime W Fixed.Bridge) :
  let r' := snd (Fixed.connect_to_sumo_fixed config_path use_gui r) in
  (exists ok,
     fst (Fixed.connect_to_sumo_fixed config_path use_gui r) = Ok ok
     /\ Fixed.connected (bridge r') = ok
     /\ (ok = true ->
         Fixed.simulation_running (bridge r') = true
         /\ exists t, Fixed.update_thread (bridge r') = Some t
                      /\ alive (thread_of r' t) = true))
  /\ (Fixed.connected (bridge r) = false ->
      path_exists (path_abspath (cwd r) config_path) = false ->
      fst (Fixed.connect_to_sumo_fixed config_path use_gui r) = Ok false
      /\ world r' = world r /\ issued r' = issued r
      /\ threads r' = threads r /\ bridge r' = bridge r
      /\ errors (log r') = S (errors (log r))).
Proof.
  cbv zeta. split.
  - pose proof (connect_to_sumo_fixed_outcome config_path use_gui (r := r) I)
      as Hpost.
    destruct (Fixed.connect_to_sumo_fixed config_path use_gui r)
      as [[ok|e] r']; [|destruct Hpost].
    exists ok. split; [reflexivity | exact Hpost].
  - destruct r as [w c b ts cs l]; destruct b. cbn [bridge cwd Fixed.connected].
    intros -> Hmissing.
    unfold Fixed.connect_to_sumo_fixed, os_path_abspath. unfold_prims.
    cbn -[errors]. rewrite Hmissing. cbn -[errors].
    rewrite errors_app. cbn. repeat split. lia.
Qed.

Lemma step_simulation_total (steps : json) (r : Runtime W Fixed.Bridge) :
  exists ok, fst (Fixed.step_simulation steps r) = Ok ok.
Proof.
  unfold Fixed.step_simulation. unfold_prims.
  destruct (negb (Fixed.connected (bridge r))); [now exists false|].
  destruct (py_range steps) as [indices|e0]; [|now exists false].
  destruct (Fixed.step_times indices r) as [[[]|e] r1];
    [now exists true | now exists false].
Qed.

(** X28.  The routes of [sumo_bridge_fixed.py] have no [try] of their own, yet a
    request that carries the JSON object its route reads is always
    answered: nothing the bridge does for it raises.  A [POST /connect] or
    [POST /step] without a JSON object raises before the bridge is
    touched.  The status, data, pause and resume routes never reach the
    engine, and pause and resume answer "success" whatever they did. *)
Theorem fixed_routes_answer (q : Fixed.Request) (r : Runtime W Fixed.Bridge) :
  (if fixed_has_body q
   then exists answer, fst (Fixed.handle q r) = Ok answer
   else Fixed.handle q r = (Raise Fixed.no_body, r))
  /\ (fixed_reaches_engine q = false ->
      world (snd (Fixed.handle q r)) = world r
      /\ issued (snd (Fixed.handle q r)) = issued r
      /\ threads (snd (Fixed.handle q r)) = threads r)
  /\ (q = Fixed.POST_pause \/ q = Fixed.POST_resume ->
      fst (Fixed.handle q r) = Ok (Fixed.SuccessAnswer true)).
Proof.
  split; [|split].
  - destruct q as [[d|]| | |[d|]| | |]; cbn [fixed_has_body];
      try reflexivity; unfold Fixed.handle; cbv zeta.
    + unfold bind at 1.
      pose proof (connect_to_sumo_fixed_outcome
                    (default (Fixed.config d)
                       "AddisAbabaSumo/AddisAbaba.sumocfg")
                    (default (Fixed.gui d) false) (r := r) I) as Hpost.
      destruct (Fixed.connect_to_sumo_fixed _ _ r) as [[ok|e] r1];
        [|destruct Hpost].
      eexists. reflexivity.
    + unfold bind at 1. pose proof (fixed_disconnect_never_raises r) as Hok.
      destruct (Fixed.disconnect_from_sumo r) as [res r1]. cbn [fst] in Hok.
      subst res. eexists. reflexivity.
    + eexists. reflexivity.
    + unfold bind at 1.
      destruct (step_simulation_total (default (Fixed.steps d) (JInt 1)) r)
        as [ok Hok].
      destruct (Fixed.step_simulation _ r) as [res r1]. cbn [fst] in Hok.
      subst res. eexists. reflexivity.
    + eexists. reflexivity.
    + destruct r as [w c b ts cs l].
      destruct b as [is_connected is_running process thread stopping data].
      unfold Fixed.resume_simulation. unfold_prims. cbn.
      destruct is_connected; eexists; reflexivity.
    + eexists. reflexivity.
  - destruct r as [w c b ts cs l].
    destruct b as [is_connected is_running process thread stopping data].
    destruct q as [[d|]| | |[d|]| | |]; cbn [fixed_reaches_engine];
      try discriminate; intros _; try (repeat split; fail).
    unfold Fixed.handle, Fixed.resume_simulation. unfold_prims. cbn.
    destruct is_connected; repeat split.
  - destruct r as [w c b ts cs l].
    destruct b as [is_connected is_running process thread stopping data].
    intros [-> | ->]; [reflexivity|].
    unfold Fixed.handle, Fixed.resume_simulation. unfold_prims. cbn.
    destruct is_connected; reflexivity.
Qed.

End FixedConnect.

Lemma fixed_connect_reports_its_flag_witness :
  Fixed.connected (bridge Scenario.fixed_fresh) = false
  /\ path_exists (path_abspath (cwd Scenario.fixed_fresh) "nowhere.sumocfg")
     = false
  /\ fst (Fixed.connect_to_sumo_fixed "nowhere.sumocfg" false
            Scenario.fixed_fresh) = Ok false
  /\ issued (snd (Fixed.connect_to_sumo_fixed "nowhere.sumocfg" false
                    Scenario.fixed_fresh)) = [].
Proof.
  destruct (fixed_connect_reports_its_flag "nowhere.sumocfg" false
              Scenario.fixed_fresh) as [_ Hno].
  destruct (Hno eq_refl eq_refl) as (Hres & _ & Hiss & _).
  split; [reflexivity|]. split; [reflexivity|].
  split; [exact Hres | exact Hiss].
Defined.
